(** * The download-cache-and-transcode pipeline of the WhatsApp bot

    A shallow embedding of the media pipeline of [src/server.js]:
    [sanitizeFilename], [convertToMp4], [convertToMp3], [download_video]
    and the [!ytdl3] / [!ytdl4] branches of the [message_create] handler
    with their [finally] clean-up; and, in the part [More of server.js],
    [tokenizer], [radiusToZoom], the sampling of [getRouteMapUrl],
    [findFFmpegPath], [sendMediaWithRetry], [fetchDBApi] and the choice
    of a file in the [!cache4] / [!cache3] and [!dl4] / [!dl3] branches.

    JavaScript strings are sequences of UTF-16 code units ([list N]); the
    two cache directories are ordered listings, because the code reads
    [readdirSync(...)[0]] and sorts listings; the external tools (yt-dlp,
    ffmpeg, the chat client) are fields of an environment record, so every
    theorem quantifies over all their behaviours.

    What the model fixes:
    - a path is a directory and a plain file name, which is what
      [path.join] gives for the names the handlers and [readdirSync]
      produce, the empty name apart (a title that sanitizes to the empty
      string makes the output base of yt-dlp the directory itself);
    - a tool is a function of the file system it finds, so that two
      calls on the same directories behave alike;
    - modification times are integers, compared as the comparator of
      [sort] compares [mtimeMs];
    - asynchronous calls run to completion one after the other, and
      nothing else writes the directories during a call. *)

From Stdlib Require Import String Ascii.
From Stdlib Require Import List NArith ZArith Lia Bool.
Import ListNotations.

Set Implicit Arguments.

(** ** JavaScript strings *)

Module Js.

Definition jsstring : Type := list N.

(** A string literal of the source, as code units. *)
Definition lit (s : string) : jsstring :=
  map N_of_ascii (list_ascii_of_string s).

Fixpoint eqb (s t : jsstring) : bool :=
  match s, t with
  | [], [] => true
  | c :: s', d :: t' => N.eqb c d && eqb s' t'
  | _, _ => false
  end.

(** [s.startsWith(p)] *)
Fixpoint startsWith (s p : jsstring) {struct p} : bool :=
  match p, s with
  | [], _ => true
  | c :: p', d :: s' => N.eqb c d && startsWith s' p'
  | _ :: _, [] => false
  end.

(** [s.includes(p)] *)
Fixpoint includes (s p : jsstring) : bool :=
  startsWith s p ||
  match s with
  | [] => false
  | _ :: s' => includes s' p
  end.

(** [s.endsWith(p)] *)
Definition endsWith (s p : jsstring) : bool :=
  startsWith (rev s) (rev p).

(** [s.substring(0, n)] *)
Definition substring0 (n : nat) (s : jsstring) : jsstring := firstn n s.

(** [s.slice(-n)] *)
Definition slice_last (n : nat) (s : jsstring) : jsstring :=
  skipn (length s - n) s.

(** Character classes of the regular expressions (no [u] or [i] flag, so
    they are tested code unit by code unit). *)

Definition between (lo hi c : N) : bool := (lo <=? c)%N && (c <=? hi)%N.

(** [\w] is [A-Za-z0-9_]. *)
Definition is_word (c : N) : bool :=
  between 48 57 c || between 65 90 c || N.eqb c 95 || between 97 122 c.

(** [\s]: the WhiteSpace and LineTerminator code points of ECMAScript
    (TAB, LF, VT, FF, CR, SP, NBSP, U+1680, U+2000..U+200A, U+2028,
    U+2029, U+202F, U+205F, U+3000, U+FEFF). *)
Definition is_space (c : N) : bool :=
  between 9 13 c || N.eqb c 32 || N.eqb c 160 || N.eqb c 5760 ||
  between 8192 8202 c || N.eqb c 8232 || N.eqb c 8233 || N.eqb c 8239 ||
  N.eqb c 8287 || N.eqb c 12288 || N.eqb c 65279.

Definition hyphen : N := 45.
Definition underscore : N := 95.
Definition dot : N := 46.

(** [s.replace(/[cls]/g, repl)]: every code unit of the class is a match
    of its own. *)
Definition replace_class_g (cls : N -> bool) (repl s : jsstring) : jsstring :=
  flat_map (fun c => if cls c then repl else [c]) s.

(** [s.replace(/[cls]+/g, repl)]: matching is greedy and resumes after
    the match, so each maximal run of the class is one match.  [in_run]
    says that the previous code unit belonged to the current match. *)
Fixpoint replace_runs_from (cls : N -> bool) (repl : jsstring)
         (in_run : bool) (s : jsstring) : jsstring :=
  match s with
  | [] => []
  | c :: s' =>
      if cls c
      then (if in_run then [] else repl) ++ replace_runs_from cls repl true s'
      else c :: replace_runs_from cls repl false s'
  end.

Definition replace_runs_g (cls : N -> bool) (repl s : jsstring) : jsstring :=
  replace_runs_from cls repl false s.

(** [s.replace(/\.[^.]+$/, "")]: the leftmost dot that is followed, up
    to the end of the string, by one or more code units that are not
    dots; the match is removed. *)
Fixpoint remove_extension (s : jsstring) : jsstring :=
  match s with
  | [] => []
  | c :: s' =>
      if N.eqb c dot && negb (Nat.eqb (length s') 0)
         && forallb (fun d => negb (N.eqb d dot)) s'
      then []
      else c :: remove_extension s'
  end.

(** [s.toLowerCase()] on the ASCII letters.  Code units outside ASCII are
    left alone: the only use compares the result with the ASCII literals
    [".mp4"] and [".mp3"], and no other code unit lower-cases to one of
    their characters. *)
Definition toLowerCase (s : jsstring) : jsstring :=
  map (fun c => if between 65 90 c then (c + 32)%N else c) s.

(** [s.trim()] *)
Fixpoint trimStart (s : jsstring) : jsstring :=
  match s with
  | [] => []
  | c :: s' => if is_space c then trimStart s' else s
  end.

Definition trim (s : jsstring) : jsstring :=
  rev (trimStart (rev (trimStart s))).

End Js.

Import Js.

(** ** [sanitizeFilename] (server.js, lines 1148-1153) *)

Definition sanitizeFilename (filename : jsstring) : jsstring :=
  substring0 100
    (replace_runs_g is_space [underscore]
       (replace_class_g
          (fun c => negb (is_word c || is_space c || N.eqb c hyphen)) []
          filename)).

(** The three operations as the specification words them, for the
    comparison with the regular-expression pipeline of the source. *)
Module SanitizeSpec.

(** Strip every character outside word / space / hyphen. *)
Definition strip (s : jsstring) : jsstring :=
  filter (fun c => is_word c || is_space c || N.eqb c hyphen) s.

(** Drop the whitespace at the front of a string. *)
Fixpoint drop_spaces (s : jsstring) : jsstring :=
  match s with
  | [] => []
  | c :: s' => if is_space c then drop_spaces s' else s
  end.

(** Collapse each whitespace run to one underscore: go through the
    string; a non-space character is kept; at a space, write one
    underscore and continue after the whole run.  [fuel] bounds the
    number of characters still to read. *)
Fixpoint collapse_fuel (fuel : nat) (s : jsstring) : jsstring :=
  match fuel with
  | O => []
  | S fuel' =>
      match s with
      | [] => []
      | c :: s' =>
          if is_space c
          then underscore :: collapse_fuel fuel' (drop_spaces s')
          else c :: collapse_fuel fuel' s'
      end
  end.

Definition collapse (s : jsstring) : jsstring := collapse_fuel (length s) s.

(** Truncate to at most 100 characters. *)
Definition truncate (s : jsstring) : jsstring := firstn 100 s.

Definition sanitize (s : jsstring) : jsstring := truncate (collapse (strip s)).

End SanitizeSpec.

(** ** The cache directories and the file-system calls *)

(** [TEMP_DIR_MP4] and [TEMP_DIR_MP3] (lines 812-820). *)
Inductive Dir : Type := TEMP_DIR_MP4 | TEMP_DIR_MP3.

(** What the code reads of [fs.statSync(p)]. *)
Record Stats : Type := mkStats { st_size : N; st_mtimeMs : Z }.

Record Entry : Type := mkEntry { e_name : jsstring; e_stats : Stats }.

(** A directory in [readdirSync] order. *)
Definition Listing : Type := list Entry.

Record FS : Type := mkFS { files_mp4 : Listing; files_mp3 : Listing }.

(** [path.join(dir, name)] for a plain file name that is not empty (no
    separator, as every name the handlers pass and every name
    [readdirSync] returns).  [path.join(dir, "")] is [dir] itself, which
    the record does not represent: the one empty name the code can join
    is an empty [baseFilename], in the output base of yt-dlp
    ([empty_output_base]). *)
Record Path : Type := mkPath { p_dir : Dir; p_name : jsstring }.

Definition path_join (d : Dir) (n : jsstring) : Path := mkPath d n.

Definition dir_eqb (a b : Dir) : bool :=
  match a, b with
  | TEMP_DIR_MP4, TEMP_DIR_MP4 | TEMP_DIR_MP3, TEMP_DIR_MP3 => true
  | _, _ => false
  end.

Definition path_eqb (a b : Path) : bool :=
  dir_eqb (p_dir a) (p_dir b) && Js.eqb (p_name a) (p_name b).

Definition listing (fs : FS) (d : Dir) : Listing :=
  match d with
  | TEMP_DIR_MP4 => files_mp4 fs
  | TEMP_DIR_MP3 => files_mp3 fs
  end.

Definition set_listing (fs : FS) (d : Dir) (l : Listing) : FS :=
  match d with
  | TEMP_DIR_MP4 => mkFS l (files_mp3 fs)
  | TEMP_DIR_MP3 => mkFS (files_mp4 fs) l
  end.

Definition lookup (l : Listing) (n : jsstring) : option Entry :=
  find (fun e => Js.eqb (e_name e) n) l.

Definition remove_name (n : jsstring) (l : Listing) : Listing :=
  filter (fun e => negb (Js.eqb (e_name e) n)) l.

Definition lookup_path (fs : FS) (p : Path) : option Entry :=
  lookup (listing fs (p_dir p)) (p_name p).

(** A directory holds each name once. *)
Definition listing_wf (l : Listing) : Prop := NoDup (map e_name l).

Definition fs_wf (fs : FS) : Prop :=
  listing_wf (files_mp4 fs) /\ listing_wf (files_mp3 fs).

(** [path.extname(name)]: from the last dot of the name to its end; empty
    when there is no dot, when the only dot is the first character, and
    for the name [".."]. *)
Fixpoint last_dot_suffix (s : jsstring) : option jsstring :=
  match s with
  | [] => None
  | c :: s' =>
      match last_dot_suffix s' with
      | Some r => Some r
      | None => if N.eqb c dot then Some s else None
      end
  end.

Definition extname (n : jsstring) : jsstring :=
  match last_dot_suffix n with
  | None => []
  | Some r =>
      if Nat.eqb (length r) (length n) then []
      else if Js.eqb n (lit "..") then []
      else r
  end.

(** ** Errors, console and trace *)

Inductive FFmpegJob : Type :=
| ToMp4 (inputPath outputPath : Path)
    (** [-i in -c:v libx264 -c:a aac -preset fast -crf 23 -movflags
        +faststart -y out] *)
| ToMp3 (inputPath outputPath : Path)
    (** [-i in -vn -acodec libmp3lame -ab 192k -ar 44100 -y out] *).

Inductive Error : Type :=
| ENOENT (p : Path)
| FFmpegExited (code : Z) (stderr_tail : jsstring)
    (** [FFmpeg exited with code ${code}: ${stderr.slice(-500)}] *)
| FFmpegError (msg : jsstring)            (** [FFmpeg error: ${err.message}] *)
| DownloadFailed (msg : jsstring)         (** [Download failed: ${error.message}] *)
| FileNotCreated (baseFilename : jsstring) (** [File not created for ${baseFilename}] *)
| DownloadedFileEmpty                     (** [Downloaded file is empty] *)
| VideoInfoFailed                         (** [Failed to get video information] *)
| TypeError                               (** [only_search[0]] is [undefined] *)
| ExternalError (msg : jsstring)          (** thrown by the chat client or the upload *).

Inductive ChatMsg : Type :=
| MsgInvalidUrl | MsgFetchingInfo
| MsgDownloading (title : jsstring) | MsgFoundInCache (title : jsstring)
| MsgError (e : Error).

Inductive Console : Type :=
| LogFoundCachedTarget (p : Path)
| LogCacheSize (size : N)
| LogFoundCachedOriginal (p : Path)
| LogStartingDownload (baseFilename : jsstring)
| LogUsingFormat (hasFFmpeg : bool)
| LogDownloadProgress (percent : N)
| LogDownloadCompleted
| LogDownloadedFile (name : jsstring)
| LogFileSize (size : N)
| LogFFmpegAvailable (available : bool)
| LogFileDownloaded
| LogConverting (job : FFmpegJob)
| LogNewLine
| LogConverted
| LogDownloadComplete (p : Path)
| LogFileVerified (size : N)
| LogCleanedUpPartial (file : jsstring)
| ErrConversionFailed (e : Error)              (** [Conversion failed:] *)
| ErrConversionFailedUsingOriginal (e : Error) (** [Conversion failed, using original:] *)
| ErrYtdlp (msg : jsstring)                    (** [ytdlp-nodejs error:] *)
| ErrGetInfo (msg : jsstring)                  (** [Error getting video info:] *)
| ErrDownloadingSending (e : Error)            (** [Error downloading/sending YouTube ...:] *)
| ErrCleaningPartial (e : Error)               (** [Error cleaning partial files:] *).

(** What a call does to the outside, in order. *)
Inductive Event : Type :=
| EvConsole (m : Console)
| EvUnlink (p : Path)
| EvRename (src dst : Path)
| EvYtdlpDownload (url format : jsstring) (output : Path)
| EvFFmpeg (job : FFmpegJob)
| EvGetInfo (url : jsstring)
| EvChat (m : ChatMsg)
| EvDeliver (p : Path) (st : Stats).

(** ** A state and exception monad with a trace *)

Inductive Result (A : Type) : Type :=
| Ok (a : A)
| Throw (e : Error).
Arguments Throw {A} e.

#[projections(primitive)]
Record Out (A : Type) : Type :=
  mkOut { result : Result A; fs_after : FS; trace : list Event }.

Definition M (A : Type) : Type := FS -> Out A.

Definition ret {A} (a : A) : M A := fun fs => mkOut (Ok a) fs [].

Definition throw {A} (e : Error) : M A := fun fs => mkOut (Throw e) fs [].

Definition bind {A B} (m : M A) (k : A -> M B) : M B :=
  fun fs =>
    let o := m fs in
    match result o with
    | Ok a =>
        let o' := k a (fs_after o) in
        mkOut (result o') (fs_after o') (trace o ++ trace o')
    | Throw e => mkOut (Throw e) (fs_after o) (trace o)
    end.

(** [try { m } catch (e) { h e }] *)
Definition try_catch {A} (m : M A) (h : Error -> M A) : M A :=
  fun fs =>
    let o := m fs in
    match result o with
    | Ok _ => o
    | Throw e =>
        let o' := h e (fs_after o) in
        mkOut (result o') (fs_after o') (trace o ++ trace o')
    end.

(** [try { m } finally { c }]: [c] runs on every outcome of [m]; the
    outcome is that of [m] unless [c] throws. *)
Definition try_finally {A} (m : M A) (c : M unit) : M A :=
  fun fs =>
    let o := m fs in
    let o' := c (fs_after o) in
    mkOut (match result o' with
           | Ok _ => result o
           | Throw e => Throw e
           end)
          (fs_after o') (trace o ++ trace o').

Definition emit (ev : Event) : M unit := fun fs => mkOut (Ok tt) fs [ev].

Definition console (m : Console) : M unit := emit (EvConsole m).

Declare Scope js_scope.
Delimit Scope js_scope with js.
Notation "x <- c1 ;; c2" := (bind c1 (fun x => c2))
  (at level 100, c1 at next level, right associativity) : js_scope.
Notation "c1 ;; c2" := (bind c1 (fun _ => c2))
  (at level 100, right associativity) : js_scope.
Open Scope js_scope.

(** [l.forEach(f)] *)
Fixpoint forEach {A} (l : list A) (f : A -> M unit) : M unit :=
  match l with
  | [] => ret tt
  | x :: l' => f x ;; forEach l' f
  end.

(** [fs.existsSync(p)] *)
Definition existsSync (p : Path) : M bool :=
  fun fs =>
    mkOut (Ok (match lookup_path fs p with Some _ => true | None => false end))
          fs [].

(** [fs.statSync(p)] *)
Definition statSync (p : Path) : M Stats :=
  fun fs =>
    match lookup_path fs p with
    | Some e => mkOut (Ok (e_stats e)) fs []
    | None => mkOut (Throw (ENOENT p)) fs []
    end.

(** [fs.readdirSync(d)] *)
Definition readdirSync (d : Dir) : M (list jsstring) :=
  fun fs => mkOut (Ok (map e_name (listing fs d))) fs [].

(** [fs.unlinkSync(p)] *)
Definition unlinkSync (p : Path) : M unit :=
  fun fs =>
    match lookup_path fs p with
    | Some _ =>
        mkOut (Ok tt)
              (set_listing fs (p_dir p)
                 (remove_name (p_name p) (listing fs (p_dir p))))
              [EvUnlink p]
    | None => mkOut (Throw (ENOENT p)) fs []
    end.

(** [fs.renameSync(src, dst)]: the entry keeps its stats, a file already
    at [dst] is replaced; the renamed entry is listed last. *)
Definition renameSync (src dst : Path) : M unit :=
  fun fs =>
    match lookup_path fs src with
    | Some e =>
        let fs1 := set_listing fs (p_dir src)
                     (remove_name (p_name src) (listing fs (p_dir src))) in
        let l2 := remove_name (p_name dst) (listing fs1 (p_dir dst)) in
        mkOut (Ok tt)
              (set_listing fs1 (p_dir dst)
                 (l2 ++ [mkEntry (p_name dst) (e_stats e)]))
              [EvRename src dst]
    | None => mkOut (Throw (ENOENT src)) fs []
    end.

(** ** The external tools *)

(** How an [ffmpeg] child process ends: the [close] event with its exit
    code and what it wrote to stderr, or the [error] event. *)
Inductive FFmpegOutcome : Type :=
| Closed (code : Z) (stderr : jsstring)
| SpawnFailed (msg : jsstring).

(** How [ytdlp.downloadAsync] ends: the [percent] fields of the progress
    callbacks it made, and the message of the error it rejected with, if
    any. *)
Record YtdlpOutcome : Type :=
  mkYtdlpOutcome { yt_progress : list N; yt_error : option jsstring }.

(** The process-wide flag [ffmpegAvailable] (set once at start-up) and
    the tools the pipeline calls.  Each tool is a function of the file
    system it finds: it returns how it ended and the file system it
    leaves. *)
Record Env : Type := mkEnv {
  ffmpegAvailable : bool;
  ytdlp_downloadAsync : jsstring -> jsstring -> Path -> FS -> YtdlpOutcome * FS;
  spawn_ffmpeg : FFmpegJob -> FS -> FFmpegOutcome * FS;
  (** [ytdlp.getInfoAsync]: the error message, or the [title] field of
      the info ([None] when it is missing). *)
  ytdlp_getInfoAsync : jsstring -> jsstring + option jsstring;
  (** [chat.sendMessage] of a text: the error message if it rejects. *)
  chat_sendMessage : ChatMsg -> option jsstring;
  (** Everything after [fs.statSync(filePath)] in the [try] block of the
      handler (lines 2099-2165): the upload to Gofile for a large file
      or the send to the chat; it reads the file and writes nothing in
      the cache directories. *)
  deliver_file : Path -> Stats -> option Error
}.

Section Pipeline.

Variable env : Env.

(** ** [convertToMp4] and [convertToMp3] (lines 823-919) *)

Definition run_ffmpeg (job : FFmpegJob) : M FFmpegOutcome :=
  fun fs =>
    let r := spawn_ffmpeg env job fs in
    mkOut (Ok (fst r)) (snd r) [EvFFmpeg job].

Definition convert_with (job : FFmpegJob) (outputPath : Path) : M Path :=
  console (LogConverting job) ;;
  o <- run_ffmpeg job ;;
  match o with
  | Closed code stderr =>
      console LogNewLine ;;
      if Z.eqb code 0
      then console LogConverted ;; ret outputPath
      else throw (FFmpegExited code (slice_last 500 stderr))
  | SpawnFailed msg => throw (FFmpegError msg)
  end.

Definition convertToMp4 (inputPath outputPath : Path) : M Path :=
  convert_with (ToMp4 inputPath outputPath) outputPath.

Definition convertToMp3 (inputPath outputPath : Path) : M Path :=
  convert_with (ToMp3 inputPath outputPath) outputPath.

(** [if (fileType === "mp3") await convertToMp3(i, o); else await
    convertToMp4(i, o);] *)
Definition convert (fileType : jsstring) (inputPath outputPath : Path) : M Path :=
  if Js.eqb fileType (lit "mp3")
  then convertToMp3 inputPath outputPath
  else convertToMp4 inputPath outputPath.

(** ** [download_video] (lines 921-1078) *)

(** Lines 926-935: the converted file in the cache.  [Some p] is the
    early [return p]. *)
Definition check_cached_target (filePath : Path) : M (option Path) :=
  ex <- existsSync filePath ;;
  if ex : bool then
    stats <- statSync filePath ;;
    if (0 <? st_size stats)%N then
      console (LogFoundCachedTarget filePath) ;;
      console (LogCacheSize (st_size stats)) ;;
      ret (Some filePath)
    else
      unlinkSync filePath ;;
      ret None
  else ret None.

(** Lines 941-946: the filter of [cachedFiles]. *)
Definition is_cached_original (baseFilename f : jsstring) : bool :=
  startsWith f baseFilename &&
  negb (includes f (lit ".part")) &&
  negb (includes f (lit ".f")) &&
  negb (endsWith f (lit ".mp4")) &&
  negb (endsWith f (lit ".mp3")).

(** Lines 949-969: an original already in the cache.  [Some p] is the
    early [return p]. *)
Definition use_cached_original (targetDir : Dir) (filePath : Path)
           (fileType : jsstring) (cachedFiles : list jsstring) : M (option Path) :=
  match cachedFiles with
  | [] => ret None
  | f0 :: _ =>
      let originalPath := path_join targetDir f0 in
      stats <- statSync originalPath ;;
      if (0 <? st_size stats)%N then
        console (LogFoundCachedOriginal originalPath) ;;
        if ffmpegAvailable env then
          try_catch
            (convert fileType originalPath filePath ;;
             ret (Some filePath))
            (fun error =>
               console (ErrConversionFailed error) ;;
               ret (Some originalPath))
        else ret (Some originalPath)
      else
        unlinkSync originalPath ;;
        ret None
  end.

(** Lines 975-976: the filter of [partialFiles]. *)
Definition is_partial_download (baseFilename f : jsstring) : bool :=
  startsWith f baseFilename &&
  (includes f (lit ".f") || includes f (lit ".part")).

(** Lines 971-983. *)
Definition remove_partial_downloads (targetDir : Dir) (baseFilename : jsstring)
  : M unit :=
  names <- readdirSync targetDir ;;
  let partialFiles := filter (is_partial_download baseFilename) names in
  forEach partialFiles (fun f =>
    let partialPath := path_join targetDir f in
    ex <- existsSync partialPath ;;
    if ex : bool then unlinkSync partialPath else ret tt).

(** The [format] option of lines 996-1005. *)
Definition format_option (fileType : jsstring) : jsstring :=
  if Js.eqb fileType (lit "mp3")
  then lit "bv[height<=?720]+ba/b[height<=?720]"
  else lit "bv[height<=?720]+ba/b[height<=?720]".

Definition run_ytdlp (url format : jsstring) (output : Path) : M YtdlpOutcome :=
  fun fs =>
    let r := ytdlp_downloadAsync env url format output fs in
    mkOut (Ok (fst r)) (snd r) [EvYtdlpDownload url format output].

(** Lines 985-1019. *)
Definition acquire (url : jsstring) (targetDir : Dir)
           (baseFilename fileType : jsstring) : M unit :=
  console (LogStartingDownload baseFilename) ;;
  let hasFFmpeg := ffmpegAvailable env in
  console (LogUsingFormat hasFFmpeg) ;;
  let trimmed_url := trim url in
  o <- run_ytdlp trimmed_url
         (if hasFFmpeg then format_option fileType else lit "b[height<=?720]")
         (path_join targetDir baseFilename) ;;
  forEach (yt_progress o) (fun percent =>
    if N.eqb percent 0 then ret tt else console (LogDownloadProgress percent)) ;;
  match yt_error o with
  | None => console LogDownloadCompleted
  | Some msg =>
      console (ErrYtdlp msg) ;;
      throw (DownloadFailed msg)
  end.

(** Lines 1025-1026: the filter of [downloadedFiles]. *)
Definition is_downloaded (baseFilename f : jsstring) : bool :=
  startsWith f baseFilename &&
  negb (includes f (lit ".part")) &&
  negb (includes f (lit ".f")).

(** [fs.statSync(path.join(targetDir, a)).mtimeMs] inside the comparator:
    the names compared were listed just before, so the file is there. *)
Definition mtime_in (l : Listing) (a : jsstring) : Z :=
  match lookup l a with
  | Some e => st_mtimeMs (e_stats e)
  | None => 0%Z
  end.

(** [l.sort((a, b) => key(b) - key(a))]: [Array.prototype.sort] is
    stable, so the result is the stable arrangement by decreasing key. *)
Fixpoint insert_desc (key : jsstring -> Z) (a : jsstring) (l : list jsstring)
  : list jsstring :=
  match l with
  | [] => [a]
  | b :: l' =>
      if (key b <=? key a)%Z then a :: b :: l'
      else b :: insert_desc key a l'
  end.

Definition sort_desc (key : jsstring -> Z) (l : list jsstring) : list jsstring :=
  fold_right (insert_desc key) [] l.

(** Lines 1021-1050: the file the download left. *)
Definition locate_download (targetDir : Dir) (baseFilename : jsstring) : M Path :=
  names <- readdirSync targetDir ;;
  let downloadedFiles := filter (is_downloaded baseFilename) names in
  match downloadedFiles with
  | [] => throw (FileNotCreated baseFilename)
  | _ :: _ =>
      sortedFiles <- (fun fs =>
                        ret (sort_desc (mtime_in (listing fs targetDir))
                                       downloadedFiles) fs) ;;
      match sortedFiles with
      | [] => throw (FileNotCreated baseFilename)
      | newest :: _ =>
          let downloadedPath := path_join targetDir newest in
          console (LogDownloadedFile newest) ;;
          stats <- statSync downloadedPath ;;
          console (LogFileSize (st_size stats)) ;;
          if N.eqb (st_size stats) 0
          then throw DownloadedFileEmpty
          else ret downloadedPath
      end
  end.

(** Lines 1041 and 1052-1077. *)
Definition deliver_download (filePath : Path) (fileType : jsstring)
           (downloadedPath : Path) : M Path :=
  let ext := toLowerCase (extname (p_name downloadedPath)) in
  console (LogFFmpegAvailable (ffmpegAvailable env)) ;;
  if ffmpegAvailable env then
    try_catch
      (convert fileType downloadedPath filePath ;;
       ret filePath)
      (fun error =>
         console (ErrConversionFailedUsingOriginal error) ;;
         ret downloadedPath)
  else if Js.eqb ext (lit ".mp4") && negb (path_eqb downloadedPath filePath) then
    renameSync downloadedPath filePath ;;
    ret filePath
  else if Js.eqb ext (lit ".mp3") && negb (path_eqb downloadedPath filePath) then
    renameSync downloadedPath filePath ;;
    ret filePath
  else
    console LogFileDownloaded ;;
    ret downloadedPath.

(** Lines 971-1077: what follows the two cache checks. *)
Definition download_fresh (url : jsstring) (targetDir : Dir)
           (baseFilename fileType : jsstring) (filePath : Path) : M Path :=
  remove_partial_downloads targetDir baseFilename ;;
  acquire url targetDir baseFilename fileType ;;
  downloadedPath <- locate_download targetDir baseFilename ;;
  deliver_download filePath fileType downloadedPath.

Definition target_dir (fileType : jsstring) : Dir :=
  if Js.eqb fileType (lit "mp3") then TEMP_DIR_MP3 else TEMP_DIR_MP4.

Definition target_path (filename fileType : jsstring) : Path :=
  path_join (target_dir fileType)
            (remove_extension filename ++ lit "." ++ fileType).

Definition download_video (url filename fileType : jsstring) : M Path :=
  let baseFilename := remove_extension filename in
  let targetDir := target_dir fileType in
  let filePath := target_path filename fileType in
  cached <- check_cached_target filePath ;;
  match cached with
  | Some p => ret p
  | None =>
      names <- readdirSync targetDir ;;
      let cachedFiles := filter (is_cached_original baseFilename) names in
      original <- use_cached_original targetDir filePath fileType cachedFiles ;;
      match original with
      | Some p => ret p
      | None => download_fresh url targetDir baseFilename fileType filePath
      end
  end.

(** ** The [!ytdl3] and [!ytdl4] branches of the [message_create] handler
    (lines 1898-2042 and 2044-2192)

    The two branches are the same code up to the directory, the file
    type and the texts of the messages. *)

Inductive Command : Type := Ytdl3 | Ytdl4.

Definition command_fileType (c : Command) : jsstring :=
  match c with
  | Ytdl3 => lit "mp3"
  | Ytdl4 => lit "mp4"
  end.

Definition command_dir (c : Command) : Dir :=
  match c with
  | Ytdl3 => TEMP_DIR_MP3
  | Ytdl4 => TEMP_DIR_MP4
  end.

Definition chat_send (m : ChatMsg) : M unit :=
  emit (EvChat m) ;;
  match chat_sendMessage env m with
  | None => ret tt
  | Some msg => throw (ExternalError msg)
  end.

(** [getYouTubeVideoInfo] (lines 1080-1090). *)
Definition getYouTubeVideoInfo (url : jsstring) : M (option jsstring) :=
  emit (EvGetInfo url) ;;
  match ytdlp_getInfoAsync env url with
  | inr title => ret title
  | inl msg =>
      console (ErrGetInfo msg) ;;
      throw VideoInfoFailed
  end.

(** [videoInfo.title || "video"]: a missing or empty title is falsy. *)
Definition title_or_default (title : option jsstring) : jsstring :=
  match title with
  | None | Some [] => lit "video"
  | Some t => t
  end.

(** The [try] block (lines 2048-2165). *)
Definition ytdl_try (c : Command) (only_search : list jsstring) : M unit :=
  match only_search with
  | [] => throw TypeError
  | arg :: _ =>
      let url := trim arg in
      if Nat.eqb (length url) 0 ||
         (negb (includes url (lit "youtube.com")) &&
          negb (includes url (lit "youtu.be")))
      then chat_send MsgInvalidUrl
      else
        chat_send MsgFetchingInfo ;;
        videoInfo <- getYouTubeVideoInfo url ;;
        let videoTitle := sanitizeFilename (title_or_default videoInfo) in
        let filename := videoTitle in
        let fileType := command_fileType c in
        names <- readdirSync (command_dir c) ;;
        let cachedFiles :=
          filter (fun f => startsWith f videoTitle &&
                           endsWith f (lit "." ++ fileType) &&
                           negb (includes f (lit ".part"))) names in
        isCached <- match cachedFiles with
                    | [] => ret false
                    | f0 :: _ =>
                        stats <- statSync (path_join (command_dir c) f0) ;;
                        ret (0 <? st_size stats)%N
                    end ;;
        chat_send (if isCached : bool
                   then MsgFoundInCache (title_or_default videoInfo)
                   else MsgDownloading (title_or_default videoInfo)) ;;
        filePath <- download_video url filename fileType ;;
        console (LogDownloadComplete filePath) ;;
        stats <- statSync filePath ;;
        console (LogFileVerified (st_size stats)) ;;
        emit (EvDeliver filePath stats) ;;
        match deliver_file env filePath stats with
        | None => ret tt
        | Some e => throw e
        end
  end.

(** The [catch] block (lines 2166-2176). *)
Definition ytdl_catch (error : Error) : M unit :=
  console (ErrDownloadingSending error) ;;
  chat_send (MsgError error).

(** The [finally] block (lines 2027-2041 and 2177-2191). *)
Definition cleanup_partial_files (d : Dir) : M unit :=
  try_catch
    (files <- readdirSync d ;;
     forEach files (fun file =>
       if includes file (lit ".part") || includes file (lit ".temp") then
         let partialPath := path_join d file in
         unlinkSync partialPath ;;
         console (LogCleanedUpPartial file)
       else ret tt))
    (fun e => console (ErrCleaningPartial e)).

Definition ytdl_handler (c : Command) (only_search : list jsstring) : M unit :=
  try_finally
    (try_catch (ytdl_try c only_search) ytdl_catch)
    (cleanup_partial_files (command_dir c)).

End Pipeline.

(** ** The [resolve] operation of the specification

    [resolve(sourceUrl, rawTitle, kind)] is [download_video] on the
    sanitized title, as the handlers call it. *)

Inductive Kind : Type := VIDEO | AUDIO.

Definition kind_fileType (k : Kind) : jsstring :=
  match k with
  | VIDEO => lit "mp4"
  | AUDIO => lit "mp3"
  end.

Definition cacheDir (k : Kind) : Dir := target_dir (kind_fileType k).

Definition resolve (env : Env) (sourceUrl rawTitle : jsstring) (k : Kind) : M Path :=
  download_video env sourceUrl (sanitizeFilename rawTitle) (kind_fileType k).

(** The expected final path [P = cacheDir(kind)/title.ext(kind)]. *)
Definition canonical_path (title : jsstring) (k : Kind) : Path :=
  path_join (cacheDir k) (title ++ lit "." ++ kind_fileType k).

(** ** Notions used in the statements *)

Definition names_in (fs : FS) (d : Dir) : list jsstring :=
  map e_name (listing fs d).

(** The value of [cachedFiles] (lines 938-947) in a given file system. *)
Definition cachedFiles (fs : FS) (targetDir : Dir) (baseFilename : jsstring)
  : list jsstring :=
  filter (is_cached_original baseFilename) (names_in fs targetDir).

(** The value of [downloadedFiles] (lines 1022-1027). *)
Definition downloadedFiles (fs : FS) (targetDir : Dir) (baseFilename : jsstring)
  : list jsstring :=
  filter (is_downloaded baseFilename) (names_in fs targetDir).

(** The file system without the file at [p]. *)
Definition fs_remove (fs : FS) (p : Path) : FS :=
  set_listing fs (p_dir p) (remove_name (p_name p) (listing fs (p_dir p))).

(** The file system with a file of stats [st] at [p], new or replaced. *)
Definition fs_write (fs : FS) (p : Path) (st : Stats) : FS :=
  set_listing fs (p_dir p)
    (remove_name (p_name p) (listing fs (p_dir p)) ++ [mkEntry (p_name p) st]).

Definition is_download (ev : Event) : bool :=
  match ev with
  | EvYtdlpDownload _ _ _ => true
  | _ => false
  end.

Definition is_unlink (ev : Event) : bool :=
  match ev with
  | EvUnlink _ => true
  | _ => false
  end.

Definition is_transcode (ev : Event) : bool :=
  match ev with
  | EvFFmpeg _ => true
  | _ => false
  end.

Definition is_conversion_failure (ev : Event) : bool :=
  match ev with
  | EvConsole (ErrConversionFailed _)
  | EvConsole (ErrConversionFailedUsingOriginal _) => true
  | _ => false
  end.

Definition job_output (job : FFmpegJob) : Path :=
  match job with
  | ToMp4 _ o | ToMp3 _ o => o
  end.

(** The tools leave directories in which each name occurs once. *)
Definition env_wf (env : Env) : Prop :=
  (forall url format output fs,
      fs_wf fs -> fs_wf (snd (ytdlp_downloadAsync env url format output fs))) /\
  (forall job fs, fs_wf fs -> fs_wf (snd (spawn_ffmpeg env job fs))).

(** A file of a size above 0 is at [p]. *)
Definition valid_at (fs : FS) (p : Path) : Prop :=
  exists e, lookup_path fs p = Some e /\ (0 < st_size (e_stats e))%N.

(** An [ffmpeg] that exits with code 0 has written a file that is not
    empty at its output path. *)
Definition ffmpeg_success_writes_output (env : Env) : Prop :=
  forall job fs stderr fs',
    spawn_ffmpeg env job fs = (Closed 0 stderr, fs') ->
    exists e, lookup_path fs' (job_output job) = Some e /\
              (0 < st_size (e_stats e))%N.

Definition preserves_wf {A} (m : M A) : Prop :=
  forall fs, fs_wf fs -> fs_wf (fs_after (m fs)).






(** No file of the directory is a partial download of [baseFilename]
    in the sense of lines 975-976 (fragment or partial suffix). *)
Definition no_partial_download_left (baseFilename : jsstring) (d : Dir) (fs : FS)
  : Prop :=
  forall f, In f (names_in fs d) -> is_partial_download baseFilename f = false.



(** No event of the class [P] in the trace of [m]. *)
Definition trace_avoids {A} (P : Event -> bool) (m : M A) : Prop :=
  forall fs, existsb P (trace (m fs)) = false.

(** The file names the [finally] block of the handlers removes. *)
Definition is_finally_partial (file : jsstring) : bool :=
  includes file (lit ".part") || includes file (lit ".temp").

(** Claims in the words of the specification, where they differ from
    what the code does. *)
Module AsStated.

(** Step 3: a name that starts with the title, matches no partial-marker
    pattern and does not have the target extension of the kind. *)
Definition is_candidate (title : jsstring) (k : Kind) (f : jsstring) : bool :=
  startsWith f title &&
  negb (includes f (lit ".part")) &&
  negb (includes f (lit ".f")) &&
  negb (endsWith f (lit "." ++ kind_fileType k)).


End AsStated.

(** ** Concrete tools and file systems for the examples *)

Module Scenario.

Definition url : jsstring := lit "https://www.youtube.com/watch?v=abc".
Definition rawTitle : jsstring := lit "My Clip!!".
Definition title : jsstring := lit "My_Clip".

Definition fs_empty : FS := mkFS [] [].

(** A download that succeeds and leaves [<output><ext>]. *)
Definition ytdlp_writes (ext : jsstring) (st : Stats)
  : jsstring -> jsstring -> Path -> FS -> YtdlpOutcome * FS :=
  fun _ _ output fs =>
    (mkYtdlpOutcome [50; 100]%N None,
     fs_write fs (mkPath (p_dir output) (p_name output ++ ext)) st).

(** A download that fails and leaves [<output><ext>] behind. *)
Definition ytdlp_fails_leaving (ext : jsstring) (st : Stats)
  : jsstring -> jsstring -> Path -> FS -> YtdlpOutcome * FS :=
  fun _ _ output fs =>
    (mkYtdlpOutcome [50]%N (Some (lit "ERROR: unable to download video data")),
     fs_write fs (mkPath (p_dir output) (p_name output ++ ext)) st).

(** A conversion that succeeds and writes its output. *)
Definition ffmpeg_converts (st : Stats) : FFmpegJob -> FS -> FFmpegOutcome * FS :=
  fun job fs => (Closed 0 [], fs_write fs (job_output job) st).

(** A conversion that fails and writes nothing. *)
Definition ffmpeg_fails : FFmpegJob -> FS -> FFmpegOutcome * FS :=
  fun _ fs => (Closed 1 (lit "Conversion failed!"), fs).

Definition env_of (available : bool)
           (yt : jsstring -> jsstring -> Path -> FS -> YtdlpOutcome * FS)
           (ff : FFmpegJob -> FS -> FFmpegOutcome * FS) : Env :=
  mkEnv available yt ff
        (fun _ => inr (Some rawTitle)) (fun _ => None) (fun _ _ => None).

Definition file (n : string) (size : N) (mtimeMs : Z) : Entry :=
  mkEntry (lit n) (mkStats size mtimeMs).

(** yt-dlp writes [My_Clip.webm], ffmpeg converts it. *)
Definition env_convert : Env :=
  env_of true (ytdlp_writes (lit ".webm") (mkStats 4096 1000))
         (ffmpeg_converts (mkStats 2048 2000)).

(** No ffmpeg; yt-dlp writes [My_Clip.MP4]. *)
Definition env_no_ffmpeg : Env :=
  env_of false (ytdlp_writes (lit ".MP4") (mkStats 4096 1000)) ffmpeg_fails.

(** yt-dlp writes [My_Clip.mp4]; ffmpeg is there and fails. *)
Definition env_mp4_ffmpeg_fails : Env :=
  env_of true (ytdlp_writes (lit ".mp4") (mkStats 4096 1000)) ffmpeg_fails.

(** yt-dlp fails and leaves the fragment [My_Clip.f137.mp4]. *)
Definition env_fragment_left : Env :=
  env_of true (ytdlp_fails_leaving (lit ".f137.mp4") (mkStats 512 1000))
         ffmpeg_fails.

(** An audio directory that holds the video file [My_Clip.mp4]. *)
Definition fs_mp4_in_audio : FS := mkFS [] [file "My_Clip.mp4" 4096 1000].

(** A video directory that holds the original [My_Clip.webm]. *)
Definition fs_webm : FS := mkFS [file "My_Clip.webm" 4096 1000] [].

(** A video directory with a zero-byte [My_Clip.mp4]. *)
Definition fs_zero_byte : FS :=
  mkFS [file "Third.mp4" 900 40; file "My_Clip.mp4" 0 50] [].

(** ffmpeg is there and fails; yt-dlp writes [My_Clip.webm]. *)
Definition env_ffmpeg_fails : Env :=
  env_of true (ytdlp_writes (lit ".webm") (mkStats 4096 1000)) ffmpeg_fails.


(** A video directory with a stale partial file of this title, partial
    files of another title and a finished file of another title. *)
Definition fs_partials : FS :=
  mkFS [file "My_Clip.webm.part" 100 10;
        file "Other_Song.mp4.part" 7 20;
        file "Other_Song.temp" 7 30;
        file "Third.mp4" 900 40]
       [].

End Scenario.

(** * More of [server.js] *)

(** ** [tokenizer] (lines 1134-1145) *)

Definition space : N := 32.

(** [s.split(" ")]: the pieces between single spaces; one piece at
    least. *)
Fixpoint split_space (s : jsstring) : list jsstring :=
  match s with
  | [] => [[]]
  | c :: s' =>
      if N.eqb c space then [] :: split_space s'
      else match split_space s' with
           | w :: ws => (c :: w) :: ws
           | [] => [[c]]
           end
  end.

(** [s.replace(" ", "")]: the first space is removed. *)
Fixpoint remove_first_space (s : jsstring) : jsstring :=
  match s with
  | [] => []
  | c :: s' => if N.eqb c space then s' else c :: remove_first_space s'
  end.

Definition tokenizer (input : jsstring) : jsstring * list jsstring :=
  let search_term := split_space input in
  let command := hd [] search_term in
  let only_search :=
    map remove_first_space
        (filter (fun word => negb (Js.eqb word [] || Js.eqb word [space]))
                (tl search_term)) in
  (command, only_search).

(** [l.join(" ")] *)
Fixpoint join_space (l : list jsstring) : jsstring :=
  match l with
  | [] => []
  | [w] => w
  | w :: l' => w ++ space :: join_space l'
  end.

Definition no_space (s : jsstring) : Prop := ~ In space s.

(** ** [radiusToZoom] (lines 501-513)

    The caller passes [parseInt(remaining) || 500], an integer. *)
Definition radiusToZoom (radiusMeters : Z) : Z :=
  if (radiusMeters <=? 100)%Z then 18
  else if (radiusMeters <=? 250)%Z then 17
  else if (radiusMeters <=? 500)%Z then 16
  else if (radiusMeters <=? 1000)%Z then 15
  else if (radiusMeters <=? 2000)%Z then 14
  else if (radiusMeters <=? 5000)%Z then 13
  else if (radiusMeters <=? 10000)%Z then 12
  else if (radiusMeters <=? 20000)%Z then 11
  else if (radiusMeters <=? 50000)%Z then 10
  else 9.

(** ** The path points of [getRouteMapUrl] (lines 556-566)

    [pathPoints] before each point is printed: the coordinates taken at
    every [step]-th index, then the last one once more. *)
Section PathPoints.

Variable Coord : Type.

(** The [for] loop of lines 560-562 from index [i]; [fuel] bounds the
    number of rounds. *)
Fixpoint every_nth (coords : list Coord) (step fuel i : nat) : list Coord :=
  match fuel with
  | O => []
  | S fuel' =>
      match nth_error coords i with
      | Some c => c :: every_nth coords step fuel' (i + step)
      | None => []
      end
  end.

Definition pathPoints (coords : list Coord) : list Coord :=
  let step := Nat.max 1 (length coords / 100) in
  every_nth coords step (length coords) 0 ++
  (if 1 <? length coords
   then match nth_error coords (length coords - 1) with
        | Some c => [c]
        | None => []
        end
   else []).

End PathPoints.

(** ** [findFFmpegPath] (lines 607-639) *)

Section FFmpegSetup.

(** The list [possiblePaths] of the platform, and [fs.existsSync] on
    those paths (they lie outside the cache directories). *)
Variable possiblePaths : list jsstring.
Variable path_exists : jsstring -> bool.

Fixpoint first_existing (paths : list jsstring) : jsstring :=
  match paths with
  | [] => lit "ffmpeg"
  | p :: paths' =>
      if Js.eqb p (lit "ffmpeg") then first_existing paths'
      else if path_exists p then p
      else first_existing paths'
  end.

Definition findFFmpegPath : jsstring := first_existing possiblePaths.

End FFmpegSetup.

(** ** [sendMediaWithRetry] (lines 756-783) *)

Inductive RetryEvent : Type :=
| RvSend (attempt : nat)        (** [chat.sendMessage(media, options)] *)
| RvFailed (attempt : nat) (msg : jsstring)
| RvWait (ms : nat)             (** [setTimeout(r, ms)] *).

(** An error after which the loop gives up at once. *)
Definition session_crashed (msg : jsstring) : bool :=
  includes msg (lit "Session closed") ||
  includes msg (lit "Target closed") ||
  includes msg (lit "Protocol error").

Section SendMedia.

(** How the [attempt]-th [chat.sendMessage(media, options)] ends: it
    resolves ([None]) or rejects with an error of this message. *)
Variable send : nat -> option jsstring.

(** The loop from [attempt] on; [rounds] is the number of rounds the
    test [attempt <= maxRetries] still lets through. *)
Fixpoint send_loop (maxRetries rounds attempt : nat)
  : Result bool * list RetryEvent :=
  match rounds with
  | O => (Ok false, [])
  | S rounds' =>
      match send attempt with
      | None => (Ok true, [RvSend attempt])
      | Some msg =>
          if session_crashed msg then
            (Throw (ExternalError msg), [RvSend attempt; RvFailed attempt msg])
          else if Nat.eqb attempt maxRetries then
            (Throw (ExternalError msg), [RvSend attempt; RvFailed attempt msg])
          else
            let r := send_loop maxRetries rounds' (S attempt) in
            (fst r,
             RvSend attempt :: RvFailed attempt msg :: RvWait (2000 * attempt)
             :: snd r)
      end
  end.

Definition sendMediaWithRetry (maxRetries : nat) : Result bool * list RetryEvent :=
  send_loop maxRetries maxRetries 1.

End SendMedia.

Definition is_send (ev : RetryEvent) : bool :=
  match ev with
  | RvSend _ => true
  | _ => false
  end.

(** ** [fetchDBApi] (lines 88-135) *)

Section FetchDB.

(** The parsed JSON of a response. *)
Variable Json : Type.

(** How a [fetch] ends: it rejects (with an [AbortError] on the
    time-out, or another error), or it gives a response with a status,
    whose [json()] gives a value or rejects with a message. *)
Inductive FetchOutcome : Type :=
| FetchRejected (abort : bool) (msg : jsstring)
| FetchResponse (status : Z) (body : jsstring + Json).

Inductive DbError : Type :=
| DbFetchError (abort : bool) (msg : jsstring)
| DbStatusError (status : Z)      (** [DB API error: ${response.status}] *)
| DbUnavailable                   (** [DB API unavailable] *).

Inductive DbEvent : Type :=
| DbFetch (attempt : nat)
| DbWait (ms : nat).

(** [response.ok] *)
Definition response_ok (status : Z) : bool :=
  (200 <=? status)%Z && (status <=? 299)%Z.

Definition retry_status (status : Z) : bool :=
  Z.eqb status 503 || Z.eqb status 502 || Z.eqb status 504 || Z.eqb status 500.

Variable fetch : nat -> FetchOutcome.

(** The [catch] block: the error is kept, and there is a pause unless
    this was the last attempt. *)
Definition db_catch_wait (maxRetries attempt : nat) : list DbEvent :=
  if attempt <? maxRetries then [DbWait (attempt * 2000)] else [].

(** The loop from [attempt] on, with the value of [lastError]; [rounds]
    is the number of rounds the test [attempt <= maxRetries] still lets
    through. *)
Fixpoint db_loop (maxRetries rounds attempt : nat) (lastError : option DbError)
  : (DbError + Json) * list DbEvent :=
  match rounds with
  | O =>
      (inl (match lastError with Some e => e | None => DbUnavailable end), [])
  | S rounds' =>
      let caught (e : DbError) :=
        let r := db_loop maxRetries rounds' (S attempt) (Some e) in
        (fst r, DbFetch attempt :: db_catch_wait maxRetries attempt ++ snd r) in
      match fetch attempt with
      | FetchRejected abort msg => caught (DbFetchError abort msg)
      | FetchResponse status body =>
          if response_ok status then
            match body with
            | inr j => (inr j, [DbFetch attempt])
            | inl msg => caught (DbFetchError false msg)
            end
          else if retry_status status then
            let r := db_loop maxRetries rounds' (S attempt) lastError in
            (fst r, DbFetch attempt :: DbWait (attempt * 2000) :: snd r)
          else caught (DbStatusError status)
      end
  end.

Definition fetchDBApi (maxRetries : nat) : (DbError + Json) * list DbEvent :=
  db_loop maxRetries maxRetries 1 None.

(** The JSON an attempt gives: that of a response that is [ok] and
    whose [json()] resolves. *)
Definition fetch_json (o : FetchOutcome) : option Json :=
  match o with
  | FetchResponse status (inr j) => if response_ok status then Some j else None
  | _ => None
  end.

(** The response asks for another try (lines 113-117). *)
Definition fetch_busy (o : FetchOutcome) : bool :=
  match o with
  | FetchResponse status _ => negb (response_ok status) && retry_status status
  | FetchRejected _ _ => false
  end.

Definition is_db_fetch (ev : DbEvent) : bool :=
  match ev with
  | DbFetch _ => true
  | DbWait _ => false
  end.

Definition db_wait_ms (ev : DbEvent) : nat :=
  match ev with
  | DbFetch _ => 0
  | DbWait ms => ms
  end.

End FetchDB.

(** ** The [!cache4] / [!cache3] and [!dl4] / [!dl3] branches
    (lines 1679-1897)

    The four branches read the cache directory of their kind; [d] and
    [ext] stand for [TEMP_DIR_MP4] and [".mp4"], or [TEMP_DIR_MP3] and
    [".mp3"]. *)

(** Lines 1681-1685, 1710-1714, 1748-1752 and 1829-1833: the names with
    the extension, newest first. *)
Definition cache_listing (d : Dir) (ext : jsstring) (fs : FS) : list jsstring :=
  sort_desc (mtime_in (listing fs d))
            (filter (fun f => endsWith f ext) (names_in fs d)).

Definition hash : N := 35.

(** [s.replace("#", "")]: the first [#] is removed. *)
Fixpoint remove_first_hash (s : jsstring) : jsstring :=
  match s with
  | [] => []
  | c :: s' => if N.eqb c hash then s' else c :: remove_first_hash s'
  end.

(** The value of a code unit as a digit of the radix, if it is one. *)
Definition digit_value (radix : Z) (c : N) : option Z :=
  let v := if between 48 57 c then Some (Z.of_N c - 48)%Z
           else if between 97 122 c then Some (Z.of_N c - 87)%Z
           else if between 65 90 c then Some (Z.of_N c - 55)%Z
           else None in
  match v with
  | Some x => if (x <? radix)%Z then Some x else None
  | None => None
  end.

(** The longest prefix of digits, read in the radix; [acc] is the value
    of the digits read so far, [None] before the first digit. *)
Fixpoint parse_digits (radix : Z) (acc : option Z) (s : jsstring) : option Z :=
  match s with
  | [] => acc
  | c :: s' =>
      match digit_value radix c with
      | Some v =>
          parse_digits radix
            (Some (radix * match acc with Some a => a | None => 0 end + v)%Z) s'
      | None => acc
      end
  end.

(** [parseInt(s)] without a radix: leading white space is skipped, then
    a sign, then [0x] or [0X] selects radix 16, then the longest prefix
    of digits is read; [None] is [NaN].  The value is the integer the
    digits denote: the number JavaScript gives is that integer rounded
    to a double, which it equals below 2^53, far above the length of a
    directory listing. *)
Definition parseInt (s : jsstring) : option Z :=
  let s0 := trimStart s in
  let signed :=
    match s0 with
    | c :: r => if N.eqb c 45 then ((-1)%Z, r)
                else if N.eqb c 43 then (1%Z, r)
                else (1%Z, s0)
    | [] => (1%Z, s0)
    end in
  let prefixed :=
    match snd signed with
    | c0 :: c1 :: r =>
        if N.eqb c0 48 && (N.eqb c1 120 || N.eqb c1 88) then (16%Z, r)
        else (10%Z, snd signed)
    | _ => (10%Z, snd signed)
    end in
  option_map (Z.mul (fst signed)) (parse_digits (fst prefixed) None (snd prefixed)).

(** What [!dl4] / [!dl3] does with its argument (lines 1739-1761 and
    1820-1842). *)
Inductive DlChoice : Type :=
| DlNotANumber                  (** [Please provide a valid number] *)
| DlInvalidNumber (count : nat) (** [Invalid number ... (1-${files.length})] *)
| DlFile (file : jsstring)      (** [files[index]] is sent *).

(** [only_search[0]?.replace("#", "")] is [undefined] without an
    argument, which [parseInt] reads as the string ["undefined"]. *)
Definition dl_choice (d : Dir) (ext : jsstring) (only_search : list jsstring)
           (fs : FS) : DlChoice :=
  match parseInt (match only_search with
                  | arg :: _ => remove_first_hash arg
                  | [] => lit "undefined"
                  end) with
  | None => DlNotANumber
  | Some n =>
      let index := (n - 1)%Z in
      let files := cache_listing d ext fs in
      if (index <? 0)%Z || (Z.of_nat (length files) <=? index)%Z
      then DlInvalidNumber (length files)
      else DlFile (nth (Z.to_nat index) files [])
  end.

(** The decimal digits of a number, as a template literal prints it. *)
Fixpoint decimal_digits (fuel : nat) (n : N) : jsstring :=
  match fuel with
  | O => []
  | S fuel' =>
      if (n <? 10)%N then [(48 + n)%N]
      else decimal_digits fuel' (n / 10)%N ++ [(48 + n mod 10)%N]
  end.

Definition to_decimal (n : N) : jsstring := decimal_digits (S (N.to_nat (N.log2 n))) n.

(** The label [#${index + 1}] of a line of the list of [!cache4] /
    [!cache3] (lines 1697 and 1726). *)
Definition cache_label (index : nat) : jsstring :=
  lit "#" ++ to_decimal (N.of_nat index + 1).

(** [key] does not grow along the list. *)
Fixpoint newest_first (key : jsstring -> Z) (l : list jsstring) : Prop :=
  match l with
  | [] => True
  | a :: l' => (forall b, In b l' -> (key b <= key a)%Z) /\ newest_first key l'
  end.

(** ** Notions for the further statements *)

(** The computation leaves the listing of [d] as it is. *)
Definition keeps_listing {A} (d : Dir) (m : M A) : Prop :=
  forall fs, listing (fs_after (m fs)) d = listing fs d.

(** The tools write only in the directory of their output path: called
    with an output path in another directory, they leave the listing of
    [d] as it is. *)
Definition env_keeps (d : Dir) (env : Env) : Prop :=
  (forall url format output fs,
      p_dir output <> d ->
      listing (snd (ytdlp_downloadAsync env url format output fs)) d
      = listing fs d) /\
  (forall job fs,
      p_dir (job_output job) <> d ->
      listing (snd (spawn_ffmpeg env job fs)) d = listing fs d).

(** The errors [download_video] lets through. *)
Definition download_error (baseFilename : jsstring) (e : Error) : Prop :=
  (exists msg, e = DownloadFailed msg) \/
  e = FileNotCreated baseFilename \/
  e = DownloadedFileEmpty.

(** What [download_video] gives for the cache directory [d] and the
    base file name [b]: a path of [d] whose name starts with [b], or one
    of the three errors. *)
Definition download_outcome (d : Dir) (b : jsstring) (r : Result Path) : Prop :=
  match r with
  | Ok p => p_dir p = d /\ startsWith (p_name p) b = true
  | Throw e => download_error b e
  end.

Definition is_get_info (ev : Event) : bool :=
  match ev with
  | EvGetInfo _ => true
  | _ => false
  end.

(** The argument of the command is a YouTube URL for the test of lines
    2052-2057. *)
Definition youtube_url (arg : jsstring) : bool :=
  negb (Nat.eqb (length (trim arg)) 0) &&
  (includes (trim arg) (lit "youtube.com") ||
   includes (trim arg) (lit "youtu.be")).

(** A call of yt-dlp for a format other than [format]. *)
Definition asks_other_format (format : jsstring) (ev : Event) : bool :=
  match ev with
  | EvYtdlpDownload _ f _ => negb (Js.eqb f format)
  | _ => false
  end.

(** A name of word characters and hyphens, 100 at most: no dot, no
    slash, no backslash. *)
Definition plain_name (n : jsstring) : bool :=
  forallb (fun c => is_word c || N.eqb c hyphen) n && (length n <=? 100).

(** A call of yt-dlp whose output base is not a plain name of [d]. *)
Definition downloads_elsewhere (d : Dir) (ev : Event) : bool :=
  match ev with
  | EvYtdlpDownload _ _ o => negb (dir_eqb (p_dir o) d && plain_name (p_name o))
  | _ => false
  end.



Definition ffmpeg_job (fileType : jsstring) (i o : Path) : FFmpegJob :=
  if Js.eqb fileType (lit "mp3") then ToMp3 i o else ToMp4 i o.

(** * Properties *)

Unset Implicit Arguments.

(** ** Strings *)

Section StringFacts.

Lemma eqb_eq (s t : jsstring) : Js.eqb s t = true <-> s = t.
Proof.
  revert t; induction s as [|c s IH]; intros [|d t]; simpl;
    try (split; [discriminate | congruence]); [tauto|].
  rewrite andb_true_iff, N.eqb_eq, IH.
  split; [intros [-> ->]; reflexivity | intros H; injection H; auto].
Qed.

Lemma eqb_refl (s : jsstring) : Js.eqb s s = true.
Proof. apply eqb_eq; reflexivity. Qed.

Lemma eqb_neq (s t : jsstring) : Js.eqb s t = false <-> s <> t.
Proof.
  rewrite <- eqb_eq. destruct (Js.eqb s t); split; congruence.
Qed.

Lemma startsWith_iff (s p : jsstring) :
  startsWith s p = true <-> exists r, s = p ++ r.
Proof.
  revert s; induction p as [|c p IH]; intros s; simpl.
  - split; [exists s; reflexivity | reflexivity].
  - destruct s as [|d s].
    + split; [discriminate | intros [r H]; discriminate].
    + rewrite andb_true_iff, N.eqb_eq, IH. split.
      * intros [-> [r ->]]; exists r; reflexivity.
      * intros [r H]; injection H as -> ->; split; [reflexivity | exists r; reflexivity].
Qed.

Lemma includes_iff (s p : jsstring) :
  includes s p = true <-> exists a b, s = a ++ p ++ b.
Proof.
  induction s as [|d s IH].
  - simpl. rewrite orb_false_r, startsWith_iff. split.
    + intros [r H]; exists [], r; exact H.
    + intros [[|x a] [b H]]; [exists b; exact H | discriminate].
  - cbn [includes]. rewrite orb_true_iff, IH, startsWith_iff. split.
    + intros [[r H]|[a [b H]]].
      * exists [], r; exact H.
      * exists (d :: a), b; rewrite H; reflexivity.
    + intros [[|x a] [b H]].
      * left; exists b; exact H.
      * right; injection H as _ H; exists a, b; exact H.
Qed.

Lemma endsWith_iff (s p : jsstring) :
  endsWith s p = true <-> exists a, s = a ++ p.
Proof.
  unfold endsWith. rewrite startsWith_iff. split.
  - intros [r H]. exists (rev r).
    rewrite <- (rev_involutive s), H, rev_app_distr, rev_involutive; reflexivity.
  - intros [a ->]. exists (rev a). apply rev_app_distr.
Qed.

End StringFacts.

(** ** [sanitizeFilename] *)

Section Sanitize.

Import SanitizeSpec.

Lemma replace_class_filter (keep : N -> bool) (s : jsstring) :
  replace_class_g (fun c => negb (keep c)) [] s = filter keep s.
Proof.
  unfold replace_class_g.
  induction s as [|c s IH]; simpl; [reflexivity|].
  destruct (keep c); simpl; rewrite IH; reflexivity.
Qed.

Lemma drop_spaces_length (s : jsstring) : length (drop_spaces s) <= length s.
Proof.
  induction s as [|c s IH]; simpl; [lia|].
  destruct (is_space c); simpl; lia.
Qed.

(** Inside a run, the matcher goes on to the end of the run. *)
Lemma replace_runs_in_run (repl s : jsstring) :
  replace_runs_from is_space repl true s =
  replace_runs_from is_space repl false (drop_spaces s).
Proof.
  induction s as [|c s IH]; simpl; [reflexivity|].
  destruct (is_space c) eqn:E; simpl.
  - exact IH.
  - rewrite E; reflexivity.
Qed.

Lemma collapse_fuel_runs (n : nat) (s : jsstring) :
  length s <= n ->
  collapse_fuel n s = replace_runs_g is_space [underscore] s.
Proof.
  unfold replace_runs_g.
  revert s; induction n as [|n IH]; intros [|c s] H; simpl in *;
    try reflexivity; try lia.
  destruct (is_space c).
  - simpl. rewrite replace_runs_in_run. f_equal. apply IH.
    pose proof (drop_spaces_length s); lia.
  - f_equal. apply IH; lia.
Qed.

Lemma replace_runs_no_space (b : bool) (s : jsstring) :
  Forall (fun c => is_word c || is_space c || N.eqb c hyphen = true) s ->
  Forall (fun c => is_word c || N.eqb c hyphen = true)
         (replace_runs_from is_space [underscore] b s).
Proof.
  intros H; revert b; induction H as [|c s Hc _ IH]; intros b; simpl;
    [constructor|].
  destruct (is_space c) eqn:E.
  - destruct b; simpl; [apply IH|].
    constructor; [reflexivity | apply IH].
  - constructor; [|apply IH].
    rewrite orb_false_r in Hc. exact Hc.
Qed.

Lemma Forall_firstn_keep {A} (P : A -> Prop) (n : nat) (l : list A) :
  Forall P l -> Forall P (firstn n l).
Proof.
  intros H; revert n; induction H as [|x l Hx _ IH]; intros [|n]; simpl;
    constructor; auto.
Qed.

Lemma sanitizeFilename_chars (s : jsstring) :
  Forall (fun c => is_word c || N.eqb c hyphen = true) (sanitizeFilename s).
Proof.
  unfold sanitizeFilename, substring0. apply Forall_firstn_keep.
  apply replace_runs_no_space.
  rewrite (replace_class_filter
             (fun c => is_word c || is_space c || N.eqb c hyphen)).
  apply Forall_forall. intros c Hc. apply filter_In in Hc. tauto.
Qed.

(** C9. For every input string, [sanitizeFilename] is: strip every
    character outside word / space / hyphen, then collapse each
    whitespace run to one underscore, then truncate to 100 characters,
    in that order; the result has at most 100 characters, all of them
    word characters or hyphens. *)
Theorem sanitizeFilename_strip_collapse_truncate (s : jsstring) :
  sanitizeFilename s = truncate (collapse (strip s)) /\
  length (sanitizeFilename s) <= 100 /\
  Forall (fun c => is_word c || N.eqb c hyphen = true) (sanitizeFilename s).
Proof.
  assert (E : sanitizeFilename s = truncate (collapse (strip s))).
  { unfold sanitizeFilename, truncate, collapse, substring0, strip.
    rewrite collapse_fuel_runs by lia.
    rewrite (replace_class_filter
               (fun c => is_word c || is_space c || N.eqb c hyphen)).
    reflexivity. }
  split; [exact E|]. split.
  - rewrite E. unfold truncate. rewrite length_firstn. lia.
  - apply sanitizeFilename_chars.
Qed.

(** The scenario of the specification: ["My Clip!!"] becomes
    ["My_Clip"]. *)
Example sanitize_My_Clip :
  sanitizeFilename (lit "My Clip!!") = lit "My_Clip".
Proof. reflexivity. Qed.

(** A sanitized title has no dot, so [download_video] keeps it whole as
    [baseFilename]. *)
Lemma remove_extension_no_dot (s : jsstring) :
  Forall (fun c => N.eqb c dot = false) s -> remove_extension s = s.
Proof.
  induction 1 as [|c s Hc _ IH]; simpl; [reflexivity|].
  rewrite Hc; simpl. rewrite IH; reflexivity.
Qed.

Lemma word_or_hyphen_not_dot (c : N) :
  is_word c || N.eqb c hyphen = true -> N.eqb c dot = false.
Proof.
  unfold is_word, between, hyphen, dot. intros H.
  apply N.eqb_neq. intros ->. vm_compute in H. discriminate.
Qed.

Lemma remove_extension_sanitize (s : jsstring) :
  remove_extension (sanitizeFilename s) = sanitizeFilename s.
Proof.
  apply remove_extension_no_dot.
  eapply Forall_impl; [|apply sanitizeFilename_chars].
  apply word_or_hyphen_not_dot.
Qed.

End Sanitize.

(** ** Directories *)

Section FsFacts.

Lemma listing_set_same (fs : FS) (d : Dir) (l : Listing) :
  listing (set_listing fs d l) d = l.
Proof. destruct d; reflexivity. Qed.

Lemma listing_set_other (fs : FS) (d d' : Dir) (l : Listing) :
  d <> d' -> listing (set_listing fs d l) d' = listing fs d'.
Proof. destruct d, d'; intros H; try reflexivity; contradiction. Qed.

Lemma set_listing_same (fs : FS) (d : Dir) :
  set_listing fs d (listing fs d) = fs.
Proof. destruct fs, d; reflexivity. Qed.

Lemma lookup_None (l : Listing) (n : jsstring) :
  lookup l n = None <-> ~ In n (map e_name l).
Proof.
  unfold lookup. induction l as [|e l IH]; simpl; [tauto|].
  destruct (Js.eqb (e_name e) n) eqn:E.
  - apply eqb_eq in E. split; [discriminate | intros H; exfalso; auto].
  - apply eqb_neq in E. rewrite IH. tauto.
Qed.

Lemma lookup_wf (l : Listing) (e : Entry) :
  listing_wf l -> In e l -> lookup l (e_name e) = Some e.
Proof.
  unfold listing_wf, lookup.
  induction l as [|x l IH]; simpl; intros Hwf Hin; [contradiction|].
  inversion Hwf as [|? ? Hx Hl]; subst.
  destruct Hin as [->|Hin]; [rewrite eqb_refl; reflexivity|].
  destruct (Js.eqb (e_name x) (e_name e)) eqn:E; [|auto].
  apply eqb_eq in E. exfalso. apply Hx. rewrite E. apply in_map. exact Hin.
Qed.

Lemma remove_name_names (n : jsstring) (l : Listing) (x : jsstring) :
  In x (map e_name (remove_name n l)) <-> In x (map e_name l) /\ x <> n.
Proof.
  unfold remove_name. rewrite !in_map_iff. split.
  - intros (e & <- & He). apply filter_In in He. destruct He as [He Hn].
    apply negb_true_iff, eqb_neq in Hn. split; [exists e; auto | exact Hn].
  - intros ((e & <- & He) & Hn). exists e. split; [reflexivity|].
    apply filter_In. split; [exact He|]. apply negb_true_iff, eqb_neq. exact Hn.
Qed.

Lemma lookup_remove_same (n : jsstring) (l : Listing) :
  lookup (remove_name n l) n = None.
Proof. apply lookup_None. rewrite remove_name_names. tauto. Qed.

Lemma remove_name_absent (n : jsstring) (l : Listing) :
  lookup l n = None -> remove_name n l = l.
Proof.
  rewrite lookup_None. unfold remove_name.
  induction l as [|e l IH]; simpl; intros H; [reflexivity|].
  destruct (Js.eqb (e_name e) n) eqn:E.
  - apply eqb_eq in E. exfalso; auto.
  - simpl. f_equal. apply IH. tauto.
Qed.

Lemma remove_name_wf (n : jsstring) (l : Listing) :
  listing_wf l -> listing_wf (remove_name n l).
Proof.
  unfold listing_wf, remove_name.
  induction l as [|e l IH]; simpl; intros H; [constructor|].
  inversion H as [|? ? Hx Hl]; subst.
  destruct (Js.eqb (e_name e) n); simpl; [auto|].
  constructor; [|auto].
  intros Hin. apply Hx. apply (remove_name_names n l (e_name e)) in Hin. tauto.
Qed.

(** In a well-formed directory, removing a name removes one entry. *)
Lemma remove_name_middle (a b : Listing) (e : Entry) :
  listing_wf (a ++ e :: b) -> remove_name (e_name e) (a ++ e :: b) = a ++ b.
Proof.
  unfold listing_wf, remove_name. intros H.
  rewrite map_app in H; simpl in H.
  pose proof (NoDup_remove_2 _ _ _ H) as Hnot.
  rewrite filter_app; simpl. rewrite eqb_refl; simpl.
  assert (K : forall l, ~ In (e_name e) (map e_name l) ->
                        filter (fun x => negb (Js.eqb (e_name x) (e_name e))) l = l).
  { induction l as [|x l IHl]; simpl; intros Hx; [reflexivity|].
    destruct (Js.eqb (e_name x) (e_name e)) eqn:E.
    - apply eqb_eq in E. exfalso; auto.
    - simpl. f_equal. apply IHl. tauto. }
  rewrite !K; [reflexivity| |]; intros Hin; apply Hnot, in_or_app; auto.
Qed.

Lemma append_entry_wf (l : Listing) (n : jsstring) (st : Stats) :
  listing_wf l -> lookup l n = None -> listing_wf (l ++ [mkEntry n st]).
Proof.
  unfold listing_wf. rewrite lookup_None, map_app. simpl. intros Hl Hn.
  apply NoDup_app; [exact Hl | repeat constructor; simpl; tauto |].
  intros x Hx [<-|[]]. auto.
Qed.

Lemma set_listing_wf (fs : FS) (d : Dir) (l : Listing) :
  fs_wf fs -> listing_wf l -> fs_wf (set_listing fs d l).
Proof. unfold fs_wf. destruct d; simpl; tauto. Qed.

Lemma listing_of_wf (fs : FS) (d : Dir) : fs_wf fs -> listing_wf (listing fs d).
Proof. unfold fs_wf. destruct d; simpl; tauto. Qed.

Lemma fs_remove_wf (fs : FS) (p : Path) : fs_wf fs -> fs_wf (fs_remove fs p).
Proof.
  intros H. apply set_listing_wf; [exact H|].
  apply remove_name_wf, listing_of_wf, H.
Qed.

Lemma fs_write_wf (fs : FS) (p : Path) (st : Stats) :
  fs_wf fs -> fs_wf (fs_write fs p st).
Proof.
  intros H. apply set_listing_wf; [exact H|].
  apply append_entry_wf; [|apply lookup_remove_same].
  apply remove_name_wf, listing_of_wf, H.
Qed.

Lemma lookup_fs_remove_same (fs : FS) (p : Path) :
  lookup_path (fs_remove fs p) p = None.
Proof.
  unfold lookup_path, fs_remove. rewrite listing_set_same.
  apply lookup_remove_same.
Qed.

Lemma fs_remove_absent (fs : FS) (p : Path) :
  lookup_path fs p = None -> fs_remove fs p = fs.
Proof.
  unfold lookup_path, fs_remove. intros H.
  rewrite remove_name_absent by exact H. apply set_listing_same.
Qed.

Lemma lookup_append_new (l : Listing) (n : jsstring) (st : Stats) :
  lookup l n = None -> lookup (l ++ [mkEntry n st]) n = Some (mkEntry n st).
Proof.
  unfold lookup. induction l as [|e l IH]; simpl.
  - rewrite eqb_refl; reflexivity.
  - destruct (Js.eqb (e_name e) n); [discriminate | exact IH].
Qed.

Lemma lookup_fs_write_same (fs : FS) (p : Path) (st : Stats) :
  lookup_path (fs_write fs p st) p = Some (mkEntry (p_name p) st).
Proof.
  unfold lookup_path, fs_write. rewrite listing_set_same.
  apply lookup_append_new, lookup_remove_same.
Qed.

End FsFacts.

(** ** Each step keeps the directories well formed *)

Section WellFormed.

Variable env : Env.
Hypothesis Henv : env_wf env.

Lemma ret_wf {A} (a : A) : preserves_wf (ret a).
Proof. intros fs H; exact H. Qed.

Lemma throw_wf {A} (e : Error) : preserves_wf (@throw A e).
Proof. intros fs H; exact H. Qed.

Lemma emit_wf (ev : Event) : preserves_wf (emit ev).
Proof. intros fs H; exact H. Qed.

Lemma console_wf (m : Console) : preserves_wf (console m).
Proof. intros fs H; exact H. Qed.

Lemma bind_wf {A B} (m : M A) (k : A -> M B) :
  preserves_wf m -> (forall a, preserves_wf (k a)) -> preserves_wf (bind m k).
Proof.
  intros Hm Hk fs H. unfold bind. specialize (Hm fs H).
  destruct (result (m fs)) as [a|e]; simpl; [apply Hk; exact Hm | exact Hm].
Qed.

Lemma try_catch_wf {A} (m : M A) (h : Error -> M A) :
  preserves_wf m -> (forall e, preserves_wf (h e)) -> preserves_wf (try_catch m h).
Proof.
  intros Hm Hh fs H. unfold try_catch. specialize (Hm fs H).
  destruct (result (m fs)) as [a|e]; simpl; [exact Hm | apply Hh; exact Hm].
Qed.

Lemma try_finally_wf {A} (m : M A) (c : M unit) :
  preserves_wf m -> preserves_wf c -> preserves_wf (try_finally m c).
Proof. intros Hm Hc fs H. unfold try_finally; simpl. apply Hc, Hm, H. Qed.

Lemma forEach_wf {A} (l : list A) (f : A -> M unit) :
  (forall a, preserves_wf (f a)) -> preserves_wf (forEach l f).
Proof.
  intros Hf. induction l as [|x l IH]; simpl; [apply ret_wf|].
  apply bind_wf; [apply Hf | intros _; exact IH].
Qed.

Lemma existsSync_wf (p : Path) : preserves_wf (existsSync p).
Proof. intros fs H; exact H. Qed.

Lemma readdirSync_wf (d : Dir) : preserves_wf (readdirSync d).
Proof. intros fs H; exact H. Qed.

Lemma statSync_wf (p : Path) : preserves_wf (statSync p).
Proof.
  intros fs H. unfold statSync. destruct (lookup_path fs p); exact H.
Qed.

Lemma unlinkSync_wf (p : Path) : preserves_wf (unlinkSync p).
Proof.
  intros fs H. unfold unlinkSync.
  destruct (lookup_path fs p); simpl; [apply (fs_remove_wf fs p H) | exact H].
Qed.

Lemma renameSync_wf (src dst : Path) : preserves_wf (renameSync src dst).
Proof.
  intros fs H. unfold renameSync.
  destruct (lookup_path fs src) as [e|]; simpl; [|exact H].
  apply (fs_write_wf _ dst (e_stats e) (fs_remove_wf fs src H)).
Qed.

Lemma run_ffmpeg_wf (job : FFmpegJob) : preserves_wf (run_ffmpeg env job).
Proof. intros fs H. unfold run_ffmpeg; simpl. apply Henv, H. Qed.

Lemma run_ytdlp_wf (url format : jsstring) (output : Path) :
  preserves_wf (run_ytdlp env url format output).
Proof. intros fs H. unfold run_ytdlp; simpl. apply Henv, H. Qed.

(** One step of a proof that a piece of the pipeline keeps the
    directories well formed: peel a [bind], a handler or a branch. *)
Ltac wf_step :=
  first
    [ apply ret_wf | apply throw_wf | apply emit_wf | apply console_wf
    | apply existsSync_wf | apply readdirSync_wf | apply statSync_wf
    | apply unlinkSync_wf | apply renameSync_wf
    | apply run_ffmpeg_wf | apply run_ytdlp_wf
    | apply bind_wf; [|intros ?]
    | apply try_catch_wf; [|intros ?]
    | apply forEach_wf; intros ?
    | match goal with
      | |- preserves_wf (if ?b then _ else _) => destruct b
      | |- preserves_wf (match ?x with _ => _ end) => destruct x
      | |- preserves_wf (fun fs => ret _ fs) => intros ? ?; assumption
      end ].

Lemma convert_wf (fileType : jsstring) (i o : Path) :
  preserves_wf (convert env fileType i o).
Proof.
  unfold convert, convertToMp3, convertToMp4, convert_with.
  repeat wf_step.
Qed.

Lemma check_cached_target_wf (filePath : Path) :
  preserves_wf (check_cached_target filePath).
Proof. unfold check_cached_target. repeat wf_step. Qed.

Lemma use_cached_original_wf (d : Dir) (filePath : Path)
      (fileType : jsstring) (l : list jsstring) :
  preserves_wf (use_cached_original env d filePath fileType l).
Proof.
  unfold use_cached_original.
  repeat first [apply convert_wf | wf_step].
Qed.

Lemma remove_partial_downloads_wf (d : Dir) (b : jsstring) :
  preserves_wf (remove_partial_downloads d b).
Proof. unfold remove_partial_downloads. repeat wf_step. Qed.

Lemma acquire_wf (url : jsstring) (d : Dir) (b fileType : jsstring) :
  preserves_wf (acquire env url d b fileType).
Proof. unfold acquire. repeat wf_step. Qed.

Lemma locate_download_wf (d : Dir) (b : jsstring) :
  preserves_wf (locate_download d b).
Proof. unfold locate_download. repeat wf_step. Qed.

Lemma deliver_download_wf (filePath : Path) (fileType : jsstring) (p : Path) :
  preserves_wf (deliver_download env filePath fileType p).
Proof.
  unfold deliver_download.
  repeat first [apply convert_wf | wf_step].
Qed.

Lemma download_fresh_wf (url : jsstring) (d : Dir) (b fileType : jsstring)
      (filePath : Path) :
  preserves_wf (download_fresh env url d b fileType filePath).
Proof.
  unfold download_fresh.
  repeat first [ apply remove_partial_downloads_wf | apply acquire_wf
               | apply locate_download_wf | apply deliver_download_wf
               | wf_step ].
Qed.

Lemma download_video_wf (url filename fileType : jsstring) :
  preserves_wf (download_video env url filename fileType).
Proof.
  unfold download_video.
  repeat first [ apply check_cached_target_wf | apply use_cached_original_wf
               | apply download_fresh_wf | wf_step ].
Qed.

Lemma chat_send_wf (m : ChatMsg) : preserves_wf (chat_send env m).
Proof. unfold chat_send. repeat wf_step. Qed.

Lemma ytdl_try_wf (c : Command) (only_search : list jsstring) :
  preserves_wf (ytdl_try env c only_search).
Proof.
  unfold ytdl_try, getYouTubeVideoInfo.
  repeat first [ apply chat_send_wf | apply download_video_wf | wf_step ].
Qed.

Lemma ytdl_catch_wf (e : Error) : preserves_wf (ytdl_catch env e).
Proof. unfold ytdl_catch. repeat first [apply chat_send_wf | wf_step]. Qed.

Lemma ytdl_attempt_wf (c : Command) (only_search : list jsstring) :
  preserves_wf (try_catch (ytdl_try env c only_search) (ytdl_catch env)).
Proof. apply try_catch_wf; [apply ytdl_try_wf | apply ytdl_catch_wf]. Qed.

End WellFormed.


(** ** How the file-system calls run *)

Section Runs.

Lemma statSync_present (fs : FS) (p : Path) (e : Entry) :
  lookup_path fs p = Some e -> statSync p fs = mkOut (Ok (e_stats e)) fs [].
Proof. intros H. unfold statSync. rewrite H. reflexivity. Qed.

Lemma unlinkSync_present (fs : FS) (p : Path) (e : Entry) :
  lookup_path fs p = Some e ->
  unlinkSync p fs = mkOut (Ok tt) (fs_remove fs p) [EvUnlink p].
Proof. intros H. unfold unlinkSync. rewrite H. reflexivity. Qed.

Lemma set_listing_twice (fs : FS) (d : Dir) (l l' : Listing) :
  set_listing (set_listing fs d l) d l' = set_listing fs d l'.
Proof. destruct d; reflexivity. Qed.

Lemma filter_remove_name (f : Entry -> bool) (n : jsstring) (l : Listing) :
  filter f (remove_name n l) =
  filter (fun e => negb (Js.eqb (e_name e) n) && f e) l.
Proof.
  unfold remove_name. induction l as [|e l IH]; simpl; [reflexivity|].
  destruct (Js.eqb (e_name e) n); simpl; [exact IH|].
  destruct (f e); rewrite IH; reflexivity.
Qed.

Lemma result_bind {A B} (m : M A) (k : A -> M B) (fs : FS) :
  result (bind m k fs) =
  match result (m fs) with
  | Ok a => result (k a (fs_after (m fs)))
  | Throw e => Throw e
  end.
Proof. unfold bind. destruct (result (m fs)); reflexivity. Qed.

Lemma fs_after_bind {A B} (m : M A) (k : A -> M B) (fs : FS) :
  fs_after (bind m k fs) =
  match result (m fs) with
  | Ok a => fs_after (k a (fs_after (m fs)))
  | Throw e => fs_after (m fs)
  end.
Proof. unfold bind. destruct (result (m fs)); reflexivity. Qed.

Lemma trace_bind {A B} (m : M A) (k : A -> M B) (fs : FS) :
  trace (bind m k fs) =
  match result (m fs) with
  | Ok a => trace (m fs) ++ trace (k a (fs_after (m fs)))
  | Throw e => trace (m fs)
  end.
Proof. unfold bind. destruct (result (m fs)); reflexivity. Qed.

Lemma bind_after_ok {A B} (m : M A) (k : A -> M B) (fs : FS) (a : A) :
  result (m fs) = Ok a ->
  result (bind m k fs) = result (k a (fs_after (m fs))) /\
  fs_after (bind m k fs) = fs_after (k a (fs_after (m fs))) /\
  trace (bind m k fs) = trace (m fs) ++ trace (k a (fs_after (m fs))).
Proof.
  intros H. rewrite result_bind, fs_after_bind, trace_bind, H.
  split; [reflexivity|]. split; reflexivity.
Qed.

Lemma bind_after_throw {A B} (m : M A) (k : A -> M B) (fs : FS) (e : Error) :
  result (m fs) = Throw e ->
  result (bind m k fs) = Throw e /\
  fs_after (bind m k fs) = fs_after (m fs) /\
  trace (bind m k fs) = trace (m fs).
Proof.
  intros H. rewrite result_bind, fs_after_bind, trace_bind, H.
  split; [reflexivity|]. split; reflexivity.
Qed.

Lemma forEach_cons_run {A} (x : A) (l : list A) (f : A -> M unit) (fs : FS) :
  result (f x fs) = Ok tt ->
  result (forEach (x :: l) f fs) = result (forEach l f (fs_after (f x fs))) /\
  fs_after (forEach (x :: l) f fs) = fs_after (forEach l f (fs_after (f x fs))) /\
  trace (forEach (x :: l) f fs) =
    trace (f x fs) ++ trace (forEach l f (fs_after (f x fs))).
Proof.
  intros H. cbn [forEach].
  rewrite result_bind, fs_after_bind, trace_bind, H. auto.
Qed.

Lemma try_catch_ok {A} (m : M A) (h : Error -> M A) (fs : FS) (a : A) :
  result (m fs) = Ok a -> try_catch m h fs = m fs.
Proof. intros H. unfold try_catch. rewrite H. reflexivity. Qed.

(** The loop of the [finally] block on a well-formed directory: [kept]
    has been gone through, [todo] is still to go. *)
Lemma finally_loop (d : Dir) (todo kept : Listing) (fs : FS) :
  listing fs d = kept ++ todo ->
  listing_wf (kept ++ todo) ->
  let o := forEach (map e_name todo)
             (fun file =>
                if includes file (lit ".part") || includes file (lit ".temp")
                then unlinkSync (path_join d file) ;;
                     console (LogCleanedUpPartial file)
                else ret tt) fs in
  result o = Ok tt /\
  fs_after o =
    set_listing fs d
      (kept ++ filter (fun e => negb (is_finally_partial (e_name e))) todo).
Proof.
  revert kept fs. induction todo as [|e todo IH]; intros kept fs Hl Hwf.
  - simpl. split; [reflexivity|].
    rewrite <- Hl. symmetry. apply set_listing_same.
  - cbn [map forEach filter]. cbv zeta.
    change (includes (e_name e) (lit ".part") || includes (e_name e) (lit ".temp"))
      with (is_finally_partial (e_name e)).
    destruct (is_finally_partial (e_name e)) eqn:E; cbn [negb].
    + assert (Hlook : lookup_path fs (path_join d (e_name e)) = Some e).
      { unfold lookup_path; simpl. rewrite Hl. apply lookup_wf; [exact Hwf|].
        apply in_or_app; right; left; reflexivity. }
      assert (Hfs1 : fs_remove fs (path_join d (e_name e)) =
                     set_listing fs d (kept ++ todo)).
      { unfold fs_remove; simpl. rewrite Hl, remove_name_middle by exact Hwf.
        reflexivity. }
      assert (Hwf' : listing_wf (kept ++ todo)).
      { unfold listing_wf in *. rewrite map_app in *. simpl in Hwf.
        apply NoDup_remove_1 in Hwf. exact Hwf. }
      destruct (IH kept (set_listing fs d (kept ++ todo))
                   (listing_set_same _ _ _) Hwf') as [R F].
      cbv zeta in R, F.
      rewrite !result_bind, !fs_after_bind, !result_bind.
      rewrite (unlinkSync_present _ _ _ Hlook). simpl.
      rewrite Hfs1, R, F. split; [reflexivity | apply set_listing_twice].
    + assert (Hl' : listing fs d = (kept ++ [e]) ++ todo)
        by (rewrite <- app_assoc; exact Hl).
      assert (Hwf' : listing_wf ((kept ++ [e]) ++ todo))
        by (rewrite <- app_assoc; exact Hwf).
      destruct (IH (kept ++ [e]) fs Hl' Hwf') as [R F].
      cbv zeta in R, F.
      rewrite !result_bind, !fs_after_bind. simpl.
      rewrite R, F, <- app_assoc. split; reflexivity.
Qed.

(** The [finally] block on a well-formed directory: it does not throw
    and leaves exactly the files whose name contains neither [".part"]
    nor [".temp"]. *)
Lemma cleanup_partial_files_run (d : Dir) (fs : FS) :
  listing_wf (listing fs d) ->
  let o := cleanup_partial_files d fs in
  result o = Ok tt /\
  fs_after o =
    set_listing fs d
      (filter (fun e => negb (is_finally_partial (e_name e))) (listing fs d)).
Proof.
  intros Hwf.
  destruct (finally_loop d (listing fs d) [] fs eq_refl Hwf) as [R F].
  cbv zeta in R, F. unfold cleanup_partial_files.
  rewrite try_catch_ok with (a := tt).
  - rewrite result_bind, fs_after_bind. simpl. rewrite R. split; [reflexivity | exact F].
  - rewrite result_bind. simpl. exact R.
Qed.

End Runs.

(** ** The concrete tools keep directories well formed *)

Section ScenarioFacts.

Import Scenario.

Lemma env_of_wf (available : bool)
      (yt : jsstring -> jsstring -> Path -> FS -> YtdlpOutcome * FS)
      (ff : FFmpegJob -> FS -> FFmpegOutcome * FS) :
  (forall u f o fs, fs_wf fs -> fs_wf (snd (yt u f o fs))) ->
  (forall j fs, fs_wf fs -> fs_wf (snd (ff j fs))) ->
  env_wf (env_of available yt ff).
Proof. intros Hy Hf. split; simpl; assumption. Qed.

Lemma ytdlp_writes_wf (ext : jsstring) (st : Stats) u f o fs :
  fs_wf fs -> fs_wf (snd (ytdlp_writes ext st u f o fs)).
Proof. intros H. simpl. apply fs_write_wf, H. Qed.

Lemma ytdlp_fails_leaving_wf (ext : jsstring) (st : Stats) u f o fs :
  fs_wf fs -> fs_wf (snd (ytdlp_fails_leaving ext st u f o fs)).
Proof. intros H. simpl. apply fs_write_wf, H. Qed.

Lemma ffmpeg_converts_wf (st : Stats) j fs :
  fs_wf fs -> fs_wf (snd (ffmpeg_converts st j fs)).
Proof. intros H. simpl. apply fs_write_wf, H. Qed.

Lemma ffmpeg_fails_wf j fs : fs_wf fs -> fs_wf (snd (ffmpeg_fails j fs)).
Proof. intros H. exact H. Qed.

Lemma env_convert_wf : env_wf env_convert.
Proof.
  apply env_of_wf; [apply ytdlp_writes_wf | apply ffmpeg_converts_wf].
Qed.

Lemma env_fragment_left_wf : env_wf env_fragment_left.
Proof.
  apply env_of_wf; [apply ytdlp_fails_leaving_wf | apply ffmpeg_fails_wf].
Qed.


Lemma fs_partials_wf : fs_wf fs_partials.
Proof.
  split; [|constructor].
  unfold listing_wf. simpl.
  repeat (constructor; [simpl; intuition discriminate|]). constructor.
Qed.

End ScenarioFacts.


(** ** The clean-up before the download (lines 971-983) *)

Section PartialDownloads.

Lemma guarded_unlink_run (p : Path) (fs : FS) :
  let o := (ex <- existsSync p ;;
            if ex : bool then unlinkSync p else ret tt) fs in
  result o = Ok tt /\ fs_after o = fs_remove fs p /\
  Forall (fun ev => is_unlink ev = true) (trace o).
Proof.
  cbv zeta. rewrite result_bind, fs_after_bind, trace_bind.
  unfold existsSync, unlinkSync. simpl.
  destruct (lookup_path fs p) as [e|] eqn:E; simpl; rewrite ?E; simpl.
  - split; [reflexivity|]. split; [reflexivity|]. repeat constructor.
  - split; [reflexivity|]. split; [|constructor].
    symmetry. apply fs_remove_absent, E.
Qed.

Lemma remove_partial_loop (d : Dir) (ns : list jsstring) (fs : FS) :
  let o := forEach ns
             (fun f =>
                ex <- existsSync (path_join d f) ;;
                if ex : bool then unlinkSync (path_join d f) else ret tt) fs in
  result o = Ok tt /\
  fs_after o =
    set_listing fs d
      (filter (fun e => negb (existsb (Js.eqb (e_name e)) ns)) (listing fs d)) /\
  Forall (fun ev => is_unlink ev = true) (trace o).
Proof.
  revert fs. induction ns as [|n ns IH]; intros fs; cbv zeta.
  - simpl. split; [reflexivity|]. split; [|constructor].
    rewrite <- (set_listing_same fs d) at 1. f_equal.
    induction (listing fs d) as [|e l IHl]; simpl; [reflexivity|].
    f_equal; exact IHl.
  - destruct (guarded_unlink_run (path_join d n) fs) as (R & F & T).
    cbv zeta in R, F, T.
    match goal with
    | |- context [forEach (n :: ns) ?f fs] =>
        destruct (forEach_cons_run n ns f fs R) as (-> & -> & ->)
    end.
    cbv beta. rewrite F.
    destruct (IH (fs_remove fs (path_join d n))) as (R' & F' & T').
    cbv zeta in R', F', T'.
    split; [exact R'|]. split.
    + rewrite F'. unfold fs_remove; simpl.
      rewrite set_listing_twice, listing_set_same, filter_remove_name.
      f_equal. apply filter_ext. intros e.
      rewrite negb_orb. reflexivity.
    + apply Forall_app; split; assumption.
Qed.

Lemma existsb_eqb_filter (f : jsstring -> bool) (names : list jsstring)
      (n : jsstring) :
  In n names -> existsb (Js.eqb n) (filter f names) = f n.
Proof.
  intros Hin. destruct (f n) eqn:E.
  - apply existsb_exists. exists n. split; [|apply eqb_refl].
    apply filter_In; auto.
  - destruct (existsb (Js.eqb n) (filter f names)) eqn:X; [|reflexivity].
    apply existsb_exists in X. destruct X as (x & Hx & Heq).
    apply eqb_eq in Heq; subst x. apply filter_In in Hx. destruct Hx; congruence.
Qed.

(** Lines 971-983 never throw, and leave exactly the files that are not
    partial downloads of [baseFilename]. *)
Lemma remove_partial_downloads_run (d : Dir) (b : jsstring) (fs : FS) :
  let o := remove_partial_downloads d b fs in
  result o = Ok tt /\
  fs_after o =
    set_listing fs d
      (filter (fun e => negb (is_partial_download b (e_name e))) (listing fs d)) /\
  Forall (fun ev => is_unlink ev = true) (trace o).
Proof.
  cbv zeta. unfold remove_partial_downloads.
  rewrite result_bind, fs_after_bind, trace_bind. simpl.
  destruct (remove_partial_loop d
              (filter (is_partial_download b) (map e_name (listing fs d))) fs)
    as (R & F & T).
  cbv zeta in R, F, T.
  split; [exact R|]. split; [|exact T].
  rewrite F. f_equal. apply filter_ext_in. intros e He.
  rewrite existsb_eqb_filter; [reflexivity|]. apply in_map, He.
Qed.

Lemma remove_partial_downloads_none_left (d : Dir) (b : jsstring) (fs : FS) :
  no_partial_download_left b d (fs_after (remove_partial_downloads d b fs)).
Proof.
  destruct (remove_partial_downloads_run d b fs) as (_ & F & _).
  cbv zeta in F. rewrite F. intros f Hin.
  unfold names_in in Hin. rewrite listing_set_same in Hin.
  apply in_map_iff in Hin. destruct Hin as (e & <- & He).
  apply filter_In in He. destruct He as [_ He].
  apply negb_true_iff in He. exact He.
Qed.

End PartialDownloads.

(** ** The [finally] block of the handlers *)

Section Finally.

Lemma handler_cleanup (env : Env) (c : Command) (only_search : list jsstring)
      (fs : FS) :
  env_wf env -> fs_wf fs ->
  let attempt := try_catch (ytdl_try env c only_search) (ytdl_catch env) fs in
  let o := ytdl_handler env c only_search fs in
  result o = result attempt /\
  fs_after o =
    set_listing (fs_after attempt) (command_dir c)
      (filter (fun e => negb (is_finally_partial (e_name e)))
              (listing (fs_after attempt) (command_dir c))).
Proof.
  intros Henv Hfs. cbv zeta.
  pose proof (ytdl_attempt_wf env Henv c only_search fs Hfs) as Hmid.
  destruct (cleanup_partial_files_run (command_dir c) _
              (listing_of_wf _ (command_dir c) Hmid)) as [R F].
  cbv zeta in R, F.
  unfold ytdl_handler, try_finally. simpl. rewrite R. split; [reflexivity | exact F].
Qed.

(** C10. For every [!ytdl3] / [!ytdl4] request, the [finally] block runs
    on the directories the [try] / [catch] left and deletes from the
    kind's cache directory every file whose name contains [".part"] or
    [".temp"], whatever its title, and no other file; the other
    directory is left as it is. *)
Theorem finally_deletes_part_and_temp (env : Env) (c : Command)
        (only_search : list jsstring) (fs : FS) :
  env_wf env -> fs_wf fs ->
  let attempt := try_catch (ytdl_try env c only_search) (ytdl_catch env) fs in
  let o := ytdl_handler env c only_search fs in
  fs_after o = fs_after (cleanup_partial_files (command_dir c) (fs_after attempt)) /\
  listing (fs_after o) (command_dir c) =
    filter (fun e => negb (includes (e_name e) (lit ".part") ||
                           includes (e_name e) (lit ".temp")))
           (listing (fs_after attempt) (command_dir c)) /\
  (forall d, d <> command_dir c ->
             listing (fs_after o) d = listing (fs_after attempt) d).
Proof.
  intros Henv Hfs. cbv zeta.
  destruct (handler_cleanup env c only_search fs Henv Hfs) as [_ F]. cbv zeta in F.
  split; [reflexivity|]. rewrite F. split.
  - apply listing_set_same.
  - intros d Hd. apply listing_set_other. congruence.
Qed.

Lemma finally_deletes_part_and_temp_witness :
  env_wf Scenario.env_convert /\ fs_wf Scenario.fs_partials /\
  names_in (fs_after (ytdl_handler Scenario.env_convert Ytdl4 [Scenario.url]
                                   Scenario.fs_partials)) TEMP_DIR_MP4
  = [lit "Third.mp4"; lit "My_Clip.webm"; lit "My_Clip.mp4"].
Proof.
  split; [exact env_convert_wf|]. split; [exact fs_partials_wf|].
  destruct (finally_deletes_part_and_temp Scenario.env_convert Ytdl4
              [Scenario.url] Scenario.fs_partials
              env_convert_wf fs_partials_wf) as (_ & H & _).
  unfold names_in. cbv zeta in H.
  change (command_dir Ytdl4) with TEMP_DIR_MP4 in H.
  rewrite H. reflexivity.
Defined.

(** C5, as the code has it. For every request, whether the [try] block
    succeeded or threw, the [finally] block runs after it, does not
    throw, and leaves in the kind's cache directory no file whose name
    contains [".part"] or [".temp"] -- so no partial-suffix file with the
    title prefix.  Fragment files ([".f"]) are removed only by the
    clean-up before the download, after which no partial download of the
    title (fragment or partial suffix) is in the directory. *)
Theorem cleanup_phase_always_runs (env : Env) (c : Command)
        (only_search : list jsstring) (fs : FS) :
  env_wf env -> fs_wf fs ->
  let attempt := try_catch (ytdl_try env c only_search) (ytdl_catch env) fs in
  let o := ytdl_handler env c only_search fs in
  fs_after o = fs_after (cleanup_partial_files (command_dir c) (fs_after attempt)) /\
  result o = result attempt /\
  (forall f, In f (names_in (fs_after o) (command_dir c)) ->
             includes f (lit ".part") = false /\
             includes f (lit ".temp") = false) /\
  (forall d baseFilename fs0,
      no_partial_download_left baseFilename d
        (fs_after (remove_partial_downloads d baseFilename fs0))).
Proof.
  intros Henv Hfs. cbv zeta.
  destruct (handler_cleanup env c only_search fs Henv Hfs) as [R F]. cbv zeta in R, F.
  split; [reflexivity|]. split; [exact R|]. split.
  - intros f Hin. rewrite F in Hin. unfold names_in in Hin.
    rewrite listing_set_same in Hin.
    apply in_map_iff in Hin. destruct Hin as (e & <- & He).
    apply filter_In in He. destruct He as [_ He].
    apply negb_true_iff in He. unfold is_finally_partial in He.
    apply orb_false_iff in He. exact He.
  - intros d b fs0. apply remove_partial_downloads_none_left.
Qed.

Lemma cleanup_phase_always_runs_witness :
  env_wf Scenario.env_fragment_left /\ fs_wf Scenario.fs_partials /\
  result (ytdl_handler Scenario.env_fragment_left Ytdl4 [Scenario.url]
                       Scenario.fs_partials) = Ok tt /\
  names_in (fs_after (ytdl_handler Scenario.env_fragment_left Ytdl4
                                   [Scenario.url] Scenario.fs_partials))
           TEMP_DIR_MP4
  = [lit "Third.mp4"; lit "My_Clip.f137.mp4"].
Proof.
  split; [exact env_fragment_left_wf|]. split; [exact fs_partials_wf|].
  destruct (cleanup_phase_always_runs Scenario.env_fragment_left Ytdl4
              [Scenario.url] Scenario.fs_partials
              env_fragment_left_wf fs_partials_wf) as (H & R & _).
  cbv zeta in H, R. rewrite H, R. split; reflexivity.
Defined.

(** C5 as stated fails: the download of [My_Clip] fails and leaves the
    fragment [My_Clip.f137.mp4]; the request ends, the [finally] block
    has run, and the fragment, a partial download of the title, is still
    in the video directory. *)
Lemma fragment_survives_cleanup :
  let o := ytdl_handler Scenario.env_fragment_left Ytdl4 [Scenario.url]
                        Scenario.fs_empty in
  In (EvConsole (ErrDownloadingSending
                   (DownloadFailed (lit "ERROR: unable to download video data"))))
     (trace o) /\
  In (lit "My_Clip.f137.mp4") (names_in (fs_after o) TEMP_DIR_MP4) /\
  is_partial_download Scenario.title (lit "My_Clip.f137.mp4") = true.
Proof.
  cbv zeta. split; [|split].
  - vm_compute. tauto.
  - vm_compute. tauto.
  - reflexivity.
Qed.

End Finally.

(** ** The scan for a cached original (lines 937-947) *)

Section CachedOriginal.

(** [download_video], step by step: the scan of step 3 reads the
    directory that step 2 left. *)
Lemma download_video_steps (env : Env) (url filename fileType : jsstring) (fs : FS) :
  download_video env url filename fileType fs =
  bind (check_cached_target (target_path filename fileType))
       (fun cached =>
          match cached with
          | Some p => ret p
          | None =>
              fun fs1 =>
                bind (use_cached_original env (target_dir fileType)
                        (target_path filename fileType) fileType
                        (cachedFiles fs1 (target_dir fileType)
                                     (remove_extension filename)))
                     (fun original =>
                        match original with
                        | Some p => ret p
                        | None =>
                            download_fresh env url (target_dir fileType)
                              (remove_extension filename) fileType
                              (target_path filename fileType)
                        end) fs1
          end) fs.
Proof. reflexivity. Qed.

(** C4, as the code has it. The candidates of step 3 are exactly the
    files of the kind's cache directory whose name starts with the
    title, contains neither [".part"] nor [".f"], and ends with neither
    [".mp4"] nor [".mp3"], whatever the kind; step 3 works on the first
    of them. *)
Theorem cached_original_candidates (k : Kind) (rawTitle : jsstring) :
  let title := sanitizeFilename rawTitle in
  (forall env sourceUrl fs,
      resolve env sourceUrl rawTitle k fs =
      bind (check_cached_target (canonical_path title k))
           (fun cached =>
              match cached with
              | Some p => ret p
              | None =>
                  fun fs1 =>
                    bind (use_cached_original env (cacheDir k)
                            (canonical_path title k) (kind_fileType k)
                            (cachedFiles fs1 (cacheDir k) title))
                         (fun original =>
                            match original with
                            | Some p => ret p
                            | None =>
                                download_fresh env sourceUrl (cacheDir k) title
                                  (kind_fileType k) (canonical_path title k)
                            end) fs1
              end) fs) /\
  (forall fs f,
      In f (cachedFiles fs (cacheDir k) title) <->
      In f (names_in fs (cacheDir k)) /\
      (exists r, f = title ++ r) /\
      ~ (exists a b, f = a ++ lit ".part" ++ b) /\
      ~ (exists a b, f = a ++ lit ".f" ++ b) /\
      ~ (exists a, f = a ++ lit ".mp4") /\
      ~ (exists a, f = a ++ lit ".mp3")).
Proof.
  cbv zeta. split.
  - intros env sourceUrl fs. unfold resolve, canonical_path, cacheDir.
    rewrite download_video_steps. unfold target_path.
    rewrite remove_extension_sanitize. reflexivity.
  - intros fs f. unfold cachedFiles. rewrite filter_In.
    unfold is_cached_original.
    rewrite !andb_true_iff, !negb_true_iff.
    rewrite <- startsWith_iff, <- !includes_iff, <- !endsWith_iff.
    rewrite <- !not_true_iff_false. tauto.
Qed.

(** C4 as stated fails: for the audio kind the name [My_Clip.mp4] starts
    with the title, matches no partial-marker pattern and does not have
    the target extension [.mp3]; it is in the audio directory, and the
    scan of the code does not keep it, so the call downloads again. *)
Lemma mp4_in_audio_directory_not_candidate :
  AsStated.is_candidate Scenario.title AUDIO (lit "My_Clip.mp4") = true /\
  In (lit "My_Clip.mp4") (names_in Scenario.fs_mp4_in_audio (cacheDir AUDIO)) /\
  cachedFiles Scenario.fs_mp4_in_audio (cacheDir AUDIO) Scenario.title = [] /\
  existsb is_download
    (trace (resolve Scenario.env_convert Scenario.url Scenario.rawTitle AUDIO
                    Scenario.fs_mp4_in_audio)) = true.
Proof.
  split; [reflexivity|]. split; [left; reflexivity|]. split; reflexivity.
Qed.

End CachedOriginal.

(** ** The file the download left (lines 1021-1050) *)

Section Locate.

(** The first name of the sorted list carries a largest key. *)
Lemma sort_desc_head (key : jsstring -> Z) (l : list jsstring) :
  match sort_desc key l with
  | [] => l = []
  | x :: _ => In x l /\ forall y, In y l -> (key y <= key x)%Z
  end.
Proof.
  induction l as [|a l IH]; simpl; [reflexivity|].
  destruct (sort_desc key l) as [|x r]; simpl.
  - subst l. split; [left; reflexivity|].
    intros y [<-|[]]. lia.
  - destruct IH as [Hx Hmax].
    destruct (key x <=? key a)%Z eqn:E.
    + apply Z.leb_le in E. split; [left; reflexivity|].
      intros y [<-|Hy]; [lia|]. specialize (Hmax y Hy). lia.
    + apply Z.leb_gt in E. split; [right; exact Hx|].
      intros y [<-|Hy]; [lia | apply Hmax, Hy].
Qed.


Lemma locate_download_eq (d : Dir) (b : jsstring) (fs : FS) :
  locate_download d b fs =
  match downloadedFiles fs d b with
  | [] => mkOut (Throw (FileNotCreated b)) fs []
  | _ :: _ =>
      match sort_desc (mtime_in (listing fs d)) (downloadedFiles fs d b) with
      | [] => mkOut (Throw (FileNotCreated b)) fs []
      | newest :: _ =>
          match lookup_path fs (path_join d newest) with
          | None =>
              mkOut (Throw (ENOENT (path_join d newest))) fs
                    [EvConsole (LogDownloadedFile newest)]
          | Some e =>
              mkOut (if N.eqb (st_size (e_stats e)) 0
                     then Throw DownloadedFileEmpty
                     else Ok (path_join d newest))
                    fs
                    [EvConsole (LogDownloadedFile newest);
                     EvConsole (LogFileSize (st_size (e_stats e)))]
          end
      end
  end.
Proof.
  unfold locate_download, downloadedFiles, names_in, bind, readdirSync.
  cbn -[sort_desc filter].
  destruct (filter (is_downloaded b) (map e_name (listing fs d))) as [|x r];
    [reflexivity|]. cbn -[sort_desc].
  destruct (sort_desc (mtime_in (listing fs d)) (x :: r)) as [|newest r'];
    [reflexivity|]. cbn.
  unfold statSync.
  destruct (lookup_path fs (path_join d newest)) as [e|]; simpl; [|reflexivity].
  destruct (N.eqb (st_size (e_stats e)) 0); reflexivity.
Qed.


(** Among two candidates the newer one is located; at equal times the
    first in directory order. *)
Example locate_newer :
  result (locate_download TEMP_DIR_MP4 Scenario.title
            (mkFS [Scenario.file "My_Clip_trailer.mkv" 300 500;
                   Scenario.file "My_Clip.webm" 4096 1000] []))
  = Ok (path_join TEMP_DIR_MP4 (lit "My_Clip.webm")).
Proof. reflexivity. Qed.

Example locate_tie_first :
  result (locate_download TEMP_DIR_MP4 Scenario.title
            (mkFS [Scenario.file "My_Clip_trailer.mkv" 300 1000;
                   Scenario.file "My_Clip.webm" 4096 1000] []))
  = Ok (path_join TEMP_DIR_MP4 (lit "My_Clip_trailer.mkv")).
Proof. reflexivity. Qed.

End Locate.

(** ** What the steps leave in the trace *)

Section Traces.


Lemma bind_assoc {A B C} (m : M A) (k : A -> M B) (h : B -> M C) (fs : FS) :
  bind (bind m k) h fs = bind m (fun a => bind (k a) h) fs.
Proof.
  unfold bind. destruct (result (m fs)) as [a|e]; simpl; [|reflexivity].
  destruct (result (k a (fs_after (m fs)))) as [b|e]; simpl; [|reflexivity].
  rewrite app_assoc. reflexivity.
Qed.

Variable P : Event -> bool.

Lemma avoids_ret {A} (a : A) : trace_avoids P (ret a).
Proof. intros fs; reflexivity. Qed.

Lemma avoids_throw {A} (e : Error) : trace_avoids P (@throw A e).
Proof. intros fs; reflexivity. Qed.

Lemma avoids_emit (ev : Event) : P ev = false -> trace_avoids P (emit ev).
Proof. intros H fs; simpl. rewrite H. reflexivity. Qed.

Lemma avoids_console (m : Console) :
  P (EvConsole m) = false -> trace_avoids P (console m).
Proof. apply avoids_emit. Qed.

Lemma avoids_bind {A B} (m : M A) (k : A -> M B) :
  trace_avoids P m -> (forall a, trace_avoids P (k a)) -> trace_avoids P (bind m k).
Proof.
  intros Hm Hk fs. rewrite trace_bind.
  destruct (result (m fs)); [|apply Hm].
  rewrite existsb_app, Hm, Hk. reflexivity.
Qed.

Lemma avoids_try_catch {A} (m : M A) (h : Error -> M A) :
  trace_avoids P m -> (forall e, trace_avoids P (h e)) ->
  trace_avoids P (try_catch m h).
Proof.
  intros Hm Hh fs. unfold try_catch.
  destruct (result (m fs)); [apply Hm|]. simpl.
  rewrite existsb_app, Hm, Hh. reflexivity.
Qed.

Lemma avoids_forEach {A} (l : list A) (f : A -> M unit) :
  (forall a, trace_avoids P (f a)) -> trace_avoids P (forEach l f).
Proof.
  intros Hf. induction l as [|x l IH]; simpl; [apply avoids_ret|].
  apply avoids_bind; [apply Hf | intros _; exact IH].
Qed.

Lemma avoids_existsSync (p : Path) : trace_avoids P (existsSync p).
Proof. intros fs; reflexivity. Qed.

Lemma avoids_readdirSync (d : Dir) : trace_avoids P (readdirSync d).
Proof. intros fs; reflexivity. Qed.

Lemma avoids_statSync (p : Path) : trace_avoids P (statSync p).
Proof. intros fs. unfold statSync. destruct (lookup_path fs p); reflexivity. Qed.

Lemma avoids_unlinkSync (p : Path) :
  P (EvUnlink p) = false -> trace_avoids P (unlinkSync p).
Proof.
  intros H fs. unfold unlinkSync.
  destruct (lookup_path fs p); simpl; [rewrite H|]; reflexivity.
Qed.

Lemma avoids_renameSync (src dst : Path) :
  P (EvRename src dst) = false -> trace_avoids P (renameSync src dst).
Proof.
  intros H fs. unfold renameSync.
  destruct (lookup_path fs src); simpl; [rewrite H|]; reflexivity.
Qed.

Lemma avoids_run_ffmpeg (env : Env) (job : FFmpegJob) :
  P (EvFFmpeg job) = false -> trace_avoids P (run_ffmpeg env job).
Proof. intros H fs; simpl. rewrite H. reflexivity. Qed.

Lemma avoids_run_ytdlp (env : Env) (url format : jsstring) (output : Path) :
  P (EvYtdlpDownload url format output) = false ->
  trace_avoids P (run_ytdlp env url format output).
Proof. intros H fs; simpl. rewrite H. reflexivity. Qed.

End Traces.

(** One step of a proof that a class of events is absent from a trace. *)
Ltac avoid_step :=
  first
    [ apply avoids_ret | apply avoids_throw
    | apply avoids_console; reflexivity | apply avoids_emit; reflexivity
    | apply avoids_existsSync | apply avoids_readdirSync | apply avoids_statSync
    | apply avoids_unlinkSync; reflexivity
    | apply avoids_renameSync; reflexivity
    | apply avoids_run_ffmpeg; reflexivity
    | apply avoids_run_ytdlp; reflexivity
    | apply avoids_bind; [|intros ?]
    | apply avoids_try_catch; [|intros ?]
    | apply avoids_forEach; intros ?
    | match goal with
      | |- trace_avoids _ (if ?b then _ else _) => destruct b
      | |- trace_avoids _ (match ?x with _ => _ end) => destruct x
      | |- trace_avoids _ (fun fs => ret _ fs) => intros ?; reflexivity
      end ].

Section TracesOfSteps.

Variable env : Env.

Lemma convert_no_download (fileType : jsstring) (i o : Path) :
  trace_avoids is_download (convert env fileType i o).
Proof.
  unfold convert, convertToMp3, convertToMp4, convert_with. repeat avoid_step.
Qed.

Lemma check_cached_target_no_download (filePath : Path) :
  trace_avoids is_download (check_cached_target filePath).
Proof. unfold check_cached_target. repeat avoid_step. Qed.

Lemma use_cached_original_no_download (d : Dir) (filePath : Path)
      (fileType : jsstring) (l : list jsstring) :
  trace_avoids is_download (use_cached_original env d filePath fileType l).
Proof.
  unfold use_cached_original.
  repeat first [apply convert_no_download | avoid_step].
Qed.

Lemma remove_partial_downloads_no_transcode (d : Dir) (b : jsstring) :
  trace_avoids is_transcode (remove_partial_downloads d b).
Proof. unfold remove_partial_downloads. repeat avoid_step. Qed.

Lemma acquire_no_transcode (url : jsstring) (d : Dir) (b fileType : jsstring) :
  trace_avoids is_transcode (acquire env url d b fileType).
Proof. unfold acquire. repeat avoid_step. Qed.

Lemma locate_download_no_transcode (d : Dir) (b : jsstring) :
  trace_avoids is_transcode (locate_download d b).
Proof. unfold locate_download. repeat avoid_step. Qed.

Lemma deliver_download_no_transcode (filePath : Path) (fileType : jsstring)
      (p : Path) :
  ffmpegAvailable env = false ->
  trace_avoids is_transcode (deliver_download env filePath fileType p).
Proof.
  intros H. unfold deliver_download. rewrite H. repeat avoid_step.
Qed.

Lemma download_fresh_no_transcode (url : jsstring) (d : Dir)
      (b fileType : jsstring) (filePath : Path) :
  ffmpegAvailable env = false ->
  trace_avoids is_transcode (download_fresh env url d b fileType filePath).
Proof.
  intros H. unfold download_fresh.
  repeat first [ apply remove_partial_downloads_no_transcode
               | apply acquire_no_transcode
               | apply locate_download_no_transcode
               | apply deliver_download_no_transcode; exact H
               | avoid_step ].
Qed.

(** The download starts with its two log lines and the call of yt-dlp
    on the trimmed URL. *)
Lemma acquire_trace (url : jsstring) (d : Dir) (b fileType : jsstring) (fs : FS) :
  exists rest,
    trace (acquire env url d b fileType fs) =
    EvConsole (LogStartingDownload b)
    :: EvConsole (LogUsingFormat (ffmpegAvailable env))
    :: EvYtdlpDownload (trim url)
         (if ffmpegAvailable env then format_option fileType
          else lit "b[height<=?720]")
         (path_join d b)
    :: rest.
Proof.
  unfold acquire. rewrite trace_bind. simpl.
  eexists. reflexivity.
Qed.

End TracesOfSteps.

(** ** After the download *)

Section AfterDownload.

(** [download_fresh] after its first two steps have come through. *)
Lemma download_fresh_after_acquire (env : Env) (url : jsstring) (d : Dir)
      (b fileType : jsstring) (filePath : Path) (fs0 : FS) :
  let acquired := (remove_partial_downloads d b ;;
                   acquire env url d b fileType) fs0 in
  let rest := (downloadedPath <- locate_download d b ;;
               deliver_download env filePath fileType downloadedPath)
                (fs_after acquired) in
  result acquired = Ok tt ->
  result (download_fresh env url d b fileType filePath fs0) = result rest /\
  fs_after (download_fresh env url d b fileType filePath fs0) = fs_after rest /\
  trace (download_fresh env url d b fileType filePath fs0) =
    trace acquired ++ trace rest.
Proof.
  cbv zeta. intros H. unfold download_fresh.
  rewrite <- (bind_assoc (remove_partial_downloads d b)
                         (fun _ => acquire env url d b fileType)).
  exact (bind_after_ok _ _ fs0 tt H).
Qed.



End AfterDownload.

(** ** The converted file in the cache (lines 926-935) *)

Section CachedTarget.

Lemma check_cached_target_run (filePath : Path) (fs : FS) :
  check_cached_target filePath fs =
  match lookup_path fs filePath with
  | Some e =>
      if (0 <? st_size (e_stats e))%N
      then mkOut (Ok (Some filePath)) fs
                 [EvConsole (LogFoundCachedTarget filePath);
                  EvConsole (LogCacheSize (st_size (e_stats e)))]
      else mkOut (Ok None) (fs_remove fs filePath) [EvUnlink filePath]
  | None => mkOut (Ok None) fs []
  end.
Proof.
  unfold check_cached_target, bind, existsSync, statSync, unlinkSync. simpl.
  destruct (lookup_path fs filePath) as [e|] eqn:E; simpl; rewrite ?E; simpl;
    [|reflexivity].
  destruct (0 <? st_size (e_stats e))%N; simpl; rewrite ?E; reflexivity.
Qed.

(** When the converted file is not a cache hit, step 2 leaves the
    directory without it. *)
Lemma check_cached_target_miss (filePath : Path) (fs : FS) :
  (forall e, lookup_path fs filePath = Some e -> st_size (e_stats e) = 0%N) ->
  result (check_cached_target filePath fs) = Ok None /\
  fs_after (check_cached_target filePath fs) = fs_remove fs filePath.
Proof.
  intros H. rewrite check_cached_target_run.
  destruct (lookup_path fs filePath) as [e|] eqn:E.
  - rewrite (H e eq_refl). simpl. split; reflexivity.
  - simpl. split; [reflexivity|]. symmetry. apply fs_remove_absent, E.
Qed.

(** C6. When the expected final path exists as a zero-byte file and the
    scan of step 3 finds no cached original, the call deletes the file
    and goes on to a fresh download: its outcome is that of
    [download_fresh] on the directory without the file, and yt-dlp is
    called. *)
Theorem zero_byte_target_deleted_then_download (env : Env)
        (url filename fileType : jsstring) (fs : FS) (e : Entry) :
  let P := target_path filename fileType in
  let d := target_dir fileType in
  let b := remove_extension filename in
  let o := download_video env url filename fileType fs in
  let fresh := download_fresh env url d b fileType P (fs_remove fs P) in
  lookup_path fs P = Some e ->
  st_size (e_stats e) = 0%N ->
  cachedFiles (fs_remove fs P) d b = [] ->
  lookup_path (fs_remove fs P) P = None /\
  result o = result fresh /\
  fs_after o = fs_after fresh /\
  trace o = EvUnlink P :: trace fresh /\
  In (EvYtdlpDownload (trim url)
        (if ffmpegAvailable env then format_option fileType
         else lit "b[height<=?720]")
        (path_join d b))
     (trace fresh).
Proof.
  cbv zeta. intros Hlook Hsize Hnone.
  split; [apply lookup_fs_remove_same|].
  assert (Ho : download_video env url filename fileType fs =
               mkOut (result (download_fresh env url (target_dir fileType)
                                (remove_extension filename) fileType
                                (target_path filename fileType)
                                (fs_remove fs (target_path filename fileType))))
                     (fs_after (download_fresh env url (target_dir fileType)
                                (remove_extension filename) fileType
                                (target_path filename fileType)
                                (fs_remove fs (target_path filename fileType))))
                     (EvUnlink (target_path filename fileType)
                      :: trace (download_fresh env url (target_dir fileType)
                                (remove_extension filename) fileType
                                (target_path filename fileType)
                                (fs_remove fs (target_path filename fileType))))).
  { rewrite download_video_steps.
    unfold bind at 1. rewrite check_cached_target_run, Hlook, Hsize. simpl.
    rewrite Hnone. reflexivity. }
  rewrite Ho. simpl.
  split; [reflexivity|]. split; [reflexivity|]. split; [reflexivity|].
  unfold download_fresh.
  destruct (remove_partial_downloads_run (target_dir fileType)
              (remove_extension filename)
              (fs_remove fs (target_path filename fileType))) as (R & _ & _).
  cbv zeta in R.
  destruct (bind_after_ok (remove_partial_downloads (target_dir fileType)
                             (remove_extension filename))
              (fun _ =>
                 acquire env url (target_dir fileType)
                         (remove_extension filename) fileType ;;
                 downloadedPath <- locate_download (target_dir fileType)
                                     (remove_extension filename) ;;
                 deliver_download env (target_path filename fileType) fileType
                                  downloadedPath)
              _ tt R) as (_ & _ & ->).
  apply in_or_app. right.
  rewrite trace_bind.
  destruct (acquire_trace env url (target_dir fileType)
              (remove_extension filename) fileType
              (fs_after (remove_partial_downloads (target_dir fileType)
                           (remove_extension filename)
                           (fs_remove fs (target_path filename fileType)))))
    as [rest Hrest].
  rewrite Hrest.
  match goal with
  | |- In _ (match ?r with Ok _ => _ | Throw _ => _ end) => destruct r
  end; [apply in_or_app; left|]; right; right; left; reflexivity.
Qed.

Lemma zero_byte_target_deleted_then_download_witness :
  let P := path_join TEMP_DIR_MP4 (lit "My_Clip.mp4") in
  let o := resolve Scenario.env_convert Scenario.url Scenario.rawTitle VIDEO
                   Scenario.fs_zero_byte in
  lookup_path Scenario.fs_zero_byte P = Some (Scenario.file "My_Clip.mp4" 0 50) /\
  trace o =
    EvUnlink P
    :: trace (download_fresh Scenario.env_convert Scenario.url TEMP_DIR_MP4
                (lit "My_Clip") (lit "mp4") P (fs_remove Scenario.fs_zero_byte P)) /\
  result o = Ok P /\
  names_in (fs_after o) TEMP_DIR_MP4
  = [lit "Third.mp4"; lit "My_Clip.webm"; lit "My_Clip.mp4"].
Proof.
  cbv zeta. split; [reflexivity|].
  destruct (zero_byte_target_deleted_then_download Scenario.env_convert
              Scenario.url (sanitizeFilename Scenario.rawTitle) (lit "mp4")
              Scenario.fs_zero_byte (Scenario.file "My_Clip.mp4" 0 50)
              eq_refl eq_refl eq_refl) as (_ & _ & _ & Ht & _).
  split; [exact Ht|]. split; reflexivity.
Defined.

End CachedTarget.

(** ** A cached original whose conversion fails (lines 949-969) *)

Section Fallback.

Lemma try_catch_throw {A} (m : M A) (h : Error -> M A) (fs : FS) (e : Error) :
  result (m fs) = Throw e ->
  try_catch m h fs =
  mkOut (result (h e (fs_after (m fs)))) (fs_after (h e (fs_after (m fs))))
        (trace (m fs) ++ trace (h e (fs_after (m fs)))).
Proof. intros H. unfold try_catch. rewrite H. reflexivity. Qed.

Lemma use_cached_original_fallback (env : Env) (d : Dir) (filePath : Path)
      (fileType f0 : jsstring) (rest : list jsstring) (fs : FS)
      (e : Entry) (err : Error) :
  lookup_path fs (path_join d f0) = Some e ->
  (0 < st_size (e_stats e))%N ->
  ffmpegAvailable env = true ->
  result (convert env fileType (path_join d f0) filePath fs) = Throw err ->
  use_cached_original env d filePath fileType (f0 :: rest) fs =
  mkOut (Ok (Some (path_join d f0)))
        (fs_after (convert env fileType (path_join d f0) filePath fs))
        (EvConsole (LogFoundCachedOriginal (path_join d f0))
         :: trace (convert env fileType (path_join d f0) filePath fs)
         ++ [EvConsole (ErrConversionFailed err)]).
Proof.
  intros Hlook Hsize Hav Hconv.
  unfold use_cached_original.
  unfold bind at 1. rewrite (statSync_present _ _ _ Hlook). simpl.
  apply N.ltb_lt in Hsize. rewrite Hsize, Hav.
  unfold bind at 1. simpl.
  destruct (bind_after_throw (convert env fileType (path_join d f0) filePath)
              (fun _ => ret (Some filePath)) fs err Hconv) as (Hr & Hf & Ht).
  rewrite (try_catch_throw _ _ _ err Hr). simpl. rewrite Hf, Ht. reflexivity.
Qed.

(** C3, as the code has it. When the expected final path is no cache hit, the scan of step
    3 finds first an original of a size above 0, ffmpeg is available and
    the conversion of that original fails, the call returns the path of
    the original, logs [Conversion failed:] with the error, and does not
    download. *)
Theorem conversion_failure_returns_original (env : Env)
        (url filename fileType : jsstring) (fs : FS)
        (f0 : jsstring) (rest : list jsstring) (e : Entry) (err : Error) :
  let P := target_path filename fileType in
  let d := target_dir fileType in
  let b := remove_extension filename in
  let o := download_video env url filename fileType fs in
  (forall e0, lookup_path fs P = Some e0 -> st_size (e_stats e0) = 0%N) ->
  cachedFiles (fs_remove fs P) d b = f0 :: rest ->
  lookup_path (fs_remove fs P) (path_join d f0) = Some e ->
  (0 < st_size (e_stats e))%N ->
  ffmpegAvailable env = true ->
  result (convert env fileType (path_join d f0) P (fs_remove fs P)) = Throw err ->
  result o = Ok (path_join d f0) /\
  In (EvConsole (ErrConversionFailed err)) (trace o) /\
  existsb is_download (trace o) = false.
Proof.
  cbv zeta. intros Hmiss Hscan Hlook Hsize Hav Hconv.
  rewrite download_video_steps.
  destruct (check_cached_target_miss _ _ Hmiss) as [Rc Fc].
  match goal with
  | |- context [bind ?m ?k fs] =>
      destruct (bind_after_ok m k fs None Rc) as (-> & _ & ->)
  end.
  rewrite Fc, Hscan.
  pose proof (use_cached_original_fallback env (target_dir fileType)
                (target_path filename fileType) fileType f0 rest _ e err
                Hlook Hsize Hav Hconv) as Hu.
  pose proof (use_cached_original_no_download env (target_dir fileType)
                (target_path filename fileType) fileType (f0 :: rest)
                (fs_remove fs (target_path filename fileType))) as Hnd.
  assert (Ru : result (use_cached_original env (target_dir fileType)
                         (target_path filename fileType) fileType (f0 :: rest)
                         (fs_remove fs (target_path filename fileType)))
               = Ok (Some (path_join (target_dir fileType) f0)))
    by (rewrite Hu; reflexivity).
  assert (Tu : In (EvConsole (ErrConversionFailed err))
                  (trace (use_cached_original env (target_dir fileType)
                            (target_path filename fileType) fileType (f0 :: rest)
                            (fs_remove fs (target_path filename fileType))))).
  { rewrite Hu. simpl. right. apply in_or_app. right. left. reflexivity. }
  match goal with
  | |- context [bind ?m ?k (fs_remove fs ?p)] =>
      destruct (bind_after_ok m k (fs_remove fs p) _ Ru) as (-> & _ & ->)
  end.
  split; [reflexivity|]. split.
  - apply in_or_app. right. apply in_or_app. left. exact Tu.
  - rewrite !existsb_app, check_cached_target_no_download, Hnd. reflexivity.
Qed.

Lemma conversion_failure_returns_original_witness :
  let o := resolve Scenario.env_ffmpeg_fails Scenario.url Scenario.rawTitle
                   VIDEO Scenario.fs_webm in
  result o = Ok (path_join TEMP_DIR_MP4 (lit "My_Clip.webm")) /\
  In (EvConsole
        (ErrConversionFailed (FFmpegExited 1 (lit "Conversion failed!"))))
     (trace o) /\
  existsb is_download (trace o) = false.
Proof.
  assert (Hmiss : forall e0,
             lookup_path Scenario.fs_webm
               (target_path (sanitizeFilename Scenario.rawTitle) (lit "mp4"))
             = Some e0 -> st_size (e_stats e0) = 0%N)
    by (intros e0 H; discriminate H).
  assert (Hsize : (0 < st_size (e_stats (Scenario.file "My_Clip.webm" 4096 1000)))%N)
    by reflexivity.
  exact (conversion_failure_returns_original Scenario.env_ffmpeg_fails
           Scenario.url (sanitizeFilename Scenario.rawTitle) (lit "mp4")
           Scenario.fs_webm (lit "My_Clip.webm") []
           (Scenario.file "My_Clip.webm" 4096 1000)
           (FFmpegExited 1 (lit "Conversion failed!"))
           Hmiss eq_refl eq_refl Hsize eq_refl eq_refl).
Defined.

(** The claim as stated fails for a valid file of a non-target extension
    that the scan of step 3 does not take.  The audio directory holds
    [My_Clip.mp4]; ffmpeg is available and fails on it, as on every
    file.  The call does not return that file: it downloads, and it
    returns the download ([My_Clip.webm]) or, when the download fails,
    fails with [Download failed]. *)
Lemma valid_original_not_returned :
  let original := path_join TEMP_DIR_MP3 (lit "My_Clip.mp4") in
  let P := path_join TEMP_DIR_MP3 (lit "My_Clip.mp3") in
  let env := Scenario.env_of true
               (Scenario.ytdlp_writes (lit ".webm") (mkStats 4096 2000))
               Scenario.ffmpeg_fails in
  let o := resolve env Scenario.url Scenario.rawTitle AUDIO
                   Scenario.fs_mp4_in_audio in
  let o' := resolve Scenario.env_fragment_left Scenario.url Scenario.rawTitle
                    AUDIO Scenario.fs_mp4_in_audio in
  lookup_path Scenario.fs_mp4_in_audio original
  = Some (Scenario.file "My_Clip.mp4" 4096 1000) /\
  endsWith (p_name original) (lit ".mp3") = false /\
  ffmpegAvailable env = true /\
  result (convert env (lit "mp3") original P Scenario.fs_mp4_in_audio)
  = Throw (FFmpegExited 1 (lit "Conversion failed!")) /\
  result o = Ok (path_join TEMP_DIR_MP3 (lit "My_Clip.webm")) /\
  existsb is_download (trace o) = true /\
  ffmpegAvailable Scenario.env_fragment_left = true /\
  result o' = Throw (DownloadFailed (lit "ERROR: unable to download video data")).
Proof. cbv zeta. repeat split; reflexivity. Qed.

End Fallback.

(** ** After the file is located (lines 1052-1077) *)

Section Deliver.

Variable env : Env.

Lemma path_eqb_eq (a b : Path) : path_eqb a b = true <-> a = b.
Proof.
  unfold path_eqb. rewrite andb_true_iff, eqb_eq.
  destruct a as [da na], b as [db nb]; simpl. split.
  - intros [Hd ->]. destruct da, db; simpl in Hd; congruence.
  - intros H; injection H as -> ->. split; [destruct db|]; reflexivity.
Qed.

Lemma locate_download_fs (d : Dir) (b : jsstring) (fs : FS) :
  fs_after (locate_download d b fs) = fs.
Proof.
  rewrite locate_download_eq.
  destruct (downloadedFiles fs d b); [reflexivity|].
  destruct (sort_desc _ _); [reflexivity|].
  destruct (lookup_path fs _); reflexivity.
Qed.

(** A located file is in the directory and is not empty. *)
Lemma locate_download_ok (d : Dir) (b : jsstring) (fs : FS) (dp : Path) :
  result (locate_download d b fs) = Ok dp ->
  exists e, lookup_path fs dp = Some e /\ st_size (e_stats e) <> 0%N.
Proof.
  rewrite locate_download_eq.
  destruct (downloadedFiles fs d b); [discriminate|].
  destruct (sort_desc _ _) as [|newest r]; [discriminate|].
  destruct (lookup_path fs (path_join d newest)) as [e|] eqn:E; [|discriminate].
  simpl. destruct (N.eqb (st_size (e_stats e)) 0) eqn:Z; [discriminate|].
  intros H; injection H as <-. exists e. split; [exact E|].
  apply N.eqb_neq, Z.
Qed.

(** Without ffmpeg, a located file with the extension [.mp4] or [.mp3]
    (in any case of the letters) is renamed to the final path, unless it
    is there already. *)
Lemma deliver_download_rename (filePath : Path) (fileType : jsstring)
      (dp : Path) (fs : FS) (e : Entry) :
  ffmpegAvailable env = false ->
  lookup_path fs dp = Some e ->
  toLowerCase (extname (p_name dp)) = lit ".mp4" \/
  toLowerCase (extname (p_name dp)) = lit ".mp3" ->
  deliver_download env filePath fileType dp fs =
  if path_eqb dp filePath
  then mkOut (Ok dp) fs
             [EvConsole (LogFFmpegAvailable false); EvConsole LogFileDownloaded]
  else mkOut (Ok filePath) (fs_write (fs_remove fs dp) filePath (e_stats e))
             [EvConsole (LogFFmpegAvailable false); EvRename dp filePath].
Proof.
  intros Hav Hlook Hext. unfold deliver_download. rewrite Hav.
  unfold bind at 1. simpl.
  destruct (path_eqb dp filePath) eqn:E; simpl.
  - rewrite !andb_false_r. reflexivity.
  - rewrite !andb_true_r.
    destruct Hext as [-> | ->]; simpl;
      unfold bind, renameSync; rewrite Hlook; reflexivity.
Qed.

(** The conversions start by calling ffmpeg. *)
Lemma convert_calls_ffmpeg (fileType : jsstring) (i o : Path) (fs : FS) :
  existsb is_transcode (trace (convert env fileType i o fs)) = true.
Proof.
  unfold convert, convertToMp3, convertToMp4, convert_with.
  destruct (Js.eqb fileType (lit "mp3"));
    rewrite trace_bind; simpl; reflexivity.
Qed.

End Deliver.

(** ** The invariant of the cache directories *)

Section Invariant.







End Invariant.

(** ** The extension match without ffmpeg *)

Section ExtensionMatch.

(** C2, as the code has it. For a call that reaches the acquisition step
    with ffmpeg unavailable, and whose located file has the target
    extension of the kind, no ffmpeg call occurs and the canonical path
    is returned: the file is renamed to it, unless it is there already.
    (With ffmpeg available the file is passed to ffmpeg whatever its
    extension: [deliver_download_converts].) *)
Theorem extension_match_without_ffmpeg (env : Env) (url : jsstring) (k : Kind)
        (title : jsstring) (fs0 : FS) (dp : Path) :
  let d := cacheDir k in
  let fileType := kind_fileType k in
  let P := canonical_path title k in
  let located := (remove_partial_downloads d title ;;
                  acquire env url d title fileType ;;
                  locate_download d title) fs0 in
  let o := download_fresh env url d title fileType P fs0 in
  ffmpegAvailable env = false ->
  result located = Ok dp ->
  toLowerCase (extname (p_name dp)) = lit "." ++ fileType ->
  result o = Ok P /\
  existsb is_transcode (trace o) = false /\
  exists e,
    lookup_path (fs_after located) dp = Some e /\
    fs_after o =
      if path_eqb dp P then fs_after located
      else fs_write (fs_remove (fs_after located) dp) P (e_stats e).
Proof.
  cbv zeta. intros Hav Hloc Hext.
  split; [|split; [apply download_fresh_no_transcode, Hav|]].
  all: rewrite <- (bind_assoc (remove_partial_downloads (cacheDir k) title)
                     (fun _ => acquire env url (cacheDir k) title (kind_fileType k))
                     (fun _ => locate_download (cacheDir k) title)) in *.
  all: destruct (result ((remove_partial_downloads (cacheDir k) title ;;
                          acquire env url (cacheDir k) title (kind_fileType k))
                           fs0)) as [[]|err] eqn:Hacq;
    [|destruct (bind_after_throw _ (fun _ => locate_download (cacheDir k) title)
                  fs0 err Hacq) as (Hr & _ & _);
      rewrite Hr in Hloc; discriminate Hloc].
  all: destruct (bind_after_ok _ (fun _ => locate_download (cacheDir k) title)
                   fs0 tt Hacq) as (Hr & Hf & _).
  all: rewrite Hr in Hloc; rewrite locate_download_fs in Hf.
  all: destruct (locate_download_ok _ _ _ _ Hloc) as (e & Hlook & _).
  all: destruct (download_fresh_after_acquire env url (cacheDir k) title
                   (kind_fileType k) (canonical_path title k) fs0 Hacq)
    as (Ho & Hfo & _); cbv zeta in Ho, Hfo.
  all: destruct (bind_after_ok (locate_download (cacheDir k) title)
                   (fun x => deliver_download env (canonical_path title k)
                                              (kind_fileType k) x)
                   _ dp Hloc) as (Hr2 & Hf2 & _).
  all: rewrite locate_download_fs in Hr2, Hf2.
  all: assert (Hext' : toLowerCase (extname (p_name dp)) = lit ".mp4" \/
                       toLowerCase (extname (p_name dp)) = lit ".mp3")
    by (rewrite Hext; destruct k; [left | right]; reflexivity).
  all: rewrite (deliver_download_rename env (canonical_path title k)
                  (kind_fileType k) dp _ e Hav Hlook Hext') in Hr2, Hf2.
  - rewrite Ho, Hr2.
    destruct (path_eqb dp (canonical_path title k)) eqn:E; [|reflexivity].
    apply path_eqb_eq in E. rewrite E. reflexivity.
  - exists e. rewrite Hf. split; [exact Hlook|]. rewrite Hfo, Hf2.
    destruct (path_eqb dp (canonical_path title k)); reflexivity.
Qed.

Lemma extension_match_without_ffmpeg_witness :
  let d := TEMP_DIR_MP4 in
  let P := path_join d (lit "My_Clip.mp4") in
  let located := (remove_partial_downloads d Scenario.title ;;
                  acquire Scenario.env_no_ffmpeg Scenario.url d Scenario.title
                          (lit "mp4") ;;
                  locate_download d Scenario.title) Scenario.fs_empty in
  let o := download_fresh Scenario.env_no_ffmpeg Scenario.url d Scenario.title
                          (lit "mp4") P Scenario.fs_empty in
  result located = Ok (path_join d (lit "My_Clip.MP4")) /\
  result o = Ok P /\
  existsb is_transcode (trace o) = false.
Proof.
  cbv zeta. split; [reflexivity|].
  destruct (extension_match_without_ffmpeg Scenario.env_no_ffmpeg Scenario.url
              VIDEO Scenario.title Scenario.fs_empty
              (path_join TEMP_DIR_MP4 (lit "My_Clip.MP4"))
              eq_refl eq_refl eq_refl) as (Hr & Ht & _).
  split; [exact Hr | exact Ht].
Defined.

(** C2 as stated fails: with ffmpeg available, yt-dlp leaves
    [My_Clip.mp4], which has the target extension of the video kind, and
    the call still runs ffmpeg on it, from the final path to the final
    path. *)
Lemma ffmpeg_called_on_target_extension :
  let P := canonical_path Scenario.title VIDEO in
  let o := resolve Scenario.env_mp4_ffmpeg_fails Scenario.url Scenario.rawTitle
                   VIDEO Scenario.fs_empty in
  In (EvConsole (LogDownloadedFile (lit "My_Clip.mp4"))) (trace o) /\
  toLowerCase (extname (lit "My_Clip.mp4")) = lit "." ++ kind_fileType VIDEO /\
  In (EvFFmpeg (ToMp4 P P)) (trace o) /\
  existsb is_transcode (trace o) = true.
Proof.
  cbv zeta. split; [vm_compute; tauto|]. split; [reflexivity|].
  split; [vm_compute; tauto | reflexivity].
Qed.

End ExtensionMatch.

(** ** A second call *)

Section SecondCall.

Variable env : Env.
Hypothesis Hffmpeg : ffmpeg_success_writes_output env.

Lemma convert_with_ok (job : FFmpegJob) (outputPath p : Path) (fs : FS) :
  job_output job = outputPath ->
  result (convert_with env job outputPath fs) = Ok p ->
  valid_at (fs_after (convert_with env job outputPath fs)) outputPath.
Proof.
  intros Hjob. unfold convert_with, bind, console, emit, run_ffmpeg. simpl.
  destruct (spawn_ffmpeg env job fs) as [out fs'] eqn:S. simpl.
  destruct out as [code stderr | msg]; simpl; [|discriminate].
  destruct (Z.eqb code 0) eqn:Z; simpl; [|discriminate].
  intros _. apply Z.eqb_eq in Z. subst code.
  rewrite <- Hjob. exact (Hffmpeg job fs stderr fs' S).
Qed.

Lemma convert_ok (fileType : jsstring) (i o p : Path) (fs : FS) :
  result (convert env fileType i o fs) = Ok p ->
  valid_at (fs_after (convert env fileType i o fs)) o.
Proof.
  unfold convert, convertToMp3, convertToMp4.
  destruct (Js.eqb fileType (lit "mp3")); apply convert_with_ok; reflexivity.
Qed.

(** The two places that convert have the same shape: on success the
    final path, on failure a log line and the file that was there. *)
Lemma try_convert (fileType : jsstring) {A} (i o : Path) (good bad : A)
      (failure : Error -> Console) (fs : FS) :
  (forall err, is_conversion_failure (EvConsole (failure err)) = true) ->
  let c := try_catch (convert env fileType i o ;; ret good)
                     (fun error => console (failure error) ;; ret bad) fs in
  existsb is_conversion_failure (trace c) = false ->
  result c = Ok good /\ valid_at (fs_after c) o.
Proof.
  intros Hfail. cbv zeta.
  destruct (result (convert env fileType i o fs)) as [p|err] eqn:R.
  - destruct (bind_after_ok (convert env fileType i o) (fun _ => ret good)
                fs p R) as (Hr & Hf & _).
    rewrite (try_catch_ok _ _ _ good Hr). intros _.
    rewrite Hr, Hf. split; [reflexivity|]. simpl. exact (convert_ok _ _ _ _ _ R).
  - destruct (bind_after_throw (convert env fileType i o) (fun _ => ret good)
                fs err R) as (Hr & _ & _).
    rewrite (try_catch_throw _ _ _ err Hr). simpl.
    rewrite existsb_app. cbn [existsb]. rewrite Hfail, orb_true_r. discriminate.
Qed.

Lemma use_cached_original_eq (d : Dir) (filePath : Path)
      (fileType f0 : jsstring) (rest : list jsstring) (fs : FS) (e0 : Entry) :
  lookup_path fs (path_join d f0) = Some e0 ->
  use_cached_original env d filePath fileType (f0 :: rest) fs =
  if (0 <? st_size (e_stats e0))%N then
    if ffmpegAvailable env then
      let c := try_catch
                 (convert env fileType (path_join d f0) filePath ;;
                  ret (Some filePath))
                 (fun error => console (ErrConversionFailed error) ;;
                               ret (Some (path_join d f0))) fs in
      mkOut (result c) (fs_after c)
            (EvConsole (LogFoundCachedOriginal (path_join d f0)) :: trace c)
    else mkOut (Ok (Some (path_join d f0))) fs
               [EvConsole (LogFoundCachedOriginal (path_join d f0))]
  else mkOut (Ok None) (fs_remove fs (path_join d f0))
             [EvUnlink (path_join d f0)].
Proof.
  intros E0. unfold use_cached_original.
  unfold bind at 1. rewrite (statSync_present _ _ _ E0). simpl.
  destruct (0 <? st_size (e_stats e0))%N.
  - unfold bind at 1. simpl. destruct (ffmpegAvailable env); reflexivity.
  - unfold bind. rewrite (unlinkSync_present _ _ _ E0). reflexivity.
Qed.

Lemma use_cached_original_leaves_target (d : Dir) (n fileType : jsstring)
      (l : list jsstring) (fs : FS) :
  lookup_path fs (path_join d n) = None ->
  let u := use_cached_original env d (path_join d n) fileType l fs in
  result u = Ok (Some (path_join d n)) ->
  existsb is_conversion_failure (trace u) = false ->
  valid_at (fs_after u) (path_join d n).
Proof.
  intros Hnone. cbv zeta.
  destruct l as [|f0 rest]; [discriminate|].
  destruct (lookup_path fs (path_join d f0)) as [e0|] eqn:E0.
  - rewrite (use_cached_original_eq d (path_join d n) fileType f0 rest fs e0 E0).
    destruct (0 <? st_size (e_stats e0))%N; [|discriminate].
    destruct (ffmpegAvailable env).
    + cbv zeta. simpl. intros _ Hnf.
      destruct (try_convert fileType (path_join d f0) (path_join d n)
                  (Some (path_join d n)) (Some (path_join d f0))
                  ErrConversionFailed fs (fun _ => eq_refl) Hnf) as [_ Hv].
      exact Hv.
    + simpl. intros H. injection H as H. rewrite H in E0. congruence.
  - unfold use_cached_original, bind, statSync. rewrite E0. discriminate.
Qed.

Lemma deliver_download_eq (filePath : Path) (fileType : jsstring)
      (dp : Path) (fs : FS) :
  deliver_download env filePath fileType dp fs =
  if ffmpegAvailable env then
    let c := try_catch
               (convert env fileType dp filePath ;; ret filePath)
               (fun error => console (ErrConversionFailedUsingOriginal error) ;;
                             ret dp) fs in
    mkOut (result c) (fs_after c)
          (EvConsole (LogFFmpegAvailable true) :: trace c)
  else if (Js.eqb (toLowerCase (extname (p_name dp))) (lit ".mp4") ||
           Js.eqb (toLowerCase (extname (p_name dp))) (lit ".mp3")) &&
          negb (path_eqb dp filePath) then
    let r := (renameSync dp filePath ;; ret filePath) fs in
    mkOut (result r) (fs_after r)
          (EvConsole (LogFFmpegAvailable false) :: trace r)
  else mkOut (Ok dp) fs
             [EvConsole (LogFFmpegAvailable false); EvConsole LogFileDownloaded].
Proof.
  unfold deliver_download. unfold bind at 1. simpl.
  destruct (ffmpegAvailable env); [reflexivity|].
  destruct (Js.eqb (toLowerCase (extname (p_name dp))) (lit ".mp4"));
    destruct (Js.eqb (toLowerCase (extname (p_name dp))) (lit ".mp3"));
    destruct (path_eqb dp filePath); reflexivity.
Qed.

(** With ffmpeg available, the located file is passed to ffmpeg whatever
    its extension. *)
Lemma deliver_download_converts (filePath : Path) (fileType : jsstring)
      (dp : Path) (fs : FS) :
  ffmpegAvailable env = true ->
  existsb is_transcode (trace (deliver_download env filePath fileType dp fs)) = true.
Proof.
  intros Hav. rewrite deliver_download_eq, Hav. cbv zeta.
  unfold try_catch.
  assert (Hc : existsb is_transcode
                 (trace ((convert env fileType dp filePath ;; ret filePath) fs))
               = true).
  { rewrite trace_bind.
    destruct (result (convert env fileType dp filePath fs));
      rewrite ?existsb_app, convert_calls_ffmpeg; reflexivity. }
  destruct (result ((convert env fileType dp filePath ;; ret filePath) fs));
    simpl; rewrite ?existsb_app, Hc; reflexivity.
Qed.

Lemma deliver_download_leaves_target (filePath : Path) (fileType : jsstring)
      (dp : Path) (fs : FS) (e : Entry) :
  lookup_path fs dp = Some e ->
  st_size (e_stats e) <> 0%N ->
  let v := deliver_download env filePath fileType dp fs in
  result v = Ok filePath ->
  existsb is_conversion_failure (trace v) = false ->
  valid_at (fs_after v) filePath.
Proof.
  intros Hlook Hsize. cbv zeta. rewrite deliver_download_eq.
  assert (Hpos : (0 < st_size (e_stats e))%N) by lia.
  destruct (ffmpegAvailable env).
  - cbv zeta. simpl. intros _ Hnf.
    destruct (try_convert fileType dp filePath filePath dp
                ErrConversionFailedUsingOriginal fs (fun _ => eq_refl) Hnf)
      as [_ Hv].
    exact Hv.
  - destruct ((Js.eqb (toLowerCase (extname (p_name dp))) (lit ".mp4") ||
               Js.eqb (toLowerCase (extname (p_name dp))) (lit ".mp3")) &&
              negb (path_eqb dp filePath)).
    + intros _ _. cbv zeta. unfold bind, renameSync. rewrite Hlook. simpl.
      exists (mkEntry (p_name filePath) (e_stats e)).
      split; [apply (lookup_fs_write_same (fs_remove fs dp) filePath)|exact Hpos].
    + simpl. intros H _. injection H as <-. exists e. split; assumption.
Qed.

Lemma download_fresh_leaves_target (url : jsstring) (d : Dir)
      (b fileType : jsstring) (filePath : Path) (fs : FS) :
  let o := download_fresh env url d b fileType filePath fs in
  result o = Ok filePath ->
  existsb is_conversion_failure (trace o) = false ->
  valid_at (fs_after o) filePath.
Proof.
  cbv zeta. intros Hres Hnf.
  destruct (result ((remove_partial_downloads d b ;;
                     acquire env url d b fileType) fs)) as [[]|err] eqn:Hacq.
  - destruct (download_fresh_after_acquire env url d b fileType filePath fs Hacq)
      as (Ho & Hfo & Hto). cbv zeta in Ho, Hfo, Hto.
    rewrite Ho in Hres. rewrite Hto, existsb_app in Hnf.
    apply orb_false_iff in Hnf. destruct Hnf as [_ Hnf].
    rewrite Hfo. clear Ho Hfo Hto.
    set (fs1 := fs_after ((remove_partial_downloads d b ;;
                           acquire env url d b fileType) fs)) in *.
    destruct (result (locate_download d b fs1)) as [dp|err] eqn:Hloc.
    + destruct (bind_after_ok (locate_download d b)
                  (fun x => deliver_download env filePath fileType x)
                  fs1 dp Hloc) as (Hr & Hf & Ht).
      rewrite locate_download_fs in Hr, Hf, Ht.
      rewrite Hr in Hres. rewrite Ht, existsb_app in Hnf.
      apply orb_false_iff in Hnf. destruct Hnf as [_ Hnf]. rewrite Hf.
      destruct (locate_download_ok _ _ _ _ Hloc) as (e & Hlook & Hsize).
      exact (deliver_download_leaves_target filePath fileType dp fs1 e
               Hlook Hsize Hres Hnf).
    + destruct (bind_after_throw (locate_download d b)
                  (fun x => deliver_download env filePath fileType x)
                  fs1 err Hloc) as (Hr & _ & _).
      rewrite Hr in Hres. discriminate Hres.
  - unfold download_fresh in Hres.
    rewrite <- (bind_assoc (remove_partial_downloads d b)
                           (fun _ => acquire env url d b fileType)) in Hres.
    destruct (bind_after_throw _
                (fun _ => downloadedPath <- locate_download d b ;;
                          deliver_download env filePath fileType downloadedPath)
                fs err Hacq) as (Hr & _ & _).
    rewrite Hr in Hres. discriminate Hres.
Qed.

End SecondCall.

(** ** Idempotence *)

Section Idempotence.

Lemma first_call_leaves_target (env : Env) (url filename fileType : jsstring)
      (fs : FS) :
  ffmpeg_success_writes_output env ->
  let P := target_path filename fileType in
  let o1 := download_video env url filename fileType fs in
  result o1 = Ok P ->
  existsb is_conversion_failure (trace o1) = false ->
  valid_at (fs_after o1) P.
Proof.
  intros Hffmpeg. cbv zeta. rewrite download_video_steps.
  set (P := target_path filename fileType).
  pose proof (check_cached_target_run P fs) as Hc.
  destruct (lookup_path fs P) as [e|] eqn:E;
    [destruct (0 <? st_size (e_stats e))%N eqn:Z|].
  - (* cache hit *)
    assert (R : result (check_cached_target P fs) = Ok (Some P))
      by (rewrite Hc; reflexivity).
    match goal with
    | |- context [bind ?m ?k fs] =>
        destruct (bind_after_ok m k fs _ R) as (_ & -> & _)
    end.
    intros _ _. rewrite Hc.
    exists e. split; [exact E | apply N.ltb_lt, Z].
  - (* zero-byte file at the final path *)
    assert (Hmiss : forall e0, lookup_path fs P = Some e0 ->
                               st_size (e_stats e0) = 0%N).
    { intros e0 H0. rewrite E in H0. injection H0 as <-.
      apply N.ltb_ge in Z. lia. }
    clear Hc. revert Hmiss. generalize (lookup_fs_remove_same fs P).
    intros Hgone Hmiss.
    destruct (check_cached_target_miss P fs Hmiss) as [R F].
    match goal with
    | |- context [bind ?m ?k fs] =>
        destruct (bind_after_ok m k fs _ R) as (-> & -> & ->)
    end.
    rewrite F, existsb_app. intros Hres Hnf.
    apply orb_false_iff in Hnf. destruct Hnf as [_ Hnf].
    revert Hres Hnf.
    destruct (result (use_cached_original env (target_dir fileType) P fileType
                        (cachedFiles (fs_remove fs P) (target_dir fileType)
                                     (remove_extension filename))
                        (fs_remove fs P))) as [[p|]|err] eqn:RU.
    + match goal with
      | |- context [bind ?m ?k (fs_remove fs P)] =>
          destruct (bind_after_ok m k (fs_remove fs P) _ RU) as (-> & -> & ->)
      end.
      simpl. intros Hres Hnf. injection Hres as ->.
      rewrite app_nil_r in Hnf.
      exact (use_cached_original_leaves_target env Hffmpeg (target_dir fileType)
               _ fileType _ (fs_remove fs P) Hgone RU Hnf).
    + match goal with
      | |- context [bind ?m ?k (fs_remove fs P)] =>
          destruct (bind_after_ok m k (fs_remove fs P) _ RU) as (-> & -> & ->)
      end.
      rewrite existsb_app. intros Hres Hnf.
      apply orb_false_iff in Hnf. destruct Hnf as [_ Hnf].
      exact (download_fresh_leaves_target env Hffmpeg url (target_dir fileType)
               (remove_extension filename) fileType P _ Hres Hnf).
    + match goal with
      | |- context [bind ?m ?k (fs_remove fs P)] =>
          destruct (bind_after_throw m k (fs_remove fs P) _ RU) as (-> & _ & _)
      end.
      discriminate.
  - (* nothing at the final path *)
    assert (Hmiss : forall e0, lookup_path fs P = Some e0 ->
                               st_size (e_stats e0) = 0%N)
      by (intros e0 H0; rewrite E in H0; discriminate H0).
    clear Hc.
    destruct (check_cached_target_miss P fs Hmiss) as [R F].
    rewrite (fs_remove_absent fs P E) in F.
    match goal with
    | |- context [bind ?m ?k fs] =>
        destruct (bind_after_ok m k fs _ R) as (-> & -> & ->)
    end.
    rewrite F, existsb_app. intros Hres Hnf.
    apply orb_false_iff in Hnf. destruct Hnf as [_ Hnf].
    revert Hres Hnf.
    destruct (result (use_cached_original env (target_dir fileType) P fileType
                        (cachedFiles fs (target_dir fileType)
                                     (remove_extension filename))
                        fs)) as [[p|]|err] eqn:RU.
    + match goal with
      | |- context [bind ?m ?k fs] =>
          destruct (bind_after_ok m k fs _ RU) as (-> & -> & ->)
      end.
      simpl. intros Hres Hnf. injection Hres as ->.
      rewrite app_nil_r in Hnf.
      exact (use_cached_original_leaves_target env Hffmpeg (target_dir fileType)
               _ fileType _ fs E RU Hnf).
    + match goal with
      | |- context [bind ?m ?k fs] =>
          destruct (bind_after_ok m k fs _ RU) as (-> & -> & ->)
      end.
      rewrite existsb_app. intros Hres Hnf.
      apply orb_false_iff in Hnf. destruct Hnf as [_ Hnf].
      exact (download_fresh_leaves_target env Hffmpeg url (target_dir fileType)
               (remove_extension filename) fileType P _ Hres Hnf).
    + match goal with
      | |- context [bind ?m ?k fs] =>
          destruct (bind_after_throw m k fs _ RU) as (-> & _ & _)
      end.
      discriminate.
Qed.

(** A call that finds a valid file at the final path returns it and
    does nothing else. *)
Lemma download_video_cache_hit (env : Env) (url filename fileType : jsstring)
      (fs : FS) (e : Entry) :
  lookup_path fs (target_path filename fileType) = Some e ->
  (0 < st_size (e_stats e))%N ->
  download_video env url filename fileType fs =
  mkOut (Ok (target_path filename fileType)) fs
        [EvConsole (LogFoundCachedTarget (target_path filename fileType));
         EvConsole (LogCacheSize (st_size (e_stats e)))].
Proof.
  intros Hlook Hsize. apply N.ltb_lt in Hsize.
  rewrite download_video_steps. unfold bind.
  rewrite check_cached_target_run, Hlook, Hsize. reflexivity.
Qed.

(** C1, as the code has it. If a first call returns the canonical path
    and no conversion failed during it (ffmpeg leaving a file that is
    not empty at its output path when it exits with code 0), then a
    second call with the same arguments on the directories the first one
    left returns the same path, leaves the directories as they are, and
    calls neither yt-dlp nor ffmpeg. *)
Theorem second_call_hits_cache (env : Env) (url filename fileType : jsstring)
        (fs : FS) :
  let P := target_path filename fileType in
  let o1 := download_video env url filename fileType fs in
  let o2 := download_video env url filename fileType (fs_after o1) in
  ffmpeg_success_writes_output env ->
  result o1 = Ok P ->
  existsb is_conversion_failure (trace o1) = false ->
  result o2 = Ok P /\
  fs_after o2 = fs_after o1 /\
  existsb is_download (trace o2) = false /\
  existsb is_transcode (trace o2) = false.
Proof.
  cbv zeta. intros Hffmpeg Hres Hnf.
  destruct (first_call_leaves_target env url filename fileType fs
              Hffmpeg Hres Hnf) as (e & Hlook & Hsize).
  rewrite (download_video_cache_hit env url filename fileType _ e Hlook Hsize).
  simpl. repeat split; reflexivity.
Qed.

Lemma env_convert_writes_output : ffmpeg_success_writes_output Scenario.env_convert.
Proof.
  intros job fs stderr fs' H. simpl in H. unfold Scenario.ffmpeg_converts in H.
  injection H as _ <-.
  exists (mkEntry (p_name (job_output job)) (mkStats 2048 2000)).
  split; [apply lookup_fs_write_same | reflexivity].
Qed.

Lemma second_call_hits_cache_witness :
  let P := path_join TEMP_DIR_MP4 (lit "My_Clip.mp4") in
  let o1 := resolve Scenario.env_convert Scenario.url Scenario.rawTitle VIDEO
                    Scenario.fs_empty in
  let o2 := resolve Scenario.env_convert Scenario.url Scenario.rawTitle VIDEO
                    (fs_after o1) in
  ffmpeg_success_writes_output Scenario.env_convert /\
  result o1 = Ok P /\
  existsb is_conversion_failure (trace o1) = false /\
  result o2 = Ok P /\
  fs_after o2 = fs_after o1 /\
  existsb is_download (trace o2) = false /\
  existsb is_transcode (trace o2) = false.
Proof.
  cbv zeta. split; [exact env_convert_writes_output|].
  split; [reflexivity|]. split; [reflexivity|].
  exact (second_call_hits_cache Scenario.env_convert Scenario.url
           (sanitizeFilename Scenario.rawTitle) (lit "mp4") Scenario.fs_empty
           env_convert_writes_output eq_refl eq_refl).
Defined.

(** C1 as stated fails: for the audio kind yt-dlp leaves [My_Clip.mp4]
    and the conversion to MP3 fails, so the first call succeeds with the
    path of [My_Clip.mp4]; the scan of the second call skips that file,
    and the second call, which returns the same path, downloads again. *)
Lemma second_call_downloads_again :
  let p := path_join TEMP_DIR_MP3 (lit "My_Clip.mp4") in
  let o1 := resolve Scenario.env_mp4_ffmpeg_fails Scenario.url Scenario.rawTitle
                    AUDIO Scenario.fs_empty in
  let o2 := resolve Scenario.env_mp4_ffmpeg_fails Scenario.url Scenario.rawTitle
                    AUDIO (fs_after o1) in
  result o1 = Ok p /\
  result o2 = Ok p /\
  existsb is_download (trace o2) = true.
Proof. cbv zeta. split; [|split]; reflexivity. Qed.

End Idempotence.

(** * Further properties *)

(** ** [tokenizer] *)

Section Tokenizer.

Lemma split_space_no_space (s : jsstring) : Forall no_space (split_space s).
Proof.
  induction s as [|c s IH]; simpl.
  - constructor; [intros []|constructor].
  - destruct (N.eqb c space) eqn:E.
    + constructor; [intros []|exact IH].
    + apply N.eqb_neq in E.
      destruct (split_space s) as [|w ws].
      * constructor; [|constructor]. intros [H|[]]. congruence.
      * inversion IH as [|? ? Hw Hws]; subst.
        constructor; [|exact Hws]. intros [H|H]; [congruence | exact (Hw H)].
Qed.

Lemma split_space_word (w : jsstring) : no_space w -> split_space w = [w].
Proof.
  unfold no_space. induction w as [|c w IH]; simpl; intros H; [reflexivity|].
  destruct (N.eqb c space) eqn:E.
  - apply N.eqb_eq in E. exfalso. apply H. left. congruence.
  - rewrite IH; [reflexivity|]. intros Hin. apply H. right. exact Hin.
Qed.

Lemma split_space_app (w r : jsstring) :
  no_space w -> split_space (w ++ space :: r) = w :: split_space r.
Proof.
  unfold no_space. induction w as [|c w IH]; simpl; intros H; [reflexivity|].
  destruct (N.eqb c space) eqn:E.
  - apply N.eqb_eq in E. exfalso. apply H. left. congruence.
  - rewrite IH; [reflexivity|]. intros Hin. apply H. right. exact Hin.
Qed.

Lemma split_join_space (l : list jsstring) :
  l <> [] -> Forall no_space l -> split_space (join_space l) = l.
Proof.
  induction l as [|w l IH]; intros Hne Hl; [congruence|].
  inversion Hl as [|? ? Hw Hl']; subst.
  destruct l as [|w2 l].
  - simpl. apply split_space_word, Hw.
  - change (join_space (w :: w2 :: l)) with (w ++ space :: join_space (w2 :: l)).
    rewrite split_space_app by exact Hw. f_equal. apply IH; [discriminate|exact Hl'].
Qed.

Lemma remove_first_space_word (w : jsstring) :
  no_space w -> remove_first_space w = w.
Proof.
  unfold no_space. induction w as [|c w IH]; simpl; intros H; [reflexivity|].
  destruct (N.eqb c space) eqn:E.
  - apply N.eqb_eq in E. exfalso. apply H. left. congruence.
  - f_equal. apply IH. intros Hin. apply H. right. exact Hin.
Qed.

Lemma words_kept (args : list jsstring) :
  Forall (fun w => w <> [] /\ no_space w) args ->
  map remove_first_space
      (filter (fun word => negb (Js.eqb word [] || Js.eqb word [space])) args)
  = args.
Proof.
  intros Ha. induction Ha as [|w ws [Hne Hw] _ IH]; simpl; [reflexivity|].
  assert (E1 : Js.eqb w [] = false) by (apply eqb_neq; exact Hne).
  assert (E2 : Js.eqb w [space] = false).
  { apply eqb_neq. intros ->. apply Hw. left. reflexivity. }
  rewrite E1, E2. simpl.
  rewrite (remove_first_space_word w Hw), IH. reflexivity.
Qed.

(** X1. The words of a message: the command has no space, and no argument
    is empty or has a space, however many spaces the message has. *)
Theorem tokenizer_words (input : jsstring) :
  no_space (fst (tokenizer input)) /\
  Forall (fun w => w <> [] /\ no_space w) (snd (tokenizer input)).
Proof.
  unfold tokenizer. cbv zeta.
  pose proof (split_space_no_space input) as H.
  destruct (split_space input) as [|c ws]; cbn [fst snd hd tl filter map].
  - split; [intros []|constructor].
  - inversion H as [|? ? Hc Hws]; subst. split; [exact Hc|].
    clear Hc H. induction Hws as [|w ws Hw _ IH]; simpl; [constructor|].
    destruct (Js.eqb w []) eqn:E; simpl; [exact IH|].
    destruct (Js.eqb w [space]) eqn:E2; simpl; [exact IH|].
    constructor; [|exact IH].
    rewrite (remove_first_space_word w Hw). split; [|exact Hw].
    apply eqb_neq in E. exact E.
Qed.

(** X2. A command and its arguments, joined by single spaces, are what
    [tokenizer] gives back. *)
Theorem tokenizer_join (command : jsstring) (args : list jsstring) :
  no_space command ->
  Forall (fun w => w <> [] /\ no_space w) args ->
  tokenizer (join_space (command :: args)) = (command, args).
Proof.
  intros Hc Ha. unfold tokenizer.
  rewrite split_join_space; [|discriminate|].
  - cbn [hd tl]. rewrite (words_kept args Ha). reflexivity.
  - constructor; [exact Hc|].
    eapply Forall_impl; [|exact Ha]. intros w [_ Hw]. exact Hw.
Qed.

Lemma tokenizer_join_witness :
  tokenizer (join_space [lit "!ytdl4"; lit "https://youtu.be/abc"])
  = (lit "!ytdl4", [lit "https://youtu.be/abc"]).
Proof.
  apply (tokenizer_join (lit "!ytdl4") [lit "https://youtu.be/abc"]).
  - intros H. vm_compute in H. intuition discriminate.
  - constructor; [|constructor]. split; [discriminate|].
    intros H. vm_compute in H. intuition discriminate.
Defined.

(** Runs of spaces give no empty argument. *)
Example tokenizer_spaces :
  tokenizer (lit "!db  Berlin   Hamburg ") = (lit "!db", [lit "Berlin"; lit "Hamburg"]).
Proof. reflexivity. Qed.

End Tokenizer.

(** ** [radiusToZoom] *)

Section Zoom.

(** X3. The zoom level lies between 9 and 18 and does not grow with the
    radius. *)
Theorem radiusToZoom_range_monotone (r1 r2 : Z) :
  (r1 <= r2)%Z ->
  (9 <= radiusToZoom r2 <= radiusToZoom r1)%Z /\ (radiusToZoom r1 <= 18)%Z.
Proof.
  intros H. unfold radiusToZoom.
  repeat match goal with
         | |- context [(?a <=? ?b)%Z] => destruct (Z.leb_spec a b); cbv iota
         end; lia.
Qed.

Lemma radiusToZoom_range_monotone_witness :
  (9 <= radiusToZoom 500 <= radiusToZoom 200)%Z /\ (radiusToZoom 200 <= 18)%Z.
Proof.
  assert (H : (200 <= 500)%Z) by (intros E; discriminate E).
  exact (radiusToZoom_range_monotone 200 500 H).
Defined.

End Zoom.

(** ** The path points of [getRouteMapUrl] *)

Section PathPointsFacts.

Variable Coord : Type.

Lemma every_nth_length (coords : list Coord) (step fuel i : nat) :
  1 <= step ->
  length (every_nth coords step fuel i) * step < (length coords - i) + step.
Proof.
  intros Hs. revert i. induction fuel as [|fuel IH]; intros i; simpl; [lia|].
  destruct (nth_error coords i) as [c|] eqn:E; simpl; [|lia].
  assert (Hi : i < length coords) by (apply nth_error_Some; congruence).
  specialize (IH (i + step)).
  destruct (length (every_nth coords step fuel (i + step))) as [|L]; simpl in *;
    lia.
Qed.

Lemma sampled_at_most_199 (n L : nat) :
  L * Nat.max 1 (n / 100) < n + Nat.max 1 (n / 100) -> L <= 199.
Proof.
  intros H.
  pose proof (Nat.div_mod_eq n 100) as D.
  pose proof (Nat.mod_upper_bound n 100) as M.
  destruct (n / 100) as [|[|q]] eqn:Q.
  - simpl in H. lia.
  - simpl in H. lia.
  - assert (Hm : Nat.max 1 (S (S q)) = S (S q)) by lia.
    rewrite Hm in H. nia.
Qed.

Lemma nth_error_last (l : list Coord) (d : Coord) :
  l <> [] -> nth_error l (length l - 1) = Some (last l d).
Proof.
  induction l as [|x l IH]; intros H; [congruence|].
  destruct l as [|y l]; [reflexivity|].
  change (length (x :: y :: l) - 1) with (S (length l)).
  change (last (x :: y :: l) d) with (last (y :: l) d).
  rewrite <- IH by discriminate. simpl. rewrite Nat.sub_0_r. reflexivity.
Qed.

(** X4. At most 200 points are put on the path, the first coordinate comes
    first and the last one last. *)
Theorem pathPoints_bound_ends (coords : list Coord) :
  length (pathPoints coords) <= 200 /\
  hd_error (pathPoints coords) = hd_error coords /\
  (forall d, last (pathPoints coords) d = last coords d).
Proof.
  unfold pathPoints. cbv zeta.
  pose proof (every_nth_length coords (Nat.max 1 (length coords / 100))
                (length coords) 0 (Nat.le_max_l _ _)) as HL.
  rewrite Nat.sub_0_r in HL. apply sampled_at_most_199 in HL.
  split; [|split].
  - rewrite length_app.
    set (L := length (every_nth coords (Nat.max 1 (length coords / 100))
                                (length coords) 0)) in *.
    destruct (1 <? length coords); [|cbn [length]; lia].
    destruct (nth_error coords (length coords - 1)); cbn [length]; lia.
  - destruct coords as [|c rest]; reflexivity.
  - intros d. destruct coords as [|c rest]; [reflexivity|].
    destruct rest as [|c2 rest]; [reflexivity|].
    change (1 <? length (c :: c2 :: rest)) with true. cbv iota.
    rewrite (nth_error_last (c :: c2 :: rest) d) by discriminate.
    apply last_last.
Qed.

End PathPointsFacts.

(** The bound is reached: 199 coordinates give 199 points and the last
    one again. *)
Example pathPoints_199 : length (pathPoints (seq 0 199)) = 200.
Proof. reflexivity. Qed.

(** ** File names *)

Section FileNames.

Lemma word_or_hyphen_not_space (c : N) :
  is_word c || N.eqb c hyphen = true -> is_space c = false.
Proof.
  unfold is_word, is_space, between, hyphen. intros H.
  repeat rewrite orb_true_iff in H. repeat rewrite andb_true_iff in H.
  repeat rewrite N.leb_le in H. rewrite !N.eqb_eq in H.
  repeat rewrite orb_false_iff. repeat rewrite andb_false_iff.
  repeat rewrite N.leb_gt. rewrite !N.eqb_neq. lia.
Qed.

Lemma replace_runs_clean (b : bool) (s : jsstring) :
  Forall (fun c => is_space c = false) s ->
  replace_runs_from is_space [underscore] b s = s.
Proof.
  intros H. revert b. induction H as [|c s Hc _ IH]; intros b; simpl;
    [reflexivity|].
  rewrite Hc. f_equal. apply IH.
Qed.

Lemma filter_all {A} (f : A -> bool) (l : list A) :
  Forall (fun x => f x = true) l -> filter f l = l.
Proof.
  induction 1 as [|x l Hx _ IH]; simpl; [reflexivity|].
  rewrite Hx, IH. reflexivity.
Qed.

(** A name made of word characters and hyphens, of at most 100
    characters, is its own sanitized form. *)
Lemma sanitizeFilename_clean (s : jsstring) :
  Forall (fun c => is_word c || N.eqb c hyphen = true) s ->
  length s <= 100 ->
  sanitizeFilename s = s.
Proof.
  intros Hs Hl. unfold sanitizeFilename, substring0, replace_runs_g.
  rewrite (replace_class_filter
             (fun c => is_word c || is_space c || N.eqb c hyphen)).
  rewrite filter_all.
  - rewrite replace_runs_clean.
    + apply firstn_all2, Hl.
    + eapply Forall_impl; [|exact Hs]. apply word_or_hyphen_not_space.
  - eapply Forall_impl; [|exact Hs]. intros c Hc. cbv beta in Hc.
    apply orb_true_iff in Hc. destruct Hc as [Hc|Hc]; rewrite Hc;
      [reflexivity | apply orb_true_r].
Qed.

Lemma sanitizeFilename_length (s : jsstring) : length (sanitizeFilename s) <= 100.
Proof.
  unfold sanitizeFilename, substring0. rewrite length_firstn. lia.
Qed.

(** X5. Sanitizing twice is sanitizing once. *)
Theorem sanitizeFilename_idempotent (s : jsstring) :
  sanitizeFilename (sanitizeFilename s) = sanitizeFilename s.
Proof.
  apply sanitizeFilename_clean;
    [apply sanitizeFilename_chars | apply sanitizeFilename_length].
Qed.

(** X6. [baseFilename] (line 922): a last extension -- a dot followed to the
    end by one or more characters that are not dots -- is cut off, and
    only that: a name without a dot and a name that ends with a dot are
    kept whole. *)
Theorem remove_extension_cases :
  (forall base ext,
      ext <> [] -> Forall (fun c => N.eqb c dot = false) ext ->
      remove_extension (base ++ dot :: ext) = base) /\
  (forall s, Forall (fun c => N.eqb c dot = false) s -> remove_extension s = s) /\
  (forall s, remove_extension (s ++ [dot]) = s ++ [dot]).
Proof.
  assert (Hdot : forall s t, forallb (fun d => negb (N.eqb d dot)) (s ++ dot :: t) = false).
  { intros s t. induction s as [|c s IH]; simpl.
    - reflexivity.
    - rewrite IH. apply andb_false_r. }
  split; [|split].
  - intros base ext Hne Hext. induction base as [|c base IH]; simpl.
    + destruct ext as [|x ext]; [congruence|]. simpl.
      assert (H : forallb (fun d => negb (N.eqb d dot)) (x :: ext) = true).
      { apply forallb_forall. intros y Hy.
        rewrite Forall_forall in Hext. rewrite (Hext y Hy). reflexivity. }
      simpl in H. rewrite H. reflexivity.
    + rewrite Hdot, andb_false_r. f_equal. exact IH.
  - apply remove_extension_no_dot.
  - intros s. induction s as [|c s IH]; simpl.
    + reflexivity.
    + change (s ++ [dot]) with (s ++ dot :: []). rewrite Hdot, andb_false_r.
      f_equal. exact IH.
Qed.

Example remove_extension_examples :
  remove_extension (lit "clip.final.webm") = lit "clip.final" /\
  remove_extension (lit "My_Clip") = lit "My_Clip" /\
  remove_extension (lit "clip.") = lit "clip.".
Proof. repeat split. Qed.

End FileNames.

(** ** [convertToMp4] and [convertToMp3] *)

Section Convert.

Lemma slice_last_suffix (n : nat) (s : jsstring) :
  length (slice_last n s) <= n /\ exists pre, s = pre ++ slice_last n s.
Proof.
  unfold slice_last. split.
  - rewrite length_skipn. lia.
  - exists (firstn (length s - n) s). symmetry. apply firstn_skipn.
Qed.

(** X7. A conversion runs ffmpeg once, on the job of the file type. It
    gives the output path exactly when ffmpeg closes with code 0; a
    non-zero code is reported with the last 500 characters of stderr at
    most, and a spawn error with its message. The directories are as
    ffmpeg left them. *)
Theorem convert_outcome (env : Env) (fileType : jsstring) (i o : Path) (fs : FS) :
  let job := ffmpeg_job fileType i o in
  let c := convert env fileType i o fs in
  fs_after c = snd (spawn_ffmpeg env job fs) /\
  filter is_transcode (trace c) = [EvFFmpeg job] /\
  match fst (spawn_ffmpeg env job fs) with
  | Closed code stderr =>
      if Z.eqb code 0 then result c = Ok o
      else exists tail,
          result c = Throw (FFmpegExited code tail) /\
          length tail <= 500 /\
          exists pre, stderr = pre ++ tail
  | SpawnFailed msg => result c = Throw (FFmpegError msg)
  end.
Proof.
  cbv zeta. unfold convert, ffmpeg_job, convertToMp3, convertToMp4.
  destruct (Js.eqb fileType (lit "mp3"));
    unfold convert_with, bind, console, emit, run_ffmpeg; simpl;
    match goal with
    | |- context [spawn_ffmpeg env ?j fs] =>
        destruct (spawn_ffmpeg env j fs) as [[code stderr|msg] fs']
    end; simpl;
    try (destruct (Z.eqb code 0) eqn:Z); simpl;
    repeat split;
    try (exists (slice_last 500 stderr);
         split; [reflexivity | apply slice_last_suffix]).
Qed.

End Convert.

(** ** [findFFmpegPath] *)

Section FindFFmpeg.

Variable path_exists : jsstring -> bool.

(** X8. The path found is the first of the list, other than ["ffmpeg"], that
    exists; it is ["ffmpeg"] when there is none. *)
Theorem findFFmpegPath_first_existing (possiblePaths : list jsstring) :
  let found := findFFmpegPath possiblePaths path_exists in
  (found = lit "ffmpeg" /\
   forall p, In p possiblePaths -> p <> lit "ffmpeg" -> path_exists p = false) \/
  (found <> lit "ffmpeg" /\ path_exists found = true /\
   exists before after,
     possiblePaths = before ++ found :: after /\
     forall p, In p before -> p <> lit "ffmpeg" -> path_exists p = false).
Proof.
  cbv zeta. unfold findFFmpegPath.
  induction possiblePaths as [|p paths IH]; simpl.
  - left. split; [reflexivity|]. intros p [].
  - destruct (Js.eqb p (lit "ffmpeg")) eqn:E.
    + apply eqb_eq in E.
      destruct IH as [[Hf Hnone]|(Hf & Hex & before & after & Hsplit & Hnone)].
      * left. split; [exact Hf|]. intros q [<-|Hq] Hne; [congruence|auto].
      * right. split; [exact Hf|]. split; [exact Hex|].
        exists (p :: before), after. split; [rewrite Hsplit at 1; reflexivity|].
        intros q [<-|Hq] Hne; [congruence|auto].
    + apply eqb_neq in E. destruct (path_exists p) eqn:X.
      * right. split; [exact E|]. split; [exact X|].
        exists [], paths. split; [reflexivity|]. intros q [].
      * destruct IH as [[Hf Hnone]|(Hf & Hex & before & after & Hsplit & Hnone)].
        -- left. split; [exact Hf|]. intros q [<-|Hq] Hne; [exact X|auto].
        -- right. split; [exact Hf|]. split; [exact Hex|].
           exists (p :: before), after. split; [rewrite Hsplit at 1; reflexivity|].
           intros q [<-|Hq] Hne; [exact X|auto].
Qed.

End FindFFmpeg.

(** ** [sendMediaWithRetry] *)

Section SendMediaFacts.

Variable send : nat -> option jsstring.

Lemma send_loop_sends (maxRetries rounds attempt : nat) :
  length (filter is_send (snd (send_loop send maxRetries rounds attempt)))
  <= rounds.
Proof.
  revert attempt. induction rounds as [|rounds IH]; intros attempt; simpl; [lia|].
  destruct (send attempt) as [msg|]; simpl; [|lia].
  destruct (session_crashed msg); simpl; [lia|].
  destruct (Nat.eqb attempt maxRetries); simpl; [lia|].
  specialize (IH (S attempt)). lia.
Qed.

Lemma send_loop_true (maxRetries rounds attempt : nat) :
  attempt + rounds = maxRetries + 1 ->
  fst (send_loop send maxRetries rounds attempt) = Ok true <->
  exists k, attempt <= k <= maxRetries /\ send k = None /\
            forall j, attempt <= j < k ->
                      exists msg, send j = Some msg /\ session_crashed msg = false.
Proof.
  revert attempt. induction rounds as [|rounds IH]; intros attempt Hinv; simpl.
  - split; [discriminate|]. intros (k & Hk & _). lia.
  - destruct (send attempt) as [msg|] eqn:Hsend; simpl.
    + destruct (session_crashed msg) eqn:C; simpl.
      * split; [discriminate|]. intros (k & Hk & Hs & Hj).
        destruct (Nat.eq_dec k attempt) as [->|Hne]; [congruence|].
        destruct (Hj attempt ltac:(lia)) as (m & Hm & Hc). congruence.
      * destruct (Nat.eqb attempt maxRetries) eqn:E; simpl.
        -- apply Nat.eqb_eq in E. split; [discriminate|].
           intros (k & Hk & Hs & _). assert (k = attempt) by lia. congruence.
        -- apply Nat.eqb_neq in E. rewrite (IH (S attempt)) by lia. split.
           ++ intros (k & Hk & Hs & Hj). exists k. split; [lia|]. split; [exact Hs|].
              intros j Hjr. destruct (Nat.eq_dec j attempt) as [->|Hne].
              ** exists msg. split; assumption.
              ** apply Hj. lia.
           ++ intros (k & Hk & Hs & Hj). exists k.
              assert (k <> attempt) by congruence.
              split; [lia|]. split; [exact Hs|]. intros j Hjr. apply Hj. lia.
    + split; [intros _|reflexivity]. exists attempt. split; [lia|].
      split; [exact Hsend|]. intros j Hj. lia.
Qed.

Lemma send_loop_false (maxRetries rounds attempt : nat) :
  attempt + rounds = maxRetries + 1 ->
  fst (send_loop send maxRetries rounds attempt) = Ok false <-> rounds = 0.
Proof.
  revert attempt. induction rounds as [|rounds IH]; intros attempt Hinv; simpl.
  - split; reflexivity.
  - split; [|discriminate].
    destruct (send attempt) as [msg|]; simpl; [|discriminate].
    destruct (session_crashed msg); simpl; [discriminate|].
    destruct (Nat.eqb attempt maxRetries) eqn:E; simpl; [discriminate|].
    apply Nat.eqb_neq in E. intros H.
    apply (IH (S attempt)) in H; lia.
Qed.

(** X9. The media is sent at most [maxRetries] times. The call gives [true]
    exactly when some attempt up to [maxRetries] goes through and every
    attempt before it failed without a crash of the session; it gives
    [false] only when [maxRetries] is 0. *)
Theorem sendMediaWithRetry_outcome (maxRetries : nat) :
  let r := sendMediaWithRetry send maxRetries in
  length (filter is_send (snd r)) <= maxRetries /\
  (fst r = Ok true <->
   exists k, 1 <= k <= maxRetries /\ send k = None /\
             forall j, 1 <= j < k ->
                       exists msg, send j = Some msg /\
                                   session_crashed msg = false) /\
  (fst r = Ok false <-> maxRetries = 0).
Proof.
  cbv zeta. unfold sendMediaWithRetry. split; [apply send_loop_sends|].
  split; [apply send_loop_true | apply send_loop_false]; lia.
Qed.

End SendMediaFacts.

(** A first failure is followed by a pause of two seconds and a second
    attempt; a crash of the session ends the call at once. *)
Example sendMediaWithRetry_second_attempt :
  sendMediaWithRetry
    (fun attempt => if Nat.eqb attempt 1 then Some (lit "Evaluation failed") else None)
    2
  = (Ok true,
     [RvSend 1; RvFailed 1 (lit "Evaluation failed"); RvWait 2000; RvSend 2]).
Proof. reflexivity. Qed.

Example sendMediaWithRetry_crash :
  sendMediaWithRetry (fun _ => Some (lit "Protocol error (Runtime.callFunctionOn)")) 2
  = (Throw (ExternalError (lit "Protocol error (Runtime.callFunctionOn)")),
     [RvSend 1; RvFailed 1 (lit "Protocol error (Runtime.callFunctionOn)")]).
Proof. reflexivity. Qed.

(** ** [fetchDBApi] *)

Section FetchDBFacts.

Variable Json : Type.
Variable fetch : nat -> FetchOutcome Json.

Lemma db_loop_fetches (maxRetries rounds attempt : nat) (lastError : option DbError) :
  length (filter (@is_db_fetch) (snd (db_loop fetch maxRetries rounds attempt lastError)))
  <= rounds.
Proof.
  revert attempt lastError.
  induction rounds as [|rounds IH]; intros attempt lastError; simpl; [lia|].
  assert (Hcatch : forall e,
             length (filter (@is_db_fetch)
                       (db_catch_wait maxRetries attempt ++
                        snd (db_loop fetch maxRetries rounds (S attempt) (Some e))))
             <= rounds).
  { intros e. unfold db_catch_wait. specialize (IH (S attempt) (Some e)).
    destruct (attempt <? maxRetries); simpl; exact IH. }
  destruct (fetch attempt) as [abort msg|status body]; simpl.
  - specialize (Hcatch (DbFetchError abort msg)). lia.
  - destruct (response_ok status); simpl.
    + destruct body as [msg|j]; simpl; [|lia].
      specialize (Hcatch (DbFetchError false msg)). lia.
    + destruct (retry_status status); simpl.
      * specialize (IH (S attempt) lastError). lia.
      * specialize (Hcatch (DbStatusError status)). lia.
Qed.

Lemma db_loop_json (maxRetries rounds attempt : nat) (lastError : option DbError)
      (j : Json) :
  attempt + rounds = maxRetries + 1 ->
  fst (db_loop fetch maxRetries rounds attempt lastError) = inr j <->
  exists k, attempt <= k <= maxRetries /\ fetch_json (fetch k) = Some j /\
            forall i, attempt <= i < k -> fetch_json (fetch i) = None.
Proof.
  revert attempt lastError.
  induction rounds as [|rounds IH]; intros attempt lastError Hinv; simpl.
  - split; [discriminate|]. intros (k & Hk & _). lia.
  - assert (Hnext : forall le,
               fetch_json (fetch attempt) = None ->
               fst (db_loop fetch maxRetries rounds (S attempt) le) = inr j <->
               exists k, attempt <= k <= maxRetries /\
                         fetch_json (fetch k) = Some j /\
                         forall i, attempt <= i < k -> fetch_json (fetch i) = None).
    { intros le Hnone. rewrite (IH (S attempt) le) by lia. split.
      - intros (k & Hk & Hs & Hi). exists k. split; [lia|]. split; [exact Hs|].
        intros i Hir. destruct (Nat.eq_dec i attempt) as [->|Hne];
          [exact Hnone | apply Hi; lia].
      - intros (k & Hk & Hs & Hi). exists k.
        assert (k <> attempt) by congruence.
        split; [lia|]. split; [exact Hs|]. intros i Hir. apply Hi. lia. }
    destruct (fetch attempt) as [abort msg|status body] eqn:F; simpl.
    + apply Hnext. reflexivity.
    + destruct (response_ok status) eqn:O; simpl.
      * destruct body as [msg|j'] eqn:B; simpl.
        -- apply Hnext. reflexivity.
        -- split.
           ++ intros H. injection H as ->. exists attempt. split; [lia|].
              split; [rewrite F; simpl; rewrite O; reflexivity|]. intros i Hi. lia.
           ++ intros (k & Hk & Hs & Hi).
              destruct (Nat.eq_dec k attempt) as [->|Hne].
              ** rewrite F in Hs. simpl in Hs. rewrite O in Hs. congruence.
              ** specialize (Hi attempt ltac:(lia)). rewrite F in Hi. simpl in Hi.
                 rewrite O in Hi. discriminate.
      * destruct (retry_status status); simpl;
          apply Hnext; simpl; rewrite O; destruct body; reflexivity.
Qed.

(** X10. The API is asked at most [maxRetries] times. The call gives the JSON
    of the first attempt, among the first [maxRetries], whose response
    is [ok] and parses -- whatever failed before, a rejected request, a
    time-out or any status -- and fails when there is none. *)
Theorem fetchDBApi_first_ok (maxRetries : nat) (j : Json) :
  let r := fetchDBApi fetch maxRetries in
  length (filter (@is_db_fetch) (snd r)) <= maxRetries /\
  (fst r = inr j <->
   exists k, 1 <= k <= maxRetries /\ fetch_json (fetch k) = Some j /\
             forall i, 1 <= i < k -> fetch_json (fetch i) = None).
Proof.
  cbv zeta. unfold fetchDBApi. split; [apply db_loop_fetches|].
  apply db_loop_json. lia.
Qed.

Lemma db_loop_busy (maxRetries rounds attempt : nat) (lastError : option DbError) :
  (forall i, attempt <= i < attempt + rounds -> fetch_busy (fetch i) = true) ->
  let r := db_loop fetch maxRetries rounds attempt lastError in
  fst r = inl (match lastError with Some e => e | None => DbUnavailable end) /\
  2 * list_sum (map db_wait_ms (snd r)) + 2000 * rounds
  = 2000 * rounds * (2 * attempt + rounds).
Proof.
  revert attempt. induction rounds as [|rounds IH]; intros attempt Hbusy; simpl.
  - split; [reflexivity | lia].
  - pose proof (Hbusy attempt ltac:(lia)) as Hb.
    destruct (fetch attempt) as [abort msg|status body]; simpl in Hb;
      [discriminate|].
    apply andb_true_iff in Hb. destruct Hb as [Hok Hretry].
    apply negb_true_iff in Hok. rewrite Hok, Hretry. simpl.
    destruct (IH (S attempt)) as [Hr Hw].
    { intros i Hi. apply Hbusy. lia. }
    cbv zeta in Hr, Hw. split; [exact Hr|]. nia.
Qed.

(** X11. When every attempt is answered by 500, 502, 503 or 504, the call
    fails with [DB API unavailable] after a pause behind every attempt,
    the last one too: [maxRetries * (maxRetries + 1)] seconds in all. *)
Theorem fetchDBApi_busy (maxRetries : nat) :
  (forall i, 1 <= i <= maxRetries -> fetch_busy (fetch i) = true) ->
  let r := fetchDBApi fetch maxRetries in
  fst r = inl DbUnavailable /\
  list_sum (map db_wait_ms (snd r)) = 1000 * maxRetries * (maxRetries + 1).
Proof.
  intros Hbusy. cbv zeta. unfold fetchDBApi.
  destruct (db_loop_busy maxRetries maxRetries 1 None) as [Hr Hw].
  { intros i Hi. apply Hbusy. lia. }
  cbv zeta in Hr, Hw. split; [exact Hr|]. nia.
Qed.

End FetchDBFacts.

Lemma fetchDBApi_busy_witness :
  let r := fetchDBApi (fun _ => FetchResponse 503 (inl (lit "") : jsstring + unit)) 3 in
  fst r = inl DbUnavailable /\
  list_sum (map (@db_wait_ms) (snd r)) = 1000 * 3 * (3 + 1).
Proof.
  apply (fetchDBApi_busy unit (fun _ => FetchResponse 503 (inl (lit ""))) 3).
  intros i _. reflexivity.
Defined.

(** The error of an earlier attempt is the one thrown when the later
    attempts were answered by 503; and a 404 is tried again. *)
Example fetchDBApi_stale_error :
  fetchDBApi
    (fun attempt => if Nat.eqb attempt 1
                    then FetchResponse 404 (inl (lit "") : jsstring + unit)
                    else FetchResponse 503 (inl (lit "")))
    2
  = (inl (DbStatusError 404), [DbFetch 1; DbWait 2000; DbFetch 2; DbWait 4000]).
Proof. reflexivity. Qed.

(** ** The other cache directory *)

Section Frame.

Variable d : Dir.

Lemma keeps_ret {A} (a : A) : keeps_listing d (ret a).
Proof. intros fs; reflexivity. Qed.

Lemma keeps_throw {A} (e : Error) : keeps_listing d (@throw A e).
Proof. intros fs; reflexivity. Qed.

Lemma keeps_emit (ev : Event) : keeps_listing d (emit ev).
Proof. intros fs; reflexivity. Qed.

Lemma keeps_console (m : Console) : keeps_listing d (console m).
Proof. intros fs; reflexivity. Qed.

Lemma keeps_bind_ok {A B} (m : M A) (k : A -> M B) :
  keeps_listing d m ->
  (forall fs a, result (m fs) = Ok a -> keeps_listing d (k a)) ->
  keeps_listing d (bind m k).
Proof.
  intros Hm Hk fs. rewrite fs_after_bind.
  destruct (result (m fs)) as [a|e] eqn:R; [|apply Hm].
  rewrite (Hk fs a R). apply Hm.
Qed.

Lemma keeps_bind {A B} (m : M A) (k : A -> M B) :
  keeps_listing d m -> (forall a, keeps_listing d (k a)) ->
  keeps_listing d (bind m k).
Proof. intros Hm Hk. apply keeps_bind_ok; [exact Hm | intros _ a _; apply Hk]. Qed.

Lemma keeps_try_catch {A} (m : M A) (h : Error -> M A) :
  keeps_listing d m -> (forall e, keeps_listing d (h e)) ->
  keeps_listing d (try_catch m h).
Proof.
  intros Hm Hh fs. unfold try_catch.
  destruct (result (m fs)) as [a|e]; simpl; [apply Hm|].
  rewrite Hh. apply Hm.
Qed.

Lemma keeps_try_finally {A} (m : M A) (c : M unit) :
  keeps_listing d m -> keeps_listing d c -> keeps_listing d (try_finally m c).
Proof. intros Hm Hc fs. unfold try_finally; simpl. rewrite Hc. apply Hm. Qed.

Lemma keeps_forEach {A} (l : list A) (f : A -> M unit) :
  (forall a, keeps_listing d (f a)) -> keeps_listing d (forEach l f).
Proof.
  intros Hf. induction l as [|x l IH]; simpl; [apply keeps_ret|].
  apply keeps_bind; [apply Hf | intros _; exact IH].
Qed.

Lemma keeps_existsSync (p : Path) : keeps_listing d (existsSync p).
Proof. intros fs; reflexivity. Qed.

Lemma keeps_readdirSync (d' : Dir) : keeps_listing d (readdirSync d').
Proof. intros fs; reflexivity. Qed.

Lemma keeps_statSync (p : Path) : keeps_listing d (statSync p).
Proof. intros fs. unfold statSync. destruct (lookup_path fs p); reflexivity. Qed.

Lemma keeps_unlinkSync (p : Path) : p_dir p <> d -> keeps_listing d (unlinkSync p).
Proof.
  intros Hp fs. unfold unlinkSync.
  destruct (lookup_path fs p); simpl; [|reflexivity].
  apply listing_set_other, Hp.
Qed.

Lemma keeps_renameSync (src dst : Path) :
  p_dir src <> d -> p_dir dst <> d -> keeps_listing d (renameSync src dst).
Proof.
  intros Hs Hd fs. unfold renameSync.
  destruct (lookup_path fs src); simpl; [|reflexivity].
  rewrite listing_set_other by exact Hd. apply listing_set_other, Hs.
Qed.

Variable env : Env.
Hypothesis Henv : env_keeps d env.

Lemma keeps_run_ffmpeg (job : FFmpegJob) :
  p_dir (job_output job) <> d -> keeps_listing d (run_ffmpeg env job).
Proof. intros Hj fs. unfold run_ffmpeg; simpl. apply Henv, Hj. Qed.

Lemma keeps_run_ytdlp (url format : jsstring) (output : Path) :
  p_dir output <> d -> keeps_listing d (run_ytdlp env url format output).
Proof. intros Ho fs. unfold run_ytdlp; simpl. apply Henv, Ho. Qed.

(** One step of a proof that a piece of the pipeline leaves the other
    directory alone. *)
Ltac keep_step :=
  first
    [ apply keeps_ret | apply keeps_throw | apply keeps_emit | apply keeps_console
    | apply keeps_existsSync | apply keeps_readdirSync | apply keeps_statSync
    | apply keeps_unlinkSync; assumption
    | apply keeps_renameSync; assumption
    | apply keeps_run_ffmpeg; assumption
    | apply keeps_run_ytdlp; assumption
    | apply keeps_bind; [|intros ?]
    | apply keeps_try_catch; [|intros ?]
    | apply keeps_forEach; intros ?
    | match goal with
      | |- keeps_listing _ (if ?b then _ else _) => destruct b
      | |- keeps_listing _ (match ?x with _ => _ end) => destruct x
      | |- keeps_listing _ (fun fs => ret _ fs) => intros ?; reflexivity
      end ].

Lemma convert_keeps (fileType : jsstring) (i o : Path) :
  p_dir o <> d -> keeps_listing d (convert env fileType i o).
Proof.
  intros Ho. unfold convert, convertToMp3, convertToMp4, convert_with.
  repeat keep_step.
Qed.

Lemma check_cached_target_keeps (filePath : Path) :
  p_dir filePath <> d -> keeps_listing d (check_cached_target filePath).
Proof. intros Hp. unfold check_cached_target. repeat keep_step. Qed.

Lemma use_cached_original_keeps (targetDir : Dir) (filePath : Path)
      (fileType : jsstring) (l : list jsstring) :
  targetDir <> d -> p_dir filePath <> d ->
  keeps_listing d (use_cached_original env targetDir filePath fileType l).
Proof.
  intros Ht Hp. unfold use_cached_original.
  assert (forall f, p_dir (path_join targetDir f) <> d) by (intros f; exact Ht).
  repeat first [apply convert_keeps; assumption | keep_step].
Qed.

Lemma remove_partial_downloads_keeps (targetDir : Dir) (b : jsstring) :
  targetDir <> d -> keeps_listing d (remove_partial_downloads targetDir b).
Proof.
  intros Ht. unfold remove_partial_downloads.
  assert (forall f, p_dir (path_join targetDir f) <> d) by (intros f; exact Ht).
  repeat keep_step.
Qed.

Lemma acquire_keeps (url : jsstring) (targetDir : Dir) (b fileType : jsstring) :
  targetDir <> d -> keeps_listing d (acquire env url targetDir b fileType).
Proof.
  intros Ht. unfold acquire.
  assert (p_dir (path_join targetDir b) <> d) by exact Ht.
  repeat keep_step.
Qed.

Lemma locate_download_dir (targetDir : Dir) (b : jsstring) (fs : FS) (dp : Path) :
  result (locate_download targetDir b fs) = Ok dp ->
  p_dir dp = targetDir /\ is_downloaded b (p_name dp) = true.
Proof.
  rewrite locate_download_eq.
  pose proof (sort_desc_head (mtime_in (listing fs targetDir))
                (downloadedFiles fs targetDir b)) as Hs.
  destruct (downloadedFiles fs targetDir b) as [|x r] eqn:D; [discriminate|].
  destruct (sort_desc _ _) as [|newest r']; [discriminate|].
  destruct (lookup_path fs (path_join targetDir newest)) as [e|]; [|discriminate].
  simpl. destruct (N.eqb (st_size (e_stats e)) 0); [discriminate|].
  intros H; injection H as <-. split; [reflexivity|]. simpl.
  destruct Hs as [Hin _]. rewrite <- D in Hin. unfold downloadedFiles in Hin.
  apply filter_In in Hin. apply Hin.
Qed.

Lemma deliver_download_keeps (filePath : Path) (fileType : jsstring) (dp : Path) :
  p_dir filePath <> d -> p_dir dp <> d ->
  keeps_listing d (deliver_download env filePath fileType dp).
Proof.
  intros Hp Hdp. unfold deliver_download.
  repeat first [apply convert_keeps; assumption | keep_step].
Qed.

Lemma download_fresh_keeps (url : jsstring) (targetDir : Dir)
      (b fileType : jsstring) (filePath : Path) :
  targetDir <> d -> p_dir filePath <> d ->
  keeps_listing d (download_fresh env url targetDir b fileType filePath).
Proof.
  intros Ht Hp. unfold download_fresh.
  apply keeps_bind; [apply remove_partial_downloads_keeps, Ht | intros _].
  apply keeps_bind; [apply acquire_keeps, Ht | intros _].
  apply keeps_bind_ok.
  - intros fs. apply (f_equal (fun x => listing x d)), locate_download_fs.
  - intros fs dp Hdp. apply locate_download_dir in Hdp. destruct Hdp as [Hdir _].
    apply deliver_download_keeps; [exact Hp | rewrite Hdir; exact Ht].
Qed.

Lemma download_video_keeps (url filename fileType : jsstring) :
  target_dir fileType <> d ->
  keeps_listing d (download_video env url filename fileType).
Proof.
  intros Ht. unfold download_video.
  assert (Hp : p_dir (target_path filename fileType) <> d) by exact Ht.
  repeat first [ apply check_cached_target_keeps; exact Hp
               | apply use_cached_original_keeps; assumption
               | apply download_fresh_keeps; assumption
               | keep_step ].
Qed.

Lemma command_dir_target (c : Command) :
  target_dir (command_fileType c) = command_dir c.
Proof. destruct c; reflexivity. Qed.

Lemma ytdl_handler_keeps (c : Command) (only_search : list jsstring) :
  command_dir c <> d -> keeps_listing d (ytdl_handler env c only_search).
Proof.
  intros Hc. unfold ytdl_handler.
  assert (forall f, p_dir (path_join (command_dir c) f) <> d) by (intros f; exact Hc).
  apply keeps_try_finally; [apply keeps_try_catch|].
  - unfold ytdl_try, chat_send, getYouTubeVideoInfo.
    repeat first [ apply download_video_keeps; rewrite command_dir_target; exact Hc
                 | keep_step ].
  - intros e. unfold ytdl_catch, chat_send. repeat keep_step.
  - unfold cleanup_partial_files. repeat keep_step.
Qed.

End Frame.

(** X12. A request for one kind leaves the cache directory of the other kind
    as it is, through the download, the conversion, the error message
    and the clean-up -- when the tools write only in the directory of
    the output path they are given. *)
Theorem other_directory_untouched (env : Env) (d : Dir) :
  env_keeps d env ->
  (forall url filename fileType,
      target_dir fileType <> d ->
      keeps_listing d (download_video env url filename fileType)) /\
  (forall c only_search,
      command_dir c <> d ->
      keeps_listing d (ytdl_handler env c only_search)).
Proof.
  intros Henv. split.
  - intros url filename fileType. apply download_video_keeps, Henv.
  - intros c only_search. apply ytdl_handler_keeps, Henv.
Qed.

Lemma env_convert_keeps (d : Dir) : env_keeps d Scenario.env_convert.
Proof.
  split.
  - intros url format output fs Ho. simpl. unfold Scenario.ytdlp_writes, fs_write.
    simpl. apply listing_set_other, Ho.
  - intros job fs Hj. simpl. unfold Scenario.ffmpeg_converts, fs_write.
    simpl. apply listing_set_other, Hj.
Qed.

Lemma other_directory_untouched_witness :
  env_keeps TEMP_DIR_MP3 Scenario.env_convert /\
  listing (fs_after (ytdl_handler Scenario.env_convert Ytdl4 [Scenario.url]
                                  Scenario.fs_mp4_in_audio)) TEMP_DIR_MP3
  = listing Scenario.fs_mp4_in_audio TEMP_DIR_MP3.
Proof.
  split; [apply env_convert_keeps|].
  apply (other_directory_untouched Scenario.env_convert TEMP_DIR_MP3
           (env_convert_keeps TEMP_DIR_MP3)).
  discriminate.
Defined.

(** ** The download (lines 985-1019) *)

Section Acquire.

Variable env : Env.

Lemma progress_log_run (l : list N) (fs : FS) :
  forEach l (fun percent =>
    if N.eqb percent 0 then ret tt else console (LogDownloadProgress percent)) fs
  = mkOut (Ok tt) fs
          (map (fun percent => EvConsole (LogDownloadProgress percent))
               (filter (fun percent => negb (N.eqb percent 0)) l)).
Proof.
  revert fs. induction l as [|p l IH]; intros fs; [reflexivity|].
  cbn [forEach filter]. unfold bind.
  destruct (N.eqb p 0); cbn; rewrite IH; reflexivity.
Qed.

Lemma acquire_eq (url : jsstring) (d : Dir) (b fileType : jsstring) (fs : FS) :
  let format := if ffmpegAvailable env then format_option fileType
                else lit "b[height<=?720]" in
  let r := ytdlp_downloadAsync env (trim url) format (path_join d b) fs in
  acquire env url d b fileType fs =
  mkOut (match yt_error (fst r) with
         | None => Ok tt
         | Some msg => Throw (DownloadFailed msg)
         end)
        (snd r)
        (EvConsole (LogStartingDownload b)
         :: EvConsole (LogUsingFormat (ffmpegAvailable env))
         :: EvYtdlpDownload (trim url) format (path_join d b)
         :: map (fun percent => EvConsole (LogDownloadProgress percent))
                (filter (fun percent => negb (N.eqb percent 0))
                        (yt_progress (fst r)))
         ++ [EvConsole (match yt_error (fst r) with
                        | None => LogDownloadCompleted
                        | Some msg => ErrYtdlp msg
                        end)]).
Proof.
  cbv zeta. unfold acquire.
  set (r := ytdlp_downloadAsync env (trim url) _ (path_join d b) fs).
  unfold bind, run_ytdlp, console, emit. cbn [result fs_after trace].
  fold r. rewrite progress_log_run. cbn [result fs_after trace].
  destruct (yt_error (fst r)); cbn [result fs_after trace app];
    rewrite ?app_nil_r; reflexivity.
Qed.

Lemma progress_events (P : Event -> bool) (l : list N) :
  (forall m, P (EvConsole m) = false) ->
  filter P (map (fun percent => EvConsole (LogDownloadProgress percent)) l) = [] /\
  existsb P (map (fun percent => EvConsole (LogDownloadProgress percent)) l) = false.
Proof.
  intros HP. induction l as [|p l [IH1 IH2]]; [split; reflexivity|].
  cbn [map filter existsb]. rewrite HP. split; assumption.
Qed.

(** X13. The download asks yt-dlp once, for the trimmed URL and the output
    base [targetDir/baseFilename]; the format asked for depends on the
    flag [ffmpegAvailable] alone, not on the file type. It fails with
    [Download failed] exactly when yt-dlp rejects, and it leaves the
    directories as yt-dlp left them. *)
Theorem acquire_outcome (url : jsstring) (d : Dir) (b fileType : jsstring)
        (fs : FS) :
  let format := if ffmpegAvailable env
                then lit "bv[height<=?720]+ba/b[height<=?720]"
                else lit "b[height<=?720]" in
  let r := ytdlp_downloadAsync env (trim url) format (path_join d b) fs in
  let o := acquire env url d b fileType fs in
  filter is_download (trace o) = [EvYtdlpDownload (trim url) format (path_join d b)] /\
  fs_after o = snd r /\
  result o = match yt_error (fst r) with
             | None => Ok tt
             | Some msg => Throw (DownloadFailed msg)
             end /\
  existsb is_transcode (trace o) = false.
Proof.
  cbv zeta.
  assert (Hf : (if ffmpegAvailable env then format_option fileType
                else lit "b[height<=?720]")
               = (if ffmpegAvailable env
                  then lit "bv[height<=?720]+ba/b[height<=?720]"
                  else lit "b[height<=?720]")).
  { unfold format_option. destruct (Js.eqb fileType (lit "mp3")); reflexivity. }
  pose proof (acquire_eq url d b fileType fs) as E. cbv zeta in E.
  rewrite Hf in E. rewrite E. cbn [result fs_after trace].
  clear E.
  match goal with
  | |- context [map _ ?l] =>
      destruct (progress_events is_download l (fun _ => eq_refl)) as [Hd _];
      destruct (progress_events is_transcode l (fun _ => eq_refl)) as [_ Ht]
  end.
  split; [|split; [reflexivity|split; [reflexivity|]]].
  - cbn [filter is_download]. f_equal.
    rewrite filter_app, Hd. reflexivity.
  - cbn [existsb is_transcode]. rewrite existsb_app, Ht. reflexivity.
Qed.

End Acquire.

(** ** What [download_video] returns *)

Section Outcome.

Variable env : Env.

Lemma startsWith_app (p r : jsstring) : startsWith (p ++ r) p = true.
Proof. apply startsWith_iff. exists r. reflexivity. Qed.

Lemma lookup_listed (fs : FS) (d : Dir) (n : jsstring) :
  In n (names_in fs d) -> exists e, lookup_path fs (path_join d n) = Some e.
Proof.
  intros Hin. unfold lookup_path. simpl.
  destruct (lookup (listing fs d) n) as [e|] eqn:E; [exists e; reflexivity|].
  apply lookup_None in E. contradiction.
Qed.

Lemma try_convert_result (fileType : jsstring) {A} (i o : Path) (good bad : A)
      (failure : Error -> Console) (fs : FS) :
  let c := try_catch (convert env fileType i o ;; ret good)
                     (fun error => console (failure error) ;; ret bad) fs in
  result c = Ok good \/ result c = Ok bad.
Proof.
  cbv zeta. destruct (result (convert env fileType i o fs)) as [p|err] eqn:R.
  - destruct (bind_after_ok (convert env fileType i o) (fun _ => ret good)
                fs p R) as (Hr & _ & _).
    rewrite (try_catch_ok _ _ _ good Hr). left. exact Hr.
  - destruct (bind_after_throw (convert env fileType i o) (fun _ => ret good)
                fs err R) as (Hr & _ & _).
    rewrite (try_catch_throw _ _ _ err Hr). right. reflexivity.
Qed.

Lemma locate_download_throw (d : Dir) (b : jsstring) (fs : FS) (e : Error) :
  result (locate_download d b fs) = Throw e ->
  e = FileNotCreated b \/ e = DownloadedFileEmpty.
Proof.
  rewrite locate_download_eq.
  pose proof (sort_desc_head (mtime_in (listing fs d)) (downloadedFiles fs d b))
    as Hs.
  destruct (downloadedFiles fs d b) as [|x r] eqn:D;
    [intros H; injection H as <-; left; reflexivity|].
  destruct (sort_desc _ _) as [|newest r'];
    [intros H; injection H as <-; left; reflexivity|].
  destruct Hs as [Hin _]. rewrite <- D in Hin. unfold downloadedFiles in Hin.
  apply filter_In in Hin. destruct Hin as [Hin _].
  destruct (lookup_listed fs d newest Hin) as [e0 ->]. simpl.
  destruct (N.eqb (st_size (e_stats e0)) 0); [|discriminate].
  intros H; injection H as <-. right. reflexivity.
Qed.

Lemma is_downloaded_prefix (b f : jsstring) :
  is_downloaded b f = true -> startsWith f b = true.
Proof.
  unfold is_downloaded. intros H.
  apply andb_true_iff in H. destruct H as [H _].
  apply andb_true_iff in H. apply H.
Qed.

Lemma is_cached_original_prefix (b f : jsstring) :
  is_cached_original b f = true -> startsWith f b = true.
Proof.
  unfold is_cached_original. intros H.
  repeat (apply andb_true_iff in H; destruct H as [H _]). exact H.
Qed.

Lemma deliver_download_outcome (filePath : Path) (fileType : jsstring)
      (dp : Path) (fs : FS) (e : Entry) :
  lookup_path fs dp = Some e ->
  result (deliver_download env filePath fileType dp fs) = Ok filePath \/
  result (deliver_download env filePath fileType dp fs) = Ok dp.
Proof.
  intros Hlook. rewrite deliver_download_eq.
  destruct (ffmpegAvailable env).
  - cbv zeta. cbn [result].
    apply (try_convert_result fileType dp filePath filePath dp
             ErrConversionFailedUsingOriginal fs).
  - destruct (_ && _).
    + left. cbv zeta. cbn [result]. unfold bind, renameSync.
      rewrite Hlook. reflexivity.
    + right. reflexivity.
Qed.

Lemma download_fresh_outcome (url : jsstring) (d : Dir) (b fileType : jsstring)
      (filePath : Path) (fs : FS) :
  download_outcome d b (Ok filePath) ->
  download_outcome d b (result (download_fresh env url d b fileType filePath fs)).
Proof.
  intros HP. unfold download_fresh.
  destruct (remove_partial_downloads_run d b fs) as (R & _ & _). cbv zeta in R.
  rewrite result_bind, R.
  rewrite result_bind.
  pose proof (acquire_eq env url d b fileType
                (fs_after (remove_partial_downloads d b fs))) as E.
  cbv zeta in E. rewrite E. cbn [result fs_after].
  destruct (yt_error _) as [msg|]; [left; exists msg; reflexivity|].
  rewrite result_bind.
  destruct (result (locate_download d b _)) as [dp|e] eqn:L.
  - destruct (locate_download_dir d b _ dp L) as [Hdir Hdl].
    destruct (locate_download_ok d b _ dp L) as (e & Hlook & _).
    rewrite locate_download_fs.
    destruct (deliver_download_outcome filePath fileType dp _ e Hlook)
      as [-> | ->]; [exact HP|].
    split; [exact Hdir | apply is_downloaded_prefix, Hdl].
  - destruct (locate_download_throw d b _ e L) as [-> | ->];
      [right; left | right; right]; reflexivity.
Qed.

Lemma use_cached_original_outcome (d : Dir) (filePath : Path)
      (fileType b : jsstring) (fs : FS) :
  let u := use_cached_original env d filePath fileType (cachedFiles fs d b) fs in
  result u = Ok None \/ result u = Ok (Some filePath) \/
  exists f0, result u = Ok (Some (path_join d f0)) /\ startsWith f0 b = true.
Proof.
  cbv zeta. destruct (cachedFiles fs d b) as [|f0 rest] eqn:C;
    [left; reflexivity|].
  assert (Hin : In f0 (cachedFiles fs d b)) by (rewrite C; left; reflexivity).
  unfold cachedFiles in Hin. apply filter_In in Hin. destruct Hin as [Hin Hc].
  destruct (lookup_listed fs d f0 Hin) as [e0 E0].
  rewrite (use_cached_original_eq env d filePath fileType f0 rest fs e0 E0).
  destruct (0 <? st_size (e_stats e0))%N; [|left; reflexivity].
  right. destruct (ffmpegAvailable env).
  - cbv zeta. cbn [result].
    destruct (try_convert_result fileType (path_join d f0) filePath
                (Some filePath) (Some (path_join d f0)) ErrConversionFailed fs)
      as [H | H]; [left; exact H|].
    right. exists f0. split; [exact H | apply is_cached_original_prefix, Hc].
  - right. exists f0. split; [reflexivity | apply is_cached_original_prefix, Hc].
Qed.

(** X14. Every path [download_video] returns lies in the cache directory of
    the file type and has a name that starts with the base file name;
    the only errors it lets through are [Download failed], [File not
    created] and [Downloaded file is empty]: a failed conversion or a
    file-system call never fails the call. *)
Theorem download_video_outcome (url filename fileType : jsstring) (fs : FS) :
  download_outcome (target_dir fileType) (remove_extension filename)
    (result (download_video env url filename fileType fs)).
Proof.
  assert (HP : download_outcome (target_dir fileType) (remove_extension filename)
                 (Ok (target_path filename fileType))).
  { split; [reflexivity|]. apply startsWith_app. }
  rewrite download_video_steps, result_bind, check_cached_target_run.
  assert (Hrest : forall fs1,
             download_outcome (target_dir fileType) (remove_extension filename)
               (result
                  (bind (use_cached_original env (target_dir fileType)
                           (target_path filename fileType) fileType
                           (cachedFiles fs1 (target_dir fileType)
                                        (remove_extension filename)))
                        (fun original =>
                           match original with
                           | Some p => ret p
                           | None =>
                               download_fresh env url (target_dir fileType)
                                 (remove_extension filename) fileType
                                 (target_path filename fileType)
                           end) fs1))).
  { intros fs1. rewrite result_bind.
    destruct (use_cached_original_outcome (target_dir fileType)
                (target_path filename fileType) fileType
                (remove_extension filename) fs1)
      as [-> | [-> | (f0 & -> & Hf0)]].
    - apply download_fresh_outcome, HP.
    - exact HP.
    - split; [reflexivity | exact Hf0]. }
  destruct (lookup_path fs (target_path filename fileType)) as [e|];
    [destruct (0 <? st_size (e_stats e))%N|]; cbn [result fs_after].
  - exact HP.
  - apply Hrest.
  - apply Hrest.
Qed.

End Outcome.

(** ** The cache checks of [download_video] *)

Section CacheChecks.

Variable env : Env.

Lemma target_path_sanitized (rawTitle : jsstring) (k : Kind) :
  target_path (sanitizeFilename rawTitle) (kind_fileType k)
  = canonical_path (sanitizeFilename rawTitle) k.
Proof.
  unfold target_path, canonical_path, cacheDir.
  rewrite remove_extension_sanitize. reflexivity.
Qed.

(** X15. A file of a size above 0 at the expected final path is returned at
    once: the two log lines of lines 930-931, no file touched, no tool
    called. *)
Theorem resolve_cache_hit (url rawTitle : jsstring) (k : Kind) (fs : FS)
        (e : Entry) :
  let P := canonical_path (sanitizeFilename rawTitle) k in
  lookup_path fs P = Some e ->
  (0 < st_size (e_stats e))%N ->
  resolve env url rawTitle k fs =
  mkOut (Ok P) fs [EvConsole (LogFoundCachedTarget P);
                   EvConsole (LogCacheSize (st_size (e_stats e)))].
Proof.
  cbv zeta. rewrite <- target_path_sanitized. intros Hlook Hsize.
  unfold resolve. apply download_video_cache_hit; assumption.
Qed.

Lemma check_cached_target_no_transcode (filePath : Path) :
  trace_avoids is_transcode (check_cached_target filePath).
Proof. unfold check_cached_target. repeat avoid_step. Qed.

(** The two cache checks when the final path is no hit and the scan
    finds [f0] first. *)
Lemma download_video_scan (url filename fileType : jsstring) (fs : FS)
      (f0 : jsstring) (rest : list jsstring) :
  let P := target_path filename fileType in
  let d := target_dir fileType in
  let b := remove_extension filename in
  let u := use_cached_original env d P fileType (f0 :: rest) (fs_remove fs P) in
  let k := fun original : option Path =>
             match original with
             | Some p => ret p
             | None => download_fresh env url d b fileType P
             end in
  (forall e0, lookup_path fs P = Some e0 -> st_size (e_stats e0) = 0%N) ->
  cachedFiles (fs_remove fs P) d b = f0 :: rest ->
  download_video env url filename fileType fs =
  mkOut (result (bind (fun _ => u) k (fs_remove fs P)))
        (fs_after (bind (fun _ => u) k (fs_remove fs P)))
        (trace (check_cached_target P fs)
         ++ trace (bind (fun _ => u) k (fs_remove fs P))).
Proof.
  cbv zeta. intros Hmiss Hscan.
  rewrite download_video_steps.
  destruct (check_cached_target_miss _ _ Hmiss) as [Rc Fc].
  unfold bind at 1. rewrite Rc, Fc, Hscan. reflexivity.
Qed.

(** X16. Without ffmpeg, an original of a size above 0 that the scan of the
    cache finds first is returned as it is: nothing is downloaded,
    nothing converted, and the directory is left as the check of the
    final path left it. *)
Theorem cached_original_without_ffmpeg (url filename fileType : jsstring)
        (fs : FS) (f0 : jsstring) (rest : list jsstring) (e : Entry) :
  let P := target_path filename fileType in
  let d := target_dir fileType in
  let b := remove_extension filename in
  let o := download_video env url filename fileType fs in
  ffmpegAvailable env = false ->
  (forall e0, lookup_path fs P = Some e0 -> st_size (e_stats e0) = 0%N) ->
  cachedFiles (fs_remove fs P) d b = f0 :: rest ->
  lookup_path (fs_remove fs P) (path_join d f0) = Some e ->
  (0 < st_size (e_stats e))%N ->
  result o = Ok (path_join d f0) /\
  fs_after o = fs_remove fs P /\
  existsb is_download (trace o) = false /\
  existsb is_transcode (trace o) = false.
Proof.
  cbv zeta. intros Hav Hmiss Hscan Hlook Hsize.
  pose proof (download_video_scan url filename fileType fs f0 rest Hmiss Hscan)
    as Ho. cbv zeta in Ho. rewrite Ho. clear Ho.
  unfold bind.
  rewrite (use_cached_original_eq env _ _ _ _ _ _ e Hlook).
  apply N.ltb_lt in Hsize. rewrite Hsize, Hav. cbn [result fs_after trace ret app].
  split; [reflexivity|]. split; [reflexivity|].
  rewrite !existsb_app, check_cached_target_no_download,
    check_cached_target_no_transcode.
  split; reflexivity.
Qed.

(** X17. An original of size 0 that the scan finds first is deleted, and the
    call goes on to a fresh download on the directory without it,
    whatever the other files of the scan are. *)
Theorem zero_byte_original_deleted_then_download
        (url filename fileType : jsstring) (fs : FS)
        (f0 : jsstring) (rest : list jsstring) (e : Entry) :
  let P := target_path filename fileType in
  let d := target_dir fileType in
  let b := remove_extension filename in
  let o := download_video env url filename fileType fs in
  let fs1 := fs_remove (fs_remove fs P) (path_join d f0) in
  let fresh := download_fresh env url d b fileType P fs1 in
  (forall e0, lookup_path fs P = Some e0 -> st_size (e_stats e0) = 0%N) ->
  cachedFiles (fs_remove fs P) d b = f0 :: rest ->
  lookup_path (fs_remove fs P) (path_join d f0) = Some e ->
  st_size (e_stats e) = 0%N ->
  result o = result fresh /\
  fs_after o = fs_after fresh /\
  trace o = trace (check_cached_target P fs)
            ++ EvUnlink (path_join d f0) :: trace fresh /\
  existsb is_download (trace fresh) = true.
Proof.
  cbv zeta. intros Hmiss Hscan Hlook Hsize.
  pose proof (download_video_scan url filename fileType fs f0 rest Hmiss Hscan)
    as Ho. cbv zeta in Ho. rewrite Ho. clear Ho.
  unfold bind at 1 2 3.
  rewrite (use_cached_original_eq env _ _ _ _ _ _ e Hlook), Hsize.
  cbn [N.ltb N.compare result fs_after trace app].
  split; [reflexivity|]. split; [reflexivity|]. split; [reflexivity|].
  unfold download_fresh.
  match goal with
  | |- context [bind (remove_partial_downloads ?d ?b) ?k ?fs0] =>
      destruct (remove_partial_downloads_run d b fs0) as (R & _ & _);
      cbv zeta in R;
      destruct (bind_after_ok (remove_partial_downloads d b) k fs0 tt R)
        as (_ & _ & ->)
  end.
  rewrite existsb_app, trace_bind.
  match goal with
  | |- context [acquire env ?u ?d ?b ?ft ?fs0] =>
      destruct (acquire_trace env u d b ft fs0) as [t ->]
  end.
  apply orb_true_iff. right.
  match goal with
  | |- existsb _ (match ?r with Ok _ => _ | Throw _ => _ end) = true =>
      destruct r
  end; reflexivity.
Qed.

End CacheChecks.

Lemma resolve_cache_hit_witness :
  let fs := mkFS [Scenario.file "My_Clip.mp4" 2048 2000] [] in
  let P := path_join TEMP_DIR_MP4 (lit "My_Clip.mp4") in
  resolve Scenario.env_convert Scenario.url Scenario.rawTitle VIDEO fs =
  mkOut (Ok P) fs [EvConsole (LogFoundCachedTarget P);
                   EvConsole (LogCacheSize 2048)].
Proof.
  cbv zeta.
  apply (resolve_cache_hit Scenario.env_convert Scenario.url Scenario.rawTitle
           VIDEO (mkFS [Scenario.file "My_Clip.mp4" 2048 2000] [])
           (Scenario.file "My_Clip.mp4" 2048 2000)).
  - reflexivity.
  - reflexivity.
Defined.

Lemma cached_original_without_ffmpeg_witness :
  let o := resolve Scenario.env_no_ffmpeg Scenario.url Scenario.rawTitle VIDEO
                   Scenario.fs_webm in
  result o = Ok (path_join TEMP_DIR_MP4 (lit "My_Clip.webm")) /\
  fs_after o = Scenario.fs_webm /\
  existsb is_download (trace o) = false /\
  existsb is_transcode (trace o) = false.
Proof.
  cbv zeta.
  apply (cached_original_without_ffmpeg Scenario.env_no_ffmpeg Scenario.url
           (sanitizeFilename Scenario.rawTitle) (lit "mp4") Scenario.fs_webm
           (lit "My_Clip.webm") [] (Scenario.file "My_Clip.webm" 4096 1000)).
  - reflexivity.
  - intros e0 H. discriminate H.
  - reflexivity.
  - reflexivity.
  - reflexivity.
Defined.

Lemma zero_byte_original_deleted_then_download_witness :
  let fs := mkFS [Scenario.file "My_Clip.webm" 0 10;
                  Scenario.file "My_Clip.mkv" 700 20] [] in
  let o := resolve Scenario.env_convert Scenario.url Scenario.rawTitle VIDEO fs in
  let fresh := download_fresh Scenario.env_convert Scenario.url TEMP_DIR_MP4
                 (lit "My_Clip") (lit "mp4")
                 (path_join TEMP_DIR_MP4 (lit "My_Clip.mp4"))
                 (mkFS [Scenario.file "My_Clip.mkv" 700 20] []) in
  result o = result fresh /\
  fs_after o = fs_after fresh /\
  trace o = EvUnlink (path_join TEMP_DIR_MP4 (lit "My_Clip.webm")) :: trace fresh /\
  existsb is_download (trace fresh) = true.
Proof.
  cbv zeta.
  apply (zero_byte_original_deleted_then_download Scenario.env_convert
           Scenario.url (sanitizeFilename Scenario.rawTitle) (lit "mp4")
           (mkFS [Scenario.file "My_Clip.webm" 0 10;
                  Scenario.file "My_Clip.mkv" 700 20] [])
           (lit "My_Clip.webm") [lit "My_Clip.mkv"]
           (Scenario.file "My_Clip.webm" 0 10)).
  - intros e0 H. discriminate H.
  - reflexivity.
  - reflexivity.
  - reflexivity.
Defined.

(** ** The handler of [!ytdl3] and [!ytdl4] *)

Section Handler.

Variable env : Env.

Lemma avoids_try_finally (P : Event -> bool) {A} (m : M A) (c : M unit) :
  trace_avoids P m -> trace_avoids P c -> trace_avoids P (try_finally m c).
Proof.
  intros Hm Hc fs. unfold try_finally. cbn [trace].
  rewrite existsb_app, Hm, Hc. reflexivity.
Qed.

Lemma cleanup_partial_files_result (d : Dir) (fs : FS) :
  result (cleanup_partial_files d fs) = Ok tt.
Proof.
  unfold cleanup_partial_files, try_catch.
  match goal with
  | |- context [match result ?o with Ok _ => _ | Throw _ => _ end] =>
      destruct (result o) as [[]|e] eqn:R
  end; [exact R | reflexivity].
Qed.

Lemma ytdl_handler_run (c : Command) (only_search : list jsstring) (fs : FS) :
  let attempt := try_catch (ytdl_try env c only_search) (ytdl_catch env) fs in
  result (ytdl_handler env c only_search fs) = result attempt /\
  trace (ytdl_handler env c only_search fs) =
    trace attempt ++ trace (cleanup_partial_files (command_dir c) (fs_after attempt)).
Proof.
  cbv zeta. unfold ytdl_handler, try_finally. cbn [result trace].
  rewrite cleanup_partial_files_result. split; reflexivity.
Qed.

Lemma ytdl_catch_run (e : Error) (fs : FS) :
  ytdl_catch env e fs =
  mkOut (match chat_sendMessage env (MsgError e) with
         | None => Ok tt
         | Some msg => Throw (ExternalError msg)
         end)
        fs [EvConsole (ErrDownloadingSending e); EvChat (MsgError e)].
Proof.
  unfold ytdl_catch, chat_send, bind, console, emit. cbn [result fs_after trace].
  destruct (chat_sendMessage env (MsgError e)); reflexivity.
Qed.

(** X18. Whatever fails in the [try] block is logged and reported to the
    chat, and the clean-up never fails: the handler fails only when the
    message that reports the error cannot be sent. *)
Theorem handler_reports_failure (c : Command) (only_search : list jsstring)
        (fs : FS) :
  let attempt := ytdl_try env c only_search fs in
  let o := ytdl_handler env c only_search fs in
  match result attempt with
  | Ok _ => result o = Ok tt
  | Throw e =>
      In (EvConsole (ErrDownloadingSending e)) (trace o) /\
      In (EvChat (MsgError e)) (trace o) /\
      result o = match chat_sendMessage env (MsgError e) with
                 | None => Ok tt
                 | Some msg => Throw (ExternalError msg)
                 end
  end.
Proof.
  cbv zeta.
  destruct (ytdl_handler_run c only_search fs) as [-> ->]. 
  destruct (result (ytdl_try env c only_search fs)) as [[]|e] eqn:R.
  - rewrite (try_catch_ok _ _ _ tt R). exact R.
  - rewrite (try_catch_throw _ _ _ e R), ytdl_catch_run. cbn [result fs_after trace].
    split; [|split; [|reflexivity]].
    + apply in_or_app. left. apply in_or_app. right. left. reflexivity.
    + apply in_or_app. left. apply in_or_app. right. right. left. reflexivity.
Qed.

Lemma invalid_url_try (c : Command) (arg : jsstring) (rest : list jsstring) :
  youtube_url arg = false ->
  ytdl_try env c (arg :: rest) = chat_send env MsgInvalidUrl.
Proof.
  unfold youtube_url, ytdl_try. intros H.
  destruct (Nat.eqb (length (trim arg)) 0); [reflexivity|].
  cbn [negb andb orb] in *.
  destruct (includes (trim arg) (lit "youtube.com")); [discriminate|].
  destruct (includes (trim arg) (lit "youtu.be")); [discriminate|].
  reflexivity.
Qed.

(** X19. An argument that, trimmed, is empty or contains neither
    [youtube.com] nor [youtu.be] is answered by the message on the
    invalid URL, before anything else; no video information is asked
    for, nothing is downloaded and nothing converted. *)
Theorem invalid_url_rejected (c : Command) (arg : jsstring)
        (rest : list jsstring) (fs : FS) :
  let o := ytdl_handler env c (arg :: rest) fs in
  youtube_url arg = false ->
  (exists t, trace o = EvChat MsgInvalidUrl :: t) /\
  existsb is_get_info (trace o) = false /\
  existsb is_download (trace o) = false /\
  existsb is_transcode (trace o) = false.
Proof.
  cbv zeta. intros Hurl. split.
  - destruct (ytdl_handler_run c (arg :: rest) fs) as [_ ->]. cbv zeta.
    rewrite (invalid_url_try c arg rest Hurl).
    unfold try_catch, chat_send, bind, emit. cbn [result fs_after trace].
    destruct (chat_sendMessage env MsgInvalidUrl); cbn [result fs_after trace app];
      eexists; reflexivity.
  - unfold ytdl_handler. rewrite (invalid_url_try c arg rest Hurl).
    repeat split.
    all: apply avoids_try_finally;
      [ apply avoids_try_catch;
        [|intros e; unfold ytdl_catch]; unfold chat_send; repeat avoid_step
      | unfold cleanup_partial_files; repeat avoid_step ].
Qed.

Lemma use_cached_original_no_transcode (d : Dir) (filePath : Path)
      (fileType : jsstring) (l : list jsstring) (P : Event -> bool) :
  ffmpegAvailable env = false ->
  (forall m, P (EvConsole m) = false) ->
  (forall p, P (EvUnlink p) = false) ->
  trace_avoids P (use_cached_original env d filePath fileType l).
Proof.
  intros Hav Hc Hu. unfold use_cached_original. rewrite Hav.
  destruct l as [|f0 rest]; [apply avoids_ret|].
  apply avoids_bind; [apply avoids_statSync | intros stats].
  destruct (0 <? st_size stats)%N.
  - apply avoids_bind; [apply avoids_console, Hc | intros _; apply avoids_ret].
  - apply avoids_bind; [apply avoids_unlinkSync, Hu | intros _; apply avoids_ret].
Qed.

Lemma download_video_premuxed (url filename fileType : jsstring)
      (P : Event -> bool) :
  ffmpegAvailable env = false ->
  P = is_transcode \/ P = asks_other_format (lit "b[height<=?720]") ->
  trace_avoids P (download_video env url filename fileType).
Proof.
  intros Hav HP. unfold download_video.
  apply avoids_bind;
    [destruct HP as [-> | ->]; unfold check_cached_target; repeat avoid_step|].
  intros [p|]; [apply avoids_ret|].
  apply avoids_bind; [apply avoids_readdirSync | intros names].
  apply avoids_bind;
    [apply use_cached_original_no_transcode;
     [exact Hav | | ]; destruct HP as [-> | ->]; reflexivity|].
  intros [p|]; [apply avoids_ret|].
  unfold download_fresh, remove_partial_downloads, acquire, locate_download,
    deliver_download.
  rewrite Hav.
  destruct HP as [-> | ->]; repeat avoid_step.
Qed.

(** X20. Without ffmpeg, a request never starts ffmpeg and never asks yt-dlp
    for anything but the combined format [b[height<=?720]], which needs
    no merge. *)
Theorem no_ffmpeg_no_transcode (c : Command) (only_search : list jsstring)
        (fs : FS) :
  let o := ytdl_handler env c only_search fs in
  ffmpegAvailable env = false ->
  existsb is_transcode (trace o) = false /\
  existsb (asks_other_format (lit "b[height<=?720]")) (trace o) = false.
Proof.
  cbv zeta. intros Hav.
  assert (H : forall P,
             P = is_transcode \/ P = asks_other_format (lit "b[height<=?720]") ->
             trace_avoids P (ytdl_handler env c only_search)).
  { intros P HP. unfold ytdl_handler.
    apply avoids_try_finally;
      [apply avoids_try_catch; [|intros e; unfold ytdl_catch, chat_send]
      |unfold cleanup_partial_files].
    - unfold ytdl_try, chat_send, getYouTubeVideoInfo.
      destruct only_search as [|arg rest]; [apply avoids_throw|].
      destruct (_ || _).
      + destruct HP as [-> | ->]; repeat avoid_step.
      + repeat first
          [ apply (download_video_premuxed _ _ _ P Hav HP)
          | apply avoids_bind; [|intros ?]
          | destruct HP as [-> | ->]; progress repeat avoid_step ].
    - destruct HP as [-> | ->]; repeat avoid_step.
    - destruct HP as [-> | ->]; repeat avoid_step. }
  split; apply H; [left | right]; reflexivity.
Qed.

End Handler.

Lemma no_ffmpeg_no_transcode_witness :
  let o := ytdl_handler Scenario.env_no_ffmpeg Ytdl4 [Scenario.url]
                        Scenario.fs_webm in
  existsb is_transcode (trace o) = false /\
  existsb (asks_other_format (lit "b[height<=?720]")) (trace o) = false.
Proof.
  cbv zeta.
  apply (no_ffmpeg_no_transcode Scenario.env_no_ffmpeg Ytdl4 [Scenario.url]
           Scenario.fs_webm).
  reflexivity.
Defined.

Lemma invalid_url_rejected_witness :
  let o := ytdl_handler Scenario.env_convert Ytdl3
             [lit "https://vimeo.com/12345"] Scenario.fs_partials in
  (exists t, trace o = EvChat MsgInvalidUrl :: t) /\
  existsb is_get_info (trace o) = false /\
  existsb is_download (trace o) = false /\
  existsb is_transcode (trace o) = false.
Proof.
  cbv zeta.
  apply (invalid_url_rejected Scenario.env_convert Ytdl3
           (lit "https://vimeo.com/12345") [] Scenario.fs_partials).
  reflexivity.
Defined.

(** ** The list of [!cache4] / [!cache3] and the choice of [!dl4] / [!dl3] *)

Section CacheCommands.

Lemma insert_desc_In (key : jsstring -> Z) (a x : jsstring) (l : list jsstring) :
  In x (insert_desc key a l) <-> x = a \/ In x l.
Proof.
  induction l as [|b l IH]; simpl.
  - intuition.
  - destruct (key b <=? key a)%Z; simpl; [intuition|]. rewrite IH. intuition.
Qed.

Lemma sort_desc_In (key : jsstring -> Z) (x : jsstring) (l : list jsstring) :
  In x (sort_desc key l) <-> In x l.
Proof.
  induction l as [|a l IH]; simpl; [reflexivity|].
  rewrite insert_desc_In, IH. intuition.
Qed.

Lemma insert_desc_length (key : jsstring -> Z) (a : jsstring) (l : list jsstring) :
  length (insert_desc key a l) = S (length l).
Proof.
  induction l as [|b l IH]; simpl; [reflexivity|].
  destruct (key b <=? key a)%Z; simpl; [reflexivity | rewrite IH; reflexivity].
Qed.

Lemma sort_desc_length (key : jsstring -> Z) (l : list jsstring) :
  length (sort_desc key l) = length l.
Proof.
  induction l as [|a l IH]; simpl; [reflexivity|].
  rewrite insert_desc_length, IH. reflexivity.
Qed.

Lemma insert_desc_newest_first (key : jsstring -> Z) (a : jsstring)
      (l : list jsstring) :
  newest_first key l -> newest_first key (insert_desc key a l).
Proof.
  induction l as [|b l IH]; simpl.
  - intros _. split; [intros b []| exact I].
  - intros [Hb Hl]. destruct (key b <=? key a)%Z eqn:E.
    + apply Z.leb_le in E. simpl. split; [|split; assumption].
      intros c [<-|Hc]; [exact E|]. specialize (Hb c Hc). lia.
    + apply Z.leb_gt in E. simpl. split; [|apply IH, Hl].
      intros c Hc. apply insert_desc_In in Hc. destruct Hc as [->|Hc];
        [lia | apply Hb, Hc].
Qed.

Lemma sort_desc_newest_first (key : jsstring -> Z) (l : list jsstring) :
  newest_first key (sort_desc key l).
Proof.
  induction l as [|a l IH]; simpl; [exact I|].
  apply insert_desc_newest_first, IH.
Qed.

(** X21. The list of [!cache4] / [!cache3], which [!dl4] / [!dl3] index,
    holds the names of the directory that end with the extension, all of
    them and as often as the directory has them, the newest first. *)
Theorem cache_listing_newest_first (d : Dir) (ext : jsstring) (fs : FS) :
  let files := cache_listing d ext fs in
  (forall f, In f files <-> In f (names_in fs d) /\ endsWith f ext = true) /\
  length files = length (filter (fun f => endsWith f ext) (names_in fs d)) /\
  newest_first (mtime_in (listing fs d)) files.
Proof.
  cbv zeta. unfold cache_listing. split; [|split].
  - intros f. rewrite sort_desc_In, filter_In. reflexivity.
  - apply sort_desc_length.
  - apply sort_desc_newest_first.
Qed.

Lemma digit_value_decimal (n : N) :
  (n < 10)%N -> digit_value 10 (48 + n) = Some (Z.of_N n).
Proof.
  intros H. unfold digit_value, between.
  assert (E : ((48 <=? 48 + n) && (48 + n <=? 57))%N = true).
  { apply andb_true_iff. split; apply N.leb_le; lia. }
  rewrite E.
  assert (L : (Z.of_N (48 + n) - 48 <? 10)%Z = true) by (apply Z.ltb_lt; lia).
  rewrite L. f_equal. lia.
Qed.

Lemma parse_digits_app_digit (acc : option Z) (s : jsstring) (n : N) :
  (n < 10)%N ->
  Forall (fun c => exists v, digit_value 10 c = Some v) s ->
  parse_digits 10 acc (s ++ [(48 + n)%N]) =
  Some (10 * match parse_digits 10 acc s with Some a => a | None => 0 end
        + Z.of_N n)%Z.
Proof.
  intros Hn Hs. revert acc. induction Hs as [|c s [v Hc] _ IH]; intros acc.
  - cbn [app parse_digits]. rewrite (digit_value_decimal n Hn). reflexivity.
  - cbn [app parse_digits]. rewrite Hc. apply IH.
Qed.

Lemma decimal_digits_parse (fuel : nat) (n : N) :
  (N.to_nat (N.log2 n) < fuel) ->
  Forall (fun c => exists v, digit_value 10 c = Some v) (decimal_digits fuel n) /\
  parse_digits 10 None (decimal_digits fuel n) = Some (Z.of_N n).
Proof.
  revert n. induction fuel as [|fuel IH]; intros n Hf; [lia|].
  cbn [decimal_digits]. destruct (n <? 10)%N eqn:E.
  - apply N.ltb_lt in E. split.
    + constructor; [|constructor]. exists (Z.of_N n). apply digit_value_decimal, E.
    + cbn [parse_digits]. rewrite (digit_value_decimal n E). f_equal; lia.
  - apply N.ltb_ge in E.
    assert (Hm : (n mod 10 < 10)%N) by (apply N.mod_lt; lia).
    destruct (IH (n / 10)%N) as [Hd Hp].
    { assert (N.log2 (n / 10) < N.log2 n)%N; [|lia].
      apply N.log2_lt_pow2; [apply N.div_str_pos; lia|].
      apply N.Div0.div_lt_upper_bound.
      destruct (N.log2_spec n ltac:(lia)) as [_ Hu].
      rewrite N.pow_succ_r' in Hu. lia. }
    split.
    + apply Forall_app. split; [exact Hd|].
      constructor; [|constructor]. exists (Z.of_N (n mod 10)).
      apply digit_value_decimal, Hm.
    + rewrite (parse_digits_app_digit None _ _ Hm Hd), Hp. f_equal.
      rewrite (N.div_mod n 10) at 3 by lia. lia.
Qed.

Lemma decimal_digit_code (c : N) :
  between 48 57 c = true ->
  is_space c = false /\ N.eqb c 45 = false /\ N.eqb c 43 = false /\
  N.eqb c 120 = false /\ N.eqb c 88 = false /\ N.eqb c hash = false.
Proof.
  unfold between, is_space, between, hash. intros H.
  apply andb_true_iff in H. destruct H as [Hlo Hhi].
  apply N.leb_le in Hlo, Hhi.
  repeat split;
    repeat (apply orb_false_iff; split);
    try (apply N.eqb_neq; lia);
    apply andb_false_iff;
    first [left; apply N.leb_gt; lia | right; apply N.leb_gt; lia].
Qed.

Lemma decimal_digits_codes (fuel : nat) (n : N) :
  Forall (fun c => between 48 57 c = true) (decimal_digits fuel n).
Proof.
  revert n. induction fuel as [|fuel IH]; intros n; [constructor|].
  cbn [decimal_digits].
  assert (Hd : forall m, (m < 10)%N -> between 48 57 (48 + m) = true).
  { intros m Hm. unfold between. apply andb_true_iff.
    split; apply N.leb_le; lia. }
  destruct (n <? 10)%N eqn:E.
  - apply N.ltb_lt in E. constructor; [apply Hd, E | constructor].
  - apply Forall_app. split; [apply IH|].
    constructor; [|constructor]. apply Hd, N.mod_lt. lia.
Qed.

Lemma parseInt_digits (s : jsstring) :
  Forall (fun c => between 48 57 c = true) s ->
  parseInt s = option_map (Z.mul 1) (parse_digits 10 None s).
Proof.
  intros Hs. unfold parseInt.
  destruct Hs as [|c0 s Hc0 Hs]; [reflexivity|].
  destruct (decimal_digit_code c0 Hc0) as (Hsp & Hm & Hp & _).
  cbn [trimStart]. rewrite Hsp, Hm, Hp. cbn [snd fst].
  destruct Hs as [|c1 s Hc1 Hs]; [reflexivity|].
  destruct (decimal_digit_code c1 Hc1) as (_ & _ & _ & Hx & HX & _).
  rewrite Hx, HX, andb_false_r. reflexivity.
Qed.

Lemma remove_first_hash_digits (s : jsstring) :
  Forall (fun c => between 48 57 c = true) s -> remove_first_hash s = s.
Proof.
  induction 1 as [|c s Hc _ IH]; [reflexivity|].
  destruct (decimal_digit_code c Hc) as (_ & _ & _ & _ & _ & Hh).
  cbn [remove_first_hash]. rewrite Hh, IH. reflexivity.
Qed.

Lemma parseInt_to_decimal (n : N) : parseInt (to_decimal n) = Some (Z.of_N n).
Proof.
  unfold to_decimal.
  rewrite parseInt_digits by apply decimal_digits_codes.
  destruct (decimal_digits_parse (S (N.to_nat (N.log2 n))) n) as [_ ->]; [lia|].
  cbn [option_map]. f_equal. lia.
Qed.

(** X22. The number a line of the list shows, given to [!dl4] / [!dl3] with
    its [#] or without, chooses the file of that line. *)
Theorem dl_choice_label (d : Dir) (ext : jsstring) (fs : FS) (i : nat)
        (f : jsstring) (rest : list jsstring) :
  nth_error (cache_listing d ext fs) i = Some f ->
  dl_choice d ext (cache_label i :: rest) fs = DlFile f /\
  dl_choice d ext (to_decimal (N.of_nat i + 1) :: rest) fs = DlFile f.
Proof.
  intros Hnth.
  assert (Hi : i < length (cache_listing d ext fs))
    by (apply nth_error_Some; congruence).
  assert (H : forall arg,
             remove_first_hash arg = to_decimal (N.of_nat i + 1) ->
             dl_choice d ext (arg :: rest) fs = DlFile f).
  { intros arg Harg. unfold dl_choice. rewrite Harg, parseInt_to_decimal.
    cbv zeta.
    replace (Z.of_N (N.of_nat i + 1) - 1)%Z with (Z.of_nat i) by lia.
    assert (E1 : (Z.of_nat i <? 0)%Z = false) by (apply Z.ltb_ge; lia).
    assert (E2 : (Z.of_nat (length (cache_listing d ext fs)) <=? Z.of_nat i)%Z
                 = false) by (apply Z.leb_gt; lia).
    rewrite E1, E2, Nat2Z.id. cbn [orb]. f_equal.
    apply nth_error_nth, Hnth. }
  split; apply H.
  - unfold cache_label. cbn [lit app]. reflexivity.
  - apply remove_first_hash_digits, decimal_digits_codes.
Qed.

Lemma dl_choice_parsed (d : Dir) (ext arg : jsstring) (rest : list jsstring)
      (fs : FS) (n : N) :
  parseInt (remove_first_hash arg) = Some (Z.of_N n) ->
  dl_choice d ext (arg :: rest) fs =
  if (1 <=? N.to_nat n) && (N.to_nat n <=? length (cache_listing d ext fs))
  then DlFile (nth (N.to_nat n - 1) (cache_listing d ext fs) [])
  else DlInvalidNumber (length (cache_listing d ext fs)).
Proof.
  intros Hp. unfold dl_choice. rewrite Hp. cbv zeta.
  destruct (1 <=? N.to_nat n) eqn:E1; cbn [andb].
  - apply Nat.leb_le in E1.
    assert (L : (Z.of_N n - 1 <? 0)%Z = false) by (apply Z.ltb_ge; lia).
    rewrite L. cbn [orb].
    replace (Z.to_nat (Z.of_N n - 1)) with (N.to_nat n - 1) by lia.
    destruct (N.to_nat n <=? length (cache_listing d ext fs)) eqn:E2.
    + apply Nat.leb_le in E2.
      assert (G : (Z.of_nat (length (cache_listing d ext fs)) <=? Z.of_N n - 1)%Z
                  = false) by (apply Z.leb_gt; lia).
      rewrite G. reflexivity.
    + apply Nat.leb_gt in E2.
      assert (G : (Z.of_nat (length (cache_listing d ext fs)) <=? Z.of_N n - 1)%Z
                  = true) by (apply Z.leb_le; lia).
      rewrite G. reflexivity.
  - apply Nat.leb_gt in E1.
    assert (L : (Z.of_N n - 1 <? 0)%Z = true) by (apply Z.ltb_lt; lia).
    rewrite L. reflexivity.
Qed.

Lemma parseInt_word (c : N) (s : jsstring) :
  is_space c = false -> N.eqb c 45 = false -> N.eqb c 43 = false ->
  digit_value 10 c = None ->
  parseInt (c :: s) = None.
Proof.
  intros Hs Hm Hp Hd. unfold parseInt. cbn [trimStart]. rewrite Hs, Hm, Hp.
  cbn [snd fst].
  assert (H0 : N.eqb c 48 = false).
  { destruct (N.eqb c 48) eqn:E; [|reflexivity].
    apply N.eqb_eq in E. subst c. discriminate Hd. }
  destruct s as [|c1 s]; cbn [fst snd parse_digits]; rewrite ?H0;
    cbn [andb fst snd parse_digits]; rewrite Hd; reflexivity.
Qed.

(** X23. The answer of [!dl4] / [!dl3] to its argument.  A decimal
    number [n], with its [#] or without, chooses the [n]-th file of the
    list when [1 <= n <= length] and is answered with the length of the
    list otherwise; no argument, and an argument that starts with a
    character other than [#], white space, a sign or a digit, are
    answered by [Please provide a valid number]; and whatever the
    argument, a file that is chosen is a file of the cache directory of
    the command whose name ends with the extension. *)
Theorem dl_choice_listed (d : Dir) (ext : jsstring) (fs : FS)
        (rest : list jsstring) :
  let files := cache_listing d ext fs in
  let answer (n : N) :=
    if (1 <=? N.to_nat n) && (N.to_nat n <=? length files)
    then DlFile (nth (N.to_nat n - 1) files [])
    else DlInvalidNumber (length files) in
  (forall n, dl_choice d ext (to_decimal n :: rest) fs = answer n /\
             dl_choice d ext ((hash :: to_decimal n) :: rest) fs = answer n) /\
  dl_choice d ext [] fs = DlNotANumber /\
  (forall c s, N.eqb c hash = false -> is_space c = false ->
               N.eqb c 45 = false -> N.eqb c 43 = false ->
               digit_value 10 c = None ->
               dl_choice d ext ((c :: s) :: rest) fs = DlNotANumber) /\
  (forall only_search,
      match dl_choice d ext only_search fs with
      | DlFile f => In f (names_in fs d) /\ endsWith f ext = true
      | DlInvalidNumber count =>
          count = length (filter (fun f => endsWith f ext) (names_in fs d))
      | DlNotANumber => True
      end).
Proof.
  cbv zeta. split; [|split; [|split]].
  - intros n. split; apply dl_choice_parsed.
    + rewrite remove_first_hash_digits by apply decimal_digits_codes.
      apply parseInt_to_decimal.
    + cbn [remove_first_hash]. rewrite N.eqb_refl. apply parseInt_to_decimal.
  - reflexivity.
  - intros c s Hh Hs Hm Hp Hd. unfold dl_choice.
    cbn [remove_first_hash]. rewrite Hh.
    rewrite (parseInt_word c _ Hs Hm Hp Hd). reflexivity.
  - intros only_search. unfold dl_choice.
    destruct (parseInt _) as [n|]; [|exact I]. cbv zeta.
    destruct ((n - 1 <? 0)%Z || _) eqn:E.
    + unfold cache_listing. apply sort_desc_length.
    + apply orb_false_iff in E. destruct E as [E1 E2].
      apply Z.ltb_ge in E1. apply Z.leb_gt in E2.
      assert (Hin : In (nth (Z.to_nat (n - 1)) (cache_listing d ext fs) [])
                       (cache_listing d ext fs)) by (apply nth_In; lia).
      unfold cache_listing in Hin at 2. apply sort_desc_In, filter_In in Hin.
      exact Hin.
Qed.

End CacheCommands.

Lemma dl_choice_label_witness :
  let fs := mkFS [Scenario.file "Old.mp4" 10 100; Scenario.file "Note.txt" 1 300;
                  Scenario.file "New.mp4" 20 200] [] in
  nth_error (cache_listing TEMP_DIR_MP4 (lit ".mp4") fs) 1 = Some (lit "Old.mp4") /\
  dl_choice TEMP_DIR_MP4 (lit ".mp4") [lit "#2"] fs = DlFile (lit "Old.mp4") /\
  dl_choice TEMP_DIR_MP4 (lit ".mp4") [lit "2"] fs = DlFile (lit "Old.mp4").
Proof.
  cbv zeta. split; [reflexivity|].
  apply (dl_choice_label TEMP_DIR_MP4 (lit ".mp4")
           (mkFS [Scenario.file "Old.mp4" 10 100; Scenario.file "Note.txt" 1 300;
                  Scenario.file "New.mp4" 20 200] [])
           1 (lit "Old.mp4") []).
  reflexivity.
Defined.

(** [parseInt] reads a prefix: [2nd] is 2 and [0x2] is 2; a number
    below 1 or above the length of the list, and a word, choose no
    file. *)
Example dl_choice_arguments :
  let fs := mkFS [Scenario.file "Old.mp4" 10 100; Scenario.file "New.mp4" 20 200]
                 [] in
  map (fun arg => dl_choice TEMP_DIR_MP4 (lit ".mp4") arg fs)
      [[lit "1"]; [lit "#2nd"]; [lit "0x2"]; [lit "0"]; [lit "-1"]; [lit "3"];
       [lit "two"]; []]
  = [DlFile (lit "New.mp4"); DlFile (lit "Old.mp4"); DlFile (lit "Old.mp4");
     DlInvalidNumber 2; DlInvalidNumber 2; DlInvalidNumber 2;
     DlNotANumber; DlNotANumber].
Proof. reflexivity. Qed.

(** ** The output base given to yt-dlp *)

Section OutputBase.

Variable env : Env.

Lemma sanitizeFilename_plain (s : jsstring) : plain_name (sanitizeFilename s) = true.
Proof.
  unfold plain_name. apply andb_true_iff. split.
  - apply forallb_forall. intros c Hc.
    pose proof (sanitizeFilename_chars s) as H.
    rewrite Forall_forall in H. apply H, Hc.
  - apply Nat.leb_le, sanitizeFilename_length.
Qed.

Lemma dir_eqb_refl (d : Dir) : dir_eqb d d = true.
Proof. destruct d; reflexivity. Qed.

Lemma download_video_output_base (url rawTitle fileType : jsstring) :
  trace_avoids (downloads_elsewhere (target_dir fileType))
               (download_video env url (sanitizeFilename rawTitle) fileType).
Proof.
  assert (Hev : forall u f,
             downloads_elsewhere (target_dir fileType)
               (EvYtdlpDownload u f
                  (path_join (target_dir fileType)
                             (remove_extension (sanitizeFilename rawTitle))))
             = false).
  { intros u f. cbn [downloads_elsewhere path_join p_dir p_name].
    rewrite remove_extension_sanitize, dir_eqb_refl, sanitizeFilename_plain.
    reflexivity. }
  unfold download_video, check_cached_target, use_cached_original,
    download_fresh, remove_partial_downloads, acquire, locate_download,
    deliver_download, convert, convertToMp3, convertToMp4, convert_with.
  repeat first [ apply avoids_run_ytdlp; apply Hev | avoid_step ].
Qed.

(** X24. Whatever title the video has, the base file name the handler
    joins to the cache directory as the output base of yt-dlp has 100
    characters at most, all of them word characters or hyphens: no dot,
    no slash, no backslash.  When that name is not empty, the output
    base is therefore a file of the cache directory of the command.
    (The name is empty for a title without a word character, a space or
    a hyphen: [empty_output_base]; [path.join] then gives the directory
    itself, which is outside this statement.) *)
Theorem download_output_plain (c : Command) (only_search : list jsstring)
        (fs : FS) (u f : jsstring) (o : Path) :
  In (EvYtdlpDownload u f o) (trace (ytdl_handler env c only_search fs)) ->
  Forall (fun ch => is_word ch || N.eqb ch hyphen = true) (p_name o) /\
  length (p_name o) <= 100 /\
  (p_name o <> [] -> p_dir o = command_dir c).
Proof.
  intros Hin.
  assert (H : trace_avoids (downloads_elsewhere (command_dir c))
                           (ytdl_handler env c only_search)).
  { unfold ytdl_handler.
    apply avoids_try_finally;
      [apply avoids_try_catch; [|intros e; unfold ytdl_catch, chat_send]
      |unfold cleanup_partial_files]; [|repeat avoid_step..].
    unfold ytdl_try, chat_send, getYouTubeVideoInfo.
    rewrite <- command_dir_target.
    repeat first [ apply download_video_output_base | avoid_step ]. }
  specialize (H fs).
  assert (Hev : downloads_elsewhere (command_dir c) (EvYtdlpDownload u f o) = false).
  { destruct (downloads_elsewhere (command_dir c) (EvYtdlpDownload u f o)) eqn:E;
      [|reflexivity].
    assert (X : existsb (downloads_elsewhere (command_dir c))
                        (trace (ytdl_handler env c only_search fs)) = true)
      by (apply existsb_exists; eexists; split; [exact Hin | exact E]).
    congruence. }
  cbn [downloads_elsewhere] in Hev. apply negb_false_iff in Hev.
  apply andb_true_iff in Hev. destruct Hev as [Hd Hp].
  unfold plain_name in Hp. apply andb_true_iff in Hp. destruct Hp as [Hc Hl].
  split; [|split].
  - apply Forall_forall. rewrite forallb_forall in Hc. exact Hc.
  - apply Nat.leb_le, Hl.
  - intros _. destruct (p_dir o), (command_dir c); simpl in Hd; congruence.
Qed.

End OutputBase.

Lemma download_output_plain_witness :
  let o := path_join TEMP_DIR_MP4 (lit "My_Clip") in
  In (EvYtdlpDownload Scenario.url (lit "bv[height<=?720]+ba/b[height<=?720]") o)
     (trace (ytdl_handler Scenario.env_convert Ytdl4 [Scenario.url]
                          Scenario.fs_empty)) /\
  Forall (fun ch => is_word ch || N.eqb ch hyphen = true) (p_name o) /\
  length (p_name o) <= 100 /\
  p_dir o = TEMP_DIR_MP4.
Proof.
  cbv zeta.
  assert (Hin : In (EvYtdlpDownload Scenario.url
                      (lit "bv[height<=?720]+ba/b[height<=?720]")
                      (path_join TEMP_DIR_MP4 (lit "My_Clip")))
                   (trace (ytdl_handler Scenario.env_convert Ytdl4 [Scenario.url]
                                        Scenario.fs_empty))).
  { vm_compute. do 5 right. left. reflexivity. }
  split; [exact Hin|].
  destruct (download_output_plain Scenario.env_convert Ytdl4 [Scenario.url]
              Scenario.fs_empty _ _ _ Hin) as (Hc & Hl & Hd).
  split; [exact Hc|]. split; [exact Hl|]. apply Hd. discriminate.
Defined.

(** A title of punctuation, or of characters outside ASCII ([U+65E5
    U+672C U+8A9E]), is not falsy and sanitizes to the empty name: the
    output base of yt-dlp is then [path.join(targetDir, "")], the cache
    directory itself. *)
Example empty_output_base :
  sanitizeFilename (title_or_default (Some (lit "?!"))) = [] /\
  sanitizeFilename (title_or_default (Some [26085; 26412; 35486]%N)) = [] /\
  sanitizeFilename (title_or_default (Some [])) = lit "video" /\
  In (EvYtdlpDownload Scenario.url (lit "bv[height<=?720]+ba/b[height<=?720]")
        (path_join TEMP_DIR_MP4 []))
     (trace (ytdl_handler
               (mkEnv true (Scenario.ytdlp_writes (lit ".webm") (mkStats 4096 1000))
                      (Scenario.ffmpeg_converts (mkStats 2048 2000))
                      (fun _ => inr (Some (lit "?!"))) (fun _ => None)
                      (fun _ _ => None))
               Ytdl4 [Scenario.url] Scenario.fs_empty)).
Proof.
  split; [reflexivity|]. split; [reflexivity|]. split; [reflexivity|].
  vm_compute. do 5 right. left. reflexivity.
Qed.

(** ** The files [download_video] takes away *)

Section Removals.

Variable env : Env.






End Removals.

(** Without ffmpeg, for the title [My_Clip], the newer file
    [My_Clip_old.mp4] of another title is located in place of the
    download and renamed to [My_Clip.mp4]. *)
Example longer_title_renamed :
  let fs := mkFS [Scenario.file "My_Clip_old.mp4" 900 5000] [] in
  let o := download_video Scenario.env_no_ffmpeg Scenario.url (lit "My_Clip")
             (lit "mp4") fs in
  In (EvRename (path_join TEMP_DIR_MP4 (lit "My_Clip_old.mp4"))
               (path_join TEMP_DIR_MP4 (lit "My_Clip.mp4")))
     (trace o) /\
  result o = Ok (path_join TEMP_DIR_MP4 (lit "My_Clip.mp4")) /\
  names_in (fs_after o) TEMP_DIR_MP4 = [lit "My_Clip.MP4"; lit "My_Clip.mp4"].
Proof.
  cbv zeta. split; [|split; reflexivity].
  vm_compute. repeat first [left; reflexivity | right].
Qed.

(** ** The file behind the path [download_video] returns *)

Section Returned.

Variable env : Env.
Hypothesis Hffmpeg : ffmpeg_success_writes_output env.

Lemma deliver_download_valid (filePath : Path) (fileType : jsstring)
      (dp : Path) (fs : FS) (e : Entry) (p : Path) :
  lookup_path fs dp = Some e ->
  st_size (e_stats e) <> 0%N ->
  let v := deliver_download env filePath fileType dp fs in
  result v = Ok p ->
  existsb is_conversion_failure (trace v) = false ->
  valid_at (fs_after v) p.
Proof.
  intros Hlook Hsize. cbv zeta. intros Hres Hnf.
  destruct (path_eqb p filePath) eqn:E.
  - apply path_eqb_eq in E. subst p.
    exact (deliver_download_leaves_target env Hffmpeg filePath fileType dp fs e
             Hlook Hsize Hres Hnf).
  - assert (Hne : p <> filePath)
      by (intros ->; rewrite (proj2 (path_eqb_eq filePath filePath) eq_refl) in E;
          discriminate).
    revert Hres Hnf. rewrite deliver_download_eq.
    destruct (ffmpegAvailable env).
    + cbv zeta. cbn [result fs_after trace existsb is_conversion_failure orb].
      intros Hres Hnf.
      destruct (try_convert env Hffmpeg fileType dp filePath filePath dp
                  ErrConversionFailedUsingOriginal fs (fun _ => eq_refl) Hnf)
        as [Hr _].
      rewrite Hr in Hres. injection Hres as <-. contradiction.
    + destruct (_ && _).
      * cbv zeta. cbn [result]. unfold bind, renameSync. rewrite Hlook.
        cbn [result]. intros Hres. injection Hres as <-. contradiction.
      * cbn [result fs_after]. intros Hres _. injection Hres as <-.
        exists e. split; [exact Hlook | lia].
Qed.

Lemma download_fresh_valid (url : jsstring) (d : Dir) (b fileType : jsstring)
      (filePath : Path) (fs : FS) (p : Path) :
  let o := download_fresh env url d b fileType filePath fs in
  result o = Ok p ->
  existsb is_conversion_failure (trace o) = false ->
  valid_at (fs_after o) p.
Proof.
  cbv zeta. unfold download_fresh.
  destruct (remove_partial_downloads_run d b fs) as (R & _ & _). cbv zeta in R.
  destruct (bind_after_ok (remove_partial_downloads d b)
              (fun _ => acquire env url d b fileType ;;
                        downloadedPath <- locate_download d b ;;
                        deliver_download env filePath fileType downloadedPath)
              fs tt R) as (-> & -> & ->).
  set (fs1 := fs_after (remove_partial_downloads d b fs)).
  destruct (result (acquire env url d b fileType fs1)) as [[]|err] eqn:A.
  - destruct (bind_after_ok (acquire env url d b fileType)
                (fun _ => downloadedPath <- locate_download d b ;;
                          deliver_download env filePath fileType downloadedPath)
                fs1 tt A) as (-> & -> & ->).
    set (fs2 := fs_after (acquire env url d b fileType fs1)).
    destruct (result (locate_download d b fs2)) as [dp|err] eqn:L.
    + destruct (bind_after_ok (locate_download d b)
                  (fun x => deliver_download env filePath fileType x)
                  fs2 dp L) as (-> & -> & ->).
      rewrite locate_download_fs.
      destruct (locate_download_ok d b fs2 dp L) as (e & Hlook & Hsize).
      intros Hres Hnf. rewrite !existsb_app in Hnf.
      apply orb_false_iff in Hnf. destruct Hnf as [_ Hnf].
      apply orb_false_iff in Hnf. destruct Hnf as [_ Hnf].
      apply orb_false_iff in Hnf. destruct Hnf as [_ Hnf].
      exact (deliver_download_valid filePath fileType dp fs2 e p Hlook Hsize
               Hres Hnf).
    + destruct (bind_after_throw (locate_download d b)
                  (fun x => deliver_download env filePath fileType x)
                  fs2 err L) as (-> & _ & _).
      discriminate.
  - destruct (bind_after_throw (acquire env url d b fileType)
                (fun _ => downloadedPath <- locate_download d b ;;
                          deliver_download env filePath fileType downloadedPath)
                fs1 err A) as (-> & _ & _).
    discriminate.
Qed.

Lemma use_cached_original_valid (d : Dir) (filePath : Path)
      (fileType b : jsstring) (fs : FS) (p : Path) :
  let u := use_cached_original env d filePath fileType (cachedFiles fs d b) fs in
  result u = Ok (Some p) ->
  existsb is_conversion_failure (trace u) = false ->
  valid_at (fs_after u) p.
Proof.
  cbv zeta. destruct (cachedFiles fs d b) as [|f0 rest] eqn:C; [discriminate|].
  assert (Hin : In f0 (cachedFiles fs d b)) by (rewrite C; left; reflexivity).
  unfold cachedFiles in Hin. apply filter_In in Hin. destruct Hin as [Hin _].
  destruct (lookup_listed fs d f0 Hin) as [e0 E0].
  rewrite (use_cached_original_eq env d filePath fileType f0 rest fs e0 E0).
  destruct (0 <? st_size (e_stats e0))%N eqn:Z; [|discriminate].
  apply N.ltb_lt in Z.
  destruct (ffmpegAvailable env).
  - cbv zeta. cbn [result fs_after trace existsb is_conversion_failure orb].
    intros Hres Hnf.
    destruct (try_convert env Hffmpeg fileType (path_join d f0) filePath
                (Some filePath) (Some (path_join d f0)) ErrConversionFailed fs
                (fun _ => eq_refl) Hnf) as [Hr Hv].
    rewrite Hr in Hres. injection Hres as <-. exact Hv.
  - cbn [result fs_after]. intros Hres _. injection Hres as <-.
    exists e0. split; [exact E0 | exact Z].
Qed.

(** X26. When no conversion failed, the path [download_video] returns is the
    path of a file that is there and is not empty -- the final path or
    not --, ffmpeg leaving a file that is not empty at its output path
    when it exits with code 0. *)
Theorem returned_file_is_valid (url filename fileType : jsstring) (fs : FS)
        (p : Path) :
  let o := download_video env url filename fileType fs in
  result o = Ok p ->
  existsb is_conversion_failure (trace o) = false ->
  valid_at (fs_after o) p.
Proof.
  cbv zeta. rewrite download_video_steps.
  set (P := target_path filename fileType).
  set (d := target_dir fileType).
  set (b := remove_extension filename).
  assert (Hrest : forall fs1,
             let r := bind (use_cached_original env d P fileType
                              (cachedFiles fs1 d b))
                           (fun original =>
                              match original with
                              | Some p0 => ret p0
                              | None => download_fresh env url d b fileType P
                              end) fs1 in
             result r = Ok p ->
             existsb is_conversion_failure (trace r) = false ->
             valid_at (fs_after r) p).
  { intros fs1. cbv zeta.
    destruct (result (use_cached_original env d P fileType (cachedFiles fs1 d b)
                                          fs1)) as [[p0|]|err] eqn:U.
    - destruct (bind_after_ok _ (fun original : option Path =>
                                   match original with
                                   | Some p0 => ret p0
                                   | None => download_fresh env url d b fileType P
                                   end) fs1 (Some p0) U) as (-> & -> & ->).
      cbn [ret result fs_after trace]. rewrite app_nil_r.
      intros Hres Hnf. injection Hres as <-.
      exact (use_cached_original_valid d P fileType b fs1 p0 U Hnf).
    - destruct (bind_after_ok _ (fun original : option Path =>
                                   match original with
                                   | Some p0 => ret p0
                                   | None => download_fresh env url d b fileType P
                                   end) fs1 None U) as (-> & -> & ->).
      intros Hres Hnf. rewrite existsb_app in Hnf.
      apply orb_false_iff in Hnf. destruct Hnf as [_ Hnf].
      exact (download_fresh_valid url d b fileType P _ p Hres Hnf).
    - destruct (bind_after_throw _ (fun original : option Path =>
                                      match original with
                                      | Some p0 => ret p0
                                      | None => download_fresh env url d b fileType P
                                      end) fs1 err U) as (-> & _ & _).
      discriminate. }
  rewrite result_bind, fs_after_bind, trace_bind, check_cached_target_run.
  destruct (lookup_path fs P) as [e|] eqn:E;
    [destruct (0 <? st_size (e_stats e))%N eqn:Z|];
    cbn [result fs_after trace ret].
  - intros Hres _. injection Hres as <-. exists e. split; [exact E|].
    apply N.ltb_lt, Z.
  - intros Hres Hnf. cbn [app existsb is_conversion_failure orb] in Hnf.
    exact (Hrest _ Hres Hnf).
  - intros Hres Hnf. cbn [app] in Hnf. exact (Hrest _ Hres Hnf).
Qed.

End Returned.

Lemma returned_file_is_valid_witness :
  let o := download_video Scenario.env_convert Scenario.url (lit "My_Clip")
             (lit "mp4") Scenario.fs_zero_byte in
  result o = Ok (path_join TEMP_DIR_MP4 (lit "My_Clip.mp4")) /\
  valid_at (fs_after o) (path_join TEMP_DIR_MP4 (lit "My_Clip.mp4")).
Proof.
  cbv zeta. split; [reflexivity|].
  apply (returned_file_is_valid Scenario.env_convert env_convert_writes_output
           Scenario.url (lit "My_Clip") (lit "mp4") Scenario.fs_zero_byte).
  - reflexivity.
  - reflexivity.
Defined.

(** ** The conversion of a fresh download (lines 1054-1064) *)

Section FreshConversion.

Variable env : Env.

(** X27. With ffmpeg, once the download has left a file, the call cannot
    fail any more: it returns the final path when the conversion of the
    located file succeeds, and the located file itself, with the log
    line [Conversion failed, using original], when it fails; the
    directories are as ffmpeg left them. *)
Theorem fresh_download_conversion (url : jsstring) (d : Dir)
        (b fileType : jsstring) (P : Path) (fs0 : FS) (dp : Path) :
  let located := (remove_partial_downloads d b ;;
                  acquire env url d b fileType ;;
                  locate_download d b) fs0 in
  let c := convert env fileType dp P (fs_after located) in
  let o := download_fresh env url d b fileType P fs0 in
  ffmpegAvailable env = true ->
  result located = Ok dp ->
  fs_after o = fs_after c /\
  match result c with
  | Ok _ => result o = Ok P
  | Throw err =>
      result o = Ok dp /\
      In (EvConsole (ErrConversionFailedUsingOriginal err)) (trace o)
  end.
Proof.
  cbv zeta. intros Hav Hloc.
  rewrite <- (bind_assoc (remove_partial_downloads d b)
                (fun _ => acquire env url d b fileType)
                (fun _ => locate_download d b)) in *.
  destruct (result ((remove_partial_downloads d b ;;
                     acquire env url d b fileType) fs0)) as [[]|err] eqn:Hacq;
    [|destruct (bind_after_throw _ (fun _ => locate_download d b) fs0 err Hacq)
        as (Hr & _ & _); rewrite Hr in Hloc; discriminate Hloc].
  destruct (bind_after_ok _ (fun _ => locate_download d b) fs0 tt Hacq)
    as (Hr & Hf & _).
  rewrite Hr in Hloc. rewrite Hf, locate_download_fs.
  destruct (download_fresh_after_acquire env url d b fileType P fs0 Hacq)
    as (Ho & Hfo & Hto). cbv zeta in Ho, Hfo, Hto.
  rewrite Ho, Hfo, Hto.
  destruct (bind_after_ok (locate_download d b)
              (fun x => deliver_download env P fileType x) _ dp Hloc)
    as (-> & -> & ->).
  rewrite locate_download_fs, deliver_download_eq, Hav. cbv zeta.
  cbn [result fs_after trace].
  set (fs2 := fs_after ((remove_partial_downloads d b ;;
                         acquire env url d b fileType) fs0)).
  destruct (result (convert env fileType dp P fs2)) as [p|err] eqn:C.
  - destruct (bind_after_ok (convert env fileType dp P) (fun _ => ret P)
                fs2 p C) as (Hr2 & Hf2 & _).
    cbn [ret result fs_after] in Hr2, Hf2.
    rewrite (try_catch_ok (convert env fileType dp P ;; ret P) _ fs2 P Hr2), Hf2.
    split; [reflexivity | exact Hr2].
  - destruct (bind_after_throw (convert env fileType dp P) (fun _ => ret P)
                fs2 err C) as (Hr2 & Hf2 & _).
    rewrite (try_catch_throw (convert env fileType dp P ;; ret P) _ fs2 err Hr2),
      Hf2.
    cbn [result fs_after trace console emit ret bind].
    split; [reflexivity|]. split; [reflexivity|].
    apply in_or_app. right. apply in_or_app. right. right.
    apply in_or_app. right. left. reflexivity.
Qed.

End FreshConversion.

Lemma fresh_download_conversion_witness :
  let dp := path_join TEMP_DIR_MP4 (lit "My_Clip.webm") in
  let o := download_fresh Scenario.env_ffmpeg_fails Scenario.url TEMP_DIR_MP4
             (lit "My_Clip") (lit "mp4")
             (path_join TEMP_DIR_MP4 (lit "My_Clip.mp4")) Scenario.fs_empty in
  result o = Ok dp /\
  In (EvConsole (ErrConversionFailedUsingOriginal
                   (FFmpegExited 1 (lit "Conversion failed!"))))
     (trace o).
Proof.
  cbv zeta.
  destruct (fresh_download_conversion Scenario.env_ffmpeg_fails Scenario.url
              TEMP_DIR_MP4 (lit "My_Clip") (lit "mp4")
              (path_join TEMP_DIR_MP4 (lit "My_Clip.mp4")) Scenario.fs_empty
              (path_join TEMP_DIR_MP4 (lit "My_Clip.webm")) eq_refl eq_refl)
    as [_ H].
  exact H.
Defined.

(** ** The clean-up before the download (lines 971-983) *)

Section StalePartials.

(** X28. The clean-up before the download never fails and deletes exactly
    the files of the directory whose name starts with the base file
    name and contains [".f"] or [".part"] -- so also a finished file
    such as [<base>.flv] --; it touches nothing else. *)
Theorem stale_partials_removed (d : Dir) (b : jsstring) (fs : FS) :
  let o := remove_partial_downloads d b fs in
  result o = Ok tt /\
  listing (fs_after o) d =
    filter (fun e => negb (startsWith (e_name e) b &&
                           (includes (e_name e) (lit ".f") ||
                            includes (e_name e) (lit ".part"))))
           (listing fs d) /\
  (forall d', d <> d' -> listing (fs_after o) d' = listing fs d') /\
  Forall (fun ev => is_unlink ev = true) (trace o).
Proof.
  cbv zeta. destruct (remove_partial_downloads_run d b fs) as (R & F & T).
  cbv zeta in R, F, T. rewrite F.
  split; [exact R|]. split; [apply listing_set_same|].
  split; [|exact T].
  intros d' Hd. apply listing_set_other, Hd.
Qed.

Example stale_partials_flv :
  names_in
    (fs_after
       (remove_partial_downloads TEMP_DIR_MP4 (lit "My_Clip")
          (mkFS [Scenario.file "My_Clip.flv" 900 10;
                 Scenario.file "My_Clip.f137.mp4" 50 20;
                 Scenario.file "My_Clip.webm.part" 7 30;
                 Scenario.file "My_Clip.webm" 800 40;
                 Scenario.file "Other.mp4.part" 7 50] [])))
    TEMP_DIR_MP4
  = [lit "My_Clip.webm"; lit "Other.mp4.part"].
Proof. reflexivity. Qed.

End StalePartials.

(** ** The rename without ffmpeg (lines 1066-1074) *)

Section RenameAcross.

Variable env : Env.

Lemma lookup_name (l : Listing) (n : jsstring) (e : Entry) :
  lookup l n = Some e -> e_name e = n.
Proof.
  unfold lookup. induction l as [|x l IH]; simpl; [discriminate|].
  destruct (Js.eqb (e_name x) n) eqn:E; [|exact IH].
  intros H; injection H as <-. apply eqb_eq, E.
Qed.

(** X29. Without ffmpeg, a located file with the extension [.mp4] or [.mp3]
    -- the one of the request or the other one -- becomes the file at
    the final path: an audio request whose download is an [.mp4] file
    returns that file under the name [<title>.mp3]. *)
Theorem rename_whatever_the_kind (url : jsstring) (d : Dir)
        (b fileType : jsstring) (P : Path) (fs0 : FS) (dp : Path) :
  let located := (remove_partial_downloads d b ;;
                  acquire env url d b fileType ;;
                  locate_download d b) fs0 in
  let o := download_fresh env url d b fileType P fs0 in
  ffmpegAvailable env = false ->
  result located = Ok dp ->
  toLowerCase (extname (p_name dp)) = lit ".mp4" \/
  toLowerCase (extname (p_name dp)) = lit ".mp3" ->
  result o = Ok P /\
  exists e,
    lookup_path (fs_after located) dp = Some e /\
    lookup_path (fs_after o) P = Some (mkEntry (p_name P) (e_stats e)).
Proof.
  cbv zeta. intros Hav Hloc Hext.
  rewrite <- (bind_assoc (remove_partial_downloads d b)
                (fun _ => acquire env url d b fileType)
                (fun _ => locate_download d b)) in *.
  destruct (result ((remove_partial_downloads d b ;;
                     acquire env url d b fileType) fs0)) as [[]|err] eqn:Hacq;
    [|destruct (bind_after_throw _ (fun _ => locate_download d b) fs0 err Hacq)
        as (Hr & _ & _); rewrite Hr in Hloc; discriminate Hloc].
  destruct (bind_after_ok _ (fun _ => locate_download d b) fs0 tt Hacq)
    as (Hr & Hf & _).
  rewrite Hr in Hloc. rewrite Hf, locate_download_fs.
  destruct (locate_download_ok _ _ _ _ Hloc) as (e & Hlook & _).
  destruct (download_fresh_after_acquire env url d b fileType P fs0 Hacq)
    as (Ho & Hfo & _). cbv zeta in Ho, Hfo. rewrite Ho, Hfo.
  destruct (bind_after_ok (locate_download d b)
              (fun x => deliver_download env P fileType x) _ dp Hloc)
    as (-> & -> & _).
  rewrite locate_download_fs.
  rewrite (deliver_download_rename env P fileType dp _ e Hav Hlook Hext).
  destruct (path_eqb dp P) eqn:E.
  - apply path_eqb_eq in E. subst dp. cbn [result fs_after].
    split; [reflexivity|]. exists e. split; [exact Hlook|].
    rewrite Hlook. f_equal. destruct e as [n st]. cbn [e_stats]. f_equal.
    apply (lookup_name _ _ _ Hlook).
  - cbn [result fs_after]. split; [reflexivity|]. exists e.
    split; [exact Hlook | apply lookup_fs_write_same].
Qed.

End RenameAcross.

Lemma rename_whatever_the_kind_witness :
  let P := path_join TEMP_DIR_MP3 (lit "My_Clip.mp3") in
  let env := Scenario.env_of false
               (Scenario.ytdlp_writes (lit ".mp4") (mkStats 4096 1000))
               Scenario.ffmpeg_fails in
  let o := download_fresh env Scenario.url TEMP_DIR_MP3 (lit "My_Clip")
             (lit "mp3") P Scenario.fs_empty in
  result o = Ok P /\
  lookup_path (fs_after o) P = Some (mkEntry (lit "My_Clip.mp3") (mkStats 4096 1000)).
Proof.
  cbv zeta.
  destruct (rename_whatever_the_kind
              (Scenario.env_of false
                 (Scenario.ytdlp_writes (lit ".mp4") (mkStats 4096 1000))
                 Scenario.ffmpeg_fails)
              Scenario.url TEMP_DIR_MP3 (lit "My_Clip") (lit "mp3")
              (path_join TEMP_DIR_MP3 (lit "My_Clip.mp3")) Scenario.fs_empty
              (path_join TEMP_DIR_MP3 (lit "My_Clip.mp4"))
              eq_refl eq_refl (or_introl eq_refl)) as [Hr _].
  split; [exact Hr | reflexivity].
Defined.
